(** * Question/answer scrape pipeline: record cleaning, deduplication,
      JSON repair and tokenisation.

    Shallow embedding of [WebScraper/wrangling.py] (class [JSONCombiner]) and
    of the repair, validation and tokenisation parts of
    [Preprocessor/data_preprocessor.py] (class [DataPreprocessor]).

    Conventions.
    - A Python [str] is a [string]; a character stands for a code point
      below 256.  [isspace] is Python's whitespace class on that range.
    - A parsed document is a forest of [node]s, the shape BeautifulSoup
      builds.  The parser ([BeautifulSoup(html, 'html.parser')]) and the
      serialiser ([str(soup)]) belong to the library, not to the repository:
      the functions of [JSONCombiner] take them as parameters, bundled in
      [Soup].  [MD5] does the same for [hashlib.md5].
    - Values read from JSON are [json] trees; a Python dict is an association
      list searched from the left.  [json.loads], [html.unescape] and numpy's
      [argsort] are parameters too ([PyLibs]); where a statement speaks of
      text that parses as JSON, it does so with the grammar of [JsonText].
    - [MiniSoup], [MiniJson] and [Hashlib] are executable instances of these
      libraries, used to run the functions on concrete inputs. *)

From Stdlib Require Import String Ascii List Bool Arith ZArith Lia.
From stdpp Require Import base option list strings gmap.
Import ListNotations.

Set Warnings "-register-all,-clear-no-such-hyp".

Local Open Scope string_scope.
Local Open Scope list_scope.

(* ===================================================================== *)
(** ** Text helpers: [re.sub(r'\s+', ' ', s)], [str.strip], [str.lower] *)
(* ===================================================================== *)

Module Text.

(** Python's [str.isspace] / regex [\s] on code points below 256. *)
Definition isspace (c : ascii) : bool :=
  let n := nat_of_ascii c in
  (((9 <=? n) && (n <=? 13)) || ((28 <=? n) && (n <=? 32))
   || (n =? 133) || (n =? 160))%nat.

(** [re.sub(r'\s+', ' ', s)]: [in_run] records that the previous character
    was whitespace, so the current run was replaced already. *)
Fixpoint sub_ws (in_run : bool) (s : string) : string :=
  match s with
  | EmptyString => EmptyString
  | String c r =>
      if isspace c
      then (if in_run then sub_ws true r else String " " (sub_ws true r))
      else String c (sub_ws false r)
  end.

Definition collapse_ws (s : string) : string := sub_ws false s.

Fixpoint lstrip (s : string) : string :=
  match s with
  | EmptyString => EmptyString
  | String c r => if isspace c then lstrip r else s
  end.

Fixpoint rstrip (s : string) : string :=
  match s with
  | EmptyString => EmptyString
  | String c r =>
      match rstrip r with
      | EmptyString => if isspace c then EmptyString else String c EmptyString
      | r' => String c r'
      end
  end.

Definition strip (s : string) : string := rstrip (lstrip s).

(** [str.lower] on code points below 256: A-Z, and the Latin-1 capitals
    0xC0-0xDE except the multiplication sign 0xD7. *)
Definition lower_char (c : ascii) : ascii :=
  let n := nat_of_ascii c in
  if (((65 <=? n) && (n <=? 90))
      || ((192 <=? n) && (n <=? 222) && negb (n =? 215)))%nat
  then ascii_of_nat (n + 32) else c.

Fixpoint lower (s : string) : string :=
  match s with
  | EmptyString => EmptyString
  | String c r => String (lower_char c) (lower r)
  end.

Definition ch_eqb (a b : ascii) : bool := Ascii.eqb a b.

(** The double quote, code 34, and the backslash, code 92. *)
Definition dquote : ascii := ascii_of_nat 34.
Definition backslash : ascii := ascii_of_nat 92.

(** The longest prefix whose characters all fail [stop], and the rest. *)
Fixpoint span_until (stop : ascii -> bool) (s : string) : string * string :=
  match s with
  | EmptyString => (EmptyString, EmptyString)
  | String c r =>
      if stop c then (EmptyString, s)
      else let '(a, b) := span_until stop r in (String c a, b)
  end.

Fixpoint starts_with (p s : string) : option string :=
  match p, s with
  | EmptyString, _ => Some s
  | String a p', String b s' => if ch_eqb a b then starts_with p' s' else None
  | _, _ => None
  end.

(** The text before the first occurrence of [pat], and the text after it. *)
Fixpoint split_at (pat s : string) : option (string * string) :=
  match starts_with pat s with
  | Some rest => Some (EmptyString, rest)
  | None =>
      match s with
      | EmptyString => None
      | String c r =>
          '(a, b) ← split_at pat r; Some (String c a, b)
      end
  end.

(** [s.replace(old, new)] for a non-empty [old]: [skip] counts the
    characters of a match still to be dropped. *)
Fixpoint replace_from (skip : nat) (old new s : string) : string :=
  match s with
  | EmptyString => EmptyString
  | String c r =>
      match skip with
      | S k => replace_from k old new r
      | O =>
          match starts_with old s with
          | Some _ => new +:+ replace_from (String.length old - 1) old new r
          | None => String c (replace_from 0 old new r)
          end
      end
  end.

Definition replace (old new s : string) : string := replace_from 0 old new s.

(** [re.sub(r'\s+', ' ', s).strip()], the idiom both classes use. *)
Definition squeeze (s : string) : string := strip (collapse_ws s).

End Text.

(* ===================================================================== *)
(** ** Values and documents *)
(* ===================================================================== *)

(** What [json.load] returns.  A number keeps its lexeme. *)
Inductive json : Type :=
| JNull
| JBool (b : bool)
| JNum (lexeme : string)
| JStr (s : string)
| JArr (items : list json)
| JObj (fields : list (string * json)).

Abbreviation pydict := (list (string * json)).

(** [key in d] and [d.get(key)]. *)
Fixpoint dict_get (key : string) (d : pydict) : option json :=
  match d with
  | [] => None
  | (k, v) :: r => if String.eqb k key then Some v else dict_get key r
  end.

Definition dict_has (key : string) (d : pydict) : bool :=
  match dict_get key d with Some _ => true | None => false end.

(** An attribute value of a BeautifulSoup tag: a string, or a list of
    strings for the multi-valued attributes ([class], [rel], ...). *)
Inductive attr_value : Type :=
| AttrStr (s : string)
| AttrList (l : list string).

(** A node of the parsed document.  [Comment] stands for the string kinds
    that [get_text] skips (comments, doctypes, declarations). *)
Inductive node : Type :=
| NavigableString (s : string)
| Comment (s : string)
| Tag (name : string) (attrs : list (string * attr_value))
      (children : list node).

(** Induction over a document, with the hypothesis for all the children. *)
Fixpoint node_rect' (P : node -> Type) (Q : list node -> Type)
    (Hs : forall s, P (NavigableString s))
    (Hc : forall s, P (Comment s))
    (Ht : forall nm at_ ch, Q ch -> P (Tag nm at_ ch))
    (Hn : Q [])
    (Hk : forall n l, P n -> Q l -> Q (n :: l))
    (n : node) : P n :=
  match n with
  | NavigableString s => Hs s
  | Comment s => Hc s
  | Tag nm at_ ch =>
      Ht nm at_ ch
        ((fix go (l : list node) : Q l :=
            match l with
            | [] => Hn
            | x :: r => Hk x r (node_rect' P Q Hs Hc Ht Hn Hk x) (go r)
            end) ch)
  end.

Lemma node_forest_ind (P : node -> Prop) :
  (forall s, P (NavigableString s)) ->
  (forall s, P (Comment s)) ->
  (forall nm at_ ch, Forall P ch -> P (Tag nm at_ ch)) ->
  forall n, P n.
Proof.
  intros Hs Hc Ht.
  apply (node_rect' P (Forall P)); auto.
Qed.

(* ===================================================================== *)
(** ** The libraries the code calls *)
(* ===================================================================== *)

(** [BeautifulSoup(html, 'html.parser')] and [str(soup)].  The parser is
    taken as a function on all strings; the few declarations it rejects
    with [ParserRejectedMarkup] are outside the model. *)
Class Soup := {
  html_parser : string -> list node;
  soup_str : list node -> string
}.

(** [hashlib.md5(s.encode()).hexdigest()]. *)
Class MD5 := { md5_hexdigest : string -> string }.

(** [soup.get_text()]: the text strings of the document, in order. *)
Fixpoint get_text (n : node) : string :=
  match n with
  | NavigableString s => s
  | Comment _ => ""
  | Tag _ _ ch => String.concat "" (map get_text ch)
  end.

Definition soup_get_text (soup : list node) : string :=
  String.concat "" (map get_text soup).

(** Iterating a Python value: a list gives its items, a string its
    characters, a dict its keys; anything else raises [TypeError]. *)
Fixpoint chars (s : string) : list string :=
  match s with
  | EmptyString => []
  | String c r => String c EmptyString :: chars r
  end.

Definition py_iter (v : json) : option (list json) :=
  match v with
  | JArr l => Some l
  | JStr s => Some (map JStr (chars s))
  | JObj d => Some (map (fun kv => JStr (fst kv)) d)
  | _ => None
  end.

(* ===================================================================== *)
(** ** WebScraper/wrangling.py: class JSONCombiner *)
(* ===================================================================== *)

Module JSONCombiner.

Definition attr_get (key : string) (attrs : list (string * attr_value))
  : option attr_value :=
  snd <$> List.find (fun kv => String.eqb (fst kv) key) attrs.

(** The test behind [find_all(class_='js-post-notice')]: one of the classes
    of the element is the marker, or its whole class string is. *)
Definition has_class (cls : string) (attrs : list (string * attr_value))
  : bool :=
  match attr_get "class" attrs with
  | Some (AttrList l) =>
      existsb (String.eqb cls) l || String.eqb (String.concat " " l) cls
  | Some (AttrStr s) => String.eqb s cls
  | None => false
  end.

(** [for notice in soup.find_all(class_='js-post-notice'): notice.decompose()] *)
Fixpoint decompose_notices (n : node) : list node :=
  match n with
  | Tag nm at_ ch =>
      if has_class "js-post-notice" at_ then []
      else [Tag nm at_ (flat_map decompose_notices ch)]
  | _ => [n]
  end.

Definition allowed_attrs (name : string) : list string :=
  if String.eqb name "a" then ["href"] else [].

(** The attribute loop: [del tag[attr]] for every attribute not allowed. *)
Fixpoint strip_attrs (n : node) : node :=
  match n with
  | Tag nm at_ ch =>
      Tag nm
        (List.filter
           (fun kv => existsb (String.eqb (fst kv)) (allowed_attrs nm)) at_)
        (map strip_attrs ch)
  | _ => n
  end.

Definition allowed_tags : list string := ["p"; "code"; "a"].

(** [for tag in soup.find_all(): if tag.name not in allowed_tags: tag.unwrap()] *)
Fixpoint unwrap_disallowed (n : node) : list node :=
  match n with
  | Tag nm at_ ch =>
      let ch' := flat_map unwrap_disallowed ch in
      if existsb (String.eqb nm) allowed_tags then [Tag nm at_ ch'] else ch'
  | _ => [n]
  end.

(** The document [clean_html] serialises. *)
Definition clean_soup (soup : list node) : list node :=
  flat_map unwrap_disallowed
    (map strip_attrs (flat_map decompose_notices soup)).

Section WithLibraries.
Context `{Soup} `{MD5}.

Definition clean_html (html_content : json) : string :=
  match html_content with
  | JStr s => Text.squeeze (soup_str (clean_soup (html_parser s)))
  | _ => ""
  end.

Definition clean_question_content (question_content : json) : string :=
  let cleaned_html := clean_html question_content in
  let soup := html_parser cleaned_html in
  Text.lower (Text.squeeze (soup_get_text soup)).

Definition extract_question_content (entry : pydict) : string :=
  let question := default (JStr "") (dict_get "question" entry) in
  let question :=
    match question with
    | JObj d => default (JStr "") (dict_get "content" d)
    | _ => question
    end in
  clean_question_content question.

Definition hash_entry (entry : pydict) : string :=
  md5_hexdigest (extract_question_content entry).

(** The object's fields, as [__init__] declares them. *)
Record combiner : Type := Combiner {
  duplicate_indices : gmap string (list (nat * string));
  unique_entries : list pydict;
  hash_set : gset string
}.

Definition init : combiner :=
  {| duplicate_indices := ∅; unique_entries := []; hash_set := ∅ |}.

Definition is_str (v : json) : bool :=
  match v with JStr _ => true | _ => false end.

(** The [# Clean question] block of [process_file]. *)
Definition clean_question (entry : pydict) : pydict :=
  match dict_get "question" entry with
  | Some (JStr s) => [("question", JStr (clean_html (JStr s)))]
  | Some (JObj d) =>
      [("question",
        JObj [("content",
               JStr (clean_html (default (JStr "") (dict_get "content" d))))])]
  | _ => []
  end.

(** The [# Clean answers] block; [None] is the [TypeError] of iterating a
    value that is not iterable. *)
Definition clean_answers (entry : pydict) : option pydict :=
  match dict_get "answers" entry with
  | Some v =>
      l ← py_iter v;
      Some [("answers",
             JArr (map (fun a => JStr (clean_html a)) (List.filter is_str l)))]
  | None => Some []
  end.

Definition process_entry (entry : pydict) : option pydict :=
  a ← clean_answers entry;
  Some (clean_question entry ++ a).

(** The duplicate check at the end of the loop body: the combiner after the
    entry, and the entry when it was kept. *)
Definition record_entry (file_path : string) (idx : nat)
    (processed_entry : pydict) (c : combiner) : combiner * list pydict :=
  let entry_hash := hash_entry processed_entry in
  if decide (entry_hash ∈ hash_set c)
  then
    ({| duplicate_indices :=
          <[entry_hash :=
              default [] (duplicate_indices c !! entry_hash)
              ++ [(idx, file_path)]]> (duplicate_indices c);
        unique_entries := unique_entries c;
        hash_set := hash_set c |}, [])
  else
    ({| duplicate_indices := duplicate_indices c;
        unique_entries := unique_entries c;
        hash_set := {[entry_hash]} ∪ hash_set c |}, [processed_entry]).

(** The loop of [process_file] from index [idx] on; [processed_entries]
    is the list built so far. *)
Fixpoint process_entries (file_path : string) (idx : nat)
    (data : list pydict) (c : combiner) (processed_entries : list pydict)
  : option (combiner * list pydict) :=
  match data with
  | [] => Some (c, processed_entries)
  | entry :: rest =>
      processed_entry ← process_entry entry;
      let '(c', kept) := record_entry file_path idx processed_entry c in
      process_entries file_path (S idx) rest c' (processed_entries ++ kept)
  end.

(** [process_file]; [data] is what [json.load] read from [file_path], taken
    to be a list of objects as the scrapers write it (an element of another
    kind makes the loop raise). *)
Definition process_file (file_path : string) (data : list pydict)
    (file_index : nat) (c : combiner) : option (combiner * list pydict) :=
  process_entries file_path 0 data c [].

Record stats : Type := Stats {
  original_file_counts : gmap string nat;
  total_original_entries : nat;
  stat_unique_entries : nat;
  duplicates_removed : Z;
  stat_duplicate_indices : gmap string (list (nat * string))
}.

(** The file loop of [combine_files]. *)
Fixpoint combine_loop (files : list (string * list pydict)) (i : nat)
    (c : combiner) (total_entries : nat) (original_counts : gmap string nat)
  : option (combiner * nat * gmap string nat) :=
  match files with
  | [] => Some (c, total_entries, original_counts)
  | (file_path, data) :: rest =>
      '(c', entries) ← process_file file_path data i c;
      combine_loop rest (S i)
        {| duplicate_indices := duplicate_indices c';
           unique_entries := unique_entries c' ++ entries;
           hash_set := hash_set c' |}
        (total_entries + length entries)
        (<[file_path := length entries]> original_counts)
  end.

(** [combine_files]: the combiner afterwards (its [unique_entries] is what
    is written to [output_path]) and the statistics returned. *)
Definition combine_files (files : list (string * list pydict)) (c : combiner)
  : option (combiner * stats) :=
  '(c', total_entries, original_counts) ← combine_loop files 0 c 0 ∅;
  Some (c',
        {| original_file_counts := original_counts;
           total_original_entries := total_entries;
           stat_unique_entries := length (unique_entries c');
           duplicates_removed :=
             Z.of_nat total_entries - Z.of_nat (length (unique_entries c'));
           stat_duplicate_indices := duplicate_indices c' |}).

End WithLibraries.

End JSONCombiner.

(* ===================================================================== *)
(** ** A small executable parser and serialiser *)
(* ===================================================================== *)

(** An instance of [Soup] to run the functions above on concrete markup.
    It follows [html.parser] and BeautifulSoup's tree builder on the
    fragment of HTML made of start and end tags with quoted or bare
    attributes, comments, text and the references [&amp; &lt; &gt; &quot;].
    Of the multi-valued attributes only [class] is split, the others are
    deleted by [clean_html] before they can be observed. *)
Module MiniSoup.

Import Text.

Inductive token : Type :=
| TStart (name : string) (attrs : list (string * attr_value)) (closed : bool)
| TEnd (name : string)
| TText (s : string)
| TComment (s : string).

Definition is_letter (c : ascii) : bool :=
  let n := nat_of_ascii c in
  (((65 <=? n) && (n <=? 90)) || ((97 <=? n) && (n <=? 122)))%nat.


(** Split on whitespace, as BeautifulSoup does for [class]. *)
Fixpoint words_from (cur : string) (s : string) : list string :=
  let flush := match cur with EmptyString => [] | _ => [cur] end in
  match s with
  | EmptyString => flush
  | String c r =>
      if Text.isspace c then flush ++ words_from EmptyString r
      else words_from (cur +:+ String c EmptyString) r
  end.

Definition make_attr (k v : string) : string * attr_value :=
  if String.eqb k "class" then (k, AttrList (words_from "" v))
  else (k, AttrStr v).

(** A later attribute of the same name replaces the earlier one. *)
Definition set_attr (kv : string * attr_value)
    (attrs : list (string * attr_value)) : list (string * attr_value) :=
  if existsb (fun x => String.eqb (fst x) (fst kv)) attrs
  then map (fun x => if String.eqb (fst x) (fst kv) then kv else x) attrs
  else attrs ++ [kv].

Definition attr_stop (c : ascii) : bool :=
  Text.isspace c || ch_eqb c "=" || ch_eqb c ">" || ch_eqb c "/".

Definition value_stop (c : ascii) : bool := Text.isspace c || ch_eqb c ">".

(** The attributes of a start tag up to its [>]: the attributes, whether
    the tag ended in [/>], and the text after the tag. *)
Fixpoint parse_attrs (fuel : nat) (attrs : list (string * attr_value))
    (slash : bool) (s : string)
  : option (list (string * attr_value) * bool * string) :=
  match fuel with
  | O => None
  | S fuel' =>
      match s with
      | EmptyString => None
      | String c r =>
          if ch_eqb c ">" then Some (attrs, slash, r)
          else if Text.isspace c then parse_attrs fuel' attrs slash r
          else if ch_eqb c "/" then parse_attrs fuel' attrs true r
          else
            let '(k, r1) := span_until attr_stop s in
            let k := Text.lower k in
            let r2 := Text.lstrip r1 in
            match r2 with
            | String "=" r3 =>
                match Text.lstrip r3 with
                | String q r4 =>
                    if ch_eqb q dquote || ch_eqb q "'" then
                      '(v, r5) ← split_at (String q EmptyString) r4;
                      parse_attrs fuel' (set_attr (make_attr k v) attrs)
                        false r5
                    else
                      let '(v, r5) := span_until value_stop (String q r4) in
                      parse_attrs fuel' (set_attr (make_attr k v) attrs)
                        false r5
                | EmptyString => None
                end
            | _ => parse_attrs fuel' (set_attr (make_attr k "") attrs) false r1
            end
      end
  end.

Definition name_stop (c : ascii) : bool :=
  Text.isspace c || ch_eqb c ">" || ch_eqb c "/".

Definition flush_text (acc : string) : list token :=
  match acc with EmptyString => [] | _ => [TText acc] end.

Definition first_is_letter (s : string) : bool :=
  match s with String c _ => is_letter c | EmptyString => false end.

(** One markup construct at a [<]: its token and the text after it. *)
Definition markup (fuel : nat) (r : string) : option (token * string) :=
  match starts_with "!--" r with
  | Some r1 => '(c, r2) ← split_at "-->" r1; Some (TComment c, r2)
  | None =>
      match r with
      | String "/" r1 =>
          if first_is_letter r1 then
            let '(nm, r2) := span_until name_stop r1 in
            '(_, r3) ← split_at ">" r2; Some (TEnd (Text.lower nm), r3)
          else None
      | _ =>
          if first_is_letter r then
            let '(nm, r1) := span_until name_stop r in
            '(attrs, closed, r2) ← parse_attrs fuel [] false r1;
            Some (TStart (Text.lower nm) attrs closed, r2)
          else None
      end
  end.

Definition references : list (string * string) :=
  [("amp;", "&"); ("lt;", "<"); ("gt;", ">"); ("quot;", String dquote EmptyString)].

Fixpoint reference (refs : list (string * string)) (r : string)
  : option (string * string) :=
  match refs with
  | [] => None
  | (nm, c) :: refs' =>
      match starts_with nm r with
      | Some rest => Some (c, rest)
      | None => reference refs' r
      end
  end.

Fixpoint tokenize (fuel : nat) (acc : string) (s : string) : list token :=
  match fuel with
  | O => flush_text (acc +:+ s)
  | S fuel' =>
      match s with
      | EmptyString => flush_text acc
      | String c r =>
          if ch_eqb c "<" then
            match markup fuel' r with
            | Some (t, rest) => flush_text acc ++ t :: tokenize fuel' "" rest
            | None => tokenize fuel' (acc +:+ "<") r
            end
          else if ch_eqb c "&" then
            match reference references r with
            | Some (d, rest) => tokenize fuel' (acc +:+ d) rest
            | None => tokenize fuel' (acc +:+ "&") r
            end
          else tokenize fuel' (acc +:+ String c EmptyString) r
      end
  end.

(** Elements that never have content ([br], [img], ...). *)
Definition empty_element_tags : list string :=
  ["area"; "base"; "br"; "col"; "embed"; "hr"; "img"; "input"; "keygen";
   "link"; "menuitem"; "meta"; "param"; "source"; "track"; "wbr";
   "basefont"; "bgsound"; "command"; "frame"; "image"; "isindex"; "nextid";
   "spacer"].

Definition is_empty_element (nm : string) : bool :=
  existsb (String.eqb nm) empty_element_tags.

(** An open element: its name and attributes, and the siblings that came
    before it in its parent. *)
Definition frame : Type :=
  string * list (string * attr_value) * list node.

Fixpoint close_all (cur : list node) (stack : list frame) : list node :=
  match stack with
  | [] => cur
  | (nm, at_, before) :: st => close_all (before ++ [Tag nm at_ cur]) st
  end.

(** Close the open elements up to the nearest one called [nm]; [None] when
    no open element has that name. *)
Fixpoint pop_to (nm : string) (cur : list node) (stack : list frame)
  : option (list node * list frame) :=
  match stack with
  | [] => None
  | (n, at_, before) :: st =>
      let cur' := before ++ [Tag n at_ cur] in
      if String.eqb n nm then Some (cur', st) else pop_to nm cur' st
  end.

Fixpoint build (toks : list token) (cur : list node) (stack : list frame)
  : list node :=
  match toks with
  | [] => close_all cur stack
  | TStart nm at_ closed :: r =>
      if closed || is_empty_element nm
      then build r (cur ++ [Tag nm at_ []]) stack
      else build r [] ((nm, at_, cur) :: stack)
  | TEnd nm :: r =>
      match pop_to nm cur stack with
      | Some (cur', st) => build r cur' st
      | None => build r cur stack
      end
  | TText t :: r => build r (cur ++ [NavigableString t]) stack
  | TComment t :: r => build r (cur ++ [Comment t]) stack
  end.

Definition parse (s : string) : list node :=
  build (tokenize (S (String.length s)) "" s) [] [].

Fixpoint escape (s : string) : string :=
  match s with
  | EmptyString => EmptyString
  | String c r =>
      (if ch_eqb c "&" then "&amp;"
       else if ch_eqb c "<" then "&lt;"
       else if ch_eqb c ">" then "&gt;"
       else String c EmptyString) +:+ escape r
  end.

Fixpoint contains (c : ascii) (s : string) : bool :=
  match s with
  | EmptyString => false
  | String d r => ch_eqb c d || contains c r
  end.

Fixpoint replace_dquote (s : string) : string :=
  match s with
  | EmptyString => EmptyString
  | String c r =>
      (if ch_eqb c dquote then "&quot;" else String c EmptyString)
      +:+ replace_dquote r
  end.

Definition quoted_attribute_value (v : string) : string :=
  let dq := String dquote EmptyString in
  if contains dquote v then
    if contains "'" v then dq +:+ replace_dquote v +:+ dq
    else "'" +:+ v +:+ "'"
  else dq +:+ v +:+ dq.

Definition attr_text (v : attr_value) : string :=
  match v with
  | AttrStr t => t
  | AttrList l => String.concat " " l
  end.

Definition render_attr (kv : string * attr_value) : string :=
  " " +:+ fst kv +:+ "=" +:+ quoted_attribute_value (escape (attr_text (snd kv))).

Fixpoint render (n : node) : string :=
  match n with
  | NavigableString t => escape t
  | Comment t => "<!--" +:+ t +:+ "-->"
  | Tag nm at_ ch =>
      let open_ := "<" +:+ nm +:+ String.concat "" (map render_attr at_) in
      if is_empty_element nm then open_ +:+ "/>"
      else open_ +:+ ">" +:+ String.concat "" (map render ch)
           +:+ "</" +:+ nm +:+ ">"
  end.

Definition to_str (soup : list node) : string :=
  String.concat "" (map render soup).

#[export] Instance mini_soup : Soup :=
  {| html_parser := parse; soup_str := to_str |}.

End MiniSoup.

(* ===================================================================== *)
(** ** MD5 (RFC 1321), to run [hash_entry] on concrete records *)
(* ===================================================================== *)

Module Hashlib.

Local Open Scope N_scope.

Definition mask32 : N := 4294967295.

Definition add32 (a b : N) : N := N.land (a + b) mask32.

Definition not32 (a : N) : N := N.lxor a mask32.

Definition rotl32 (x : N) (c : N) : N :=
  N.lor (N.land (N.shiftl x c) mask32) (N.shiftr x (32 - c)).

(** [s.encode()]: UTF-8 of code points below 256. *)
Fixpoint encode (s : string) : list N :=
  match s with
  | EmptyString => []
  | String c r =>
      let n := N_of_ascii c in
      if n <? 128 then n :: encode r
      else N.lor 192 (N.shiftr n 6) :: N.lor 128 (N.land n 63) :: encode r
  end.

Definition shifts : list N :=
  [7; 12; 17; 22; 7; 12; 17; 22; 7; 12; 17; 22; 7; 12; 17; 22;
   5; 9; 14; 20; 5; 9; 14; 20; 5; 9; 14; 20; 5; 9; 14; 20;
   4; 11; 16; 23; 4; 11; 16; 23; 4; 11; 16; 23; 4; 11; 16; 23;
   6; 10; 15; 21; 6; 10; 15; 21; 6; 10; 15; 21; 6; 10; 15; 21].

(** [floor (2^32 * abs (sin (i + 1)))] for [i] from 0 to 63. *)
Definition sines : list N :=
  [3614090360; 3905402710; 606105819; 3250441966; 4118548399; 1200080426;
   2821735955; 4249261313; 1770035416; 2336552879; 4294925233; 2304563134;
   1804603682; 4254626195; 2792965006; 1236535329; 4129170786; 3225465664;
   643717713; 3921069994; 3593408605; 38016083; 3634488961; 3889429448;
   568446438; 3275163606; 4107603335; 1163531501; 2850285829; 4243563512;
   1735328473; 2368359562; 4294588738; 2272392833; 1839030562; 4259657740;
   2763975236; 1272893353; 4139469664; 3200236656; 681279174; 3936430074;
   3572445317; 76029189; 3654602809; 3873151461; 530742520; 3299628645;
   4096336452; 1126891415; 2878612391; 4237533241; 1700485571; 2399980690;
   4293915773; 2240044497; 1873313359; 4264355552; 2734768916; 1309151649;
   4149444226; 3174756917; 718787259; 3951481745].

(** Little-endian bytes of [x], [n] of them. *)
Fixpoint le_bytes (n : nat) (x : N) : list N :=
  match n with
  | O => []
  | S n' => N.land x 255 :: le_bytes n' (N.shiftr x 8)
  end.

Definition pad (msg : list N) : list N :=
  let len := N.of_nat (length msg) in
  let zeros := N.to_nat ((119 - len mod 64) mod 64) in
  msg ++ 128 :: repeat 0 zeros ++ le_bytes 8 (8 * len).

Fixpoint le_word (bs : list N) : N :=
  match bs with
  | [] => 0
  | b :: r => b + 256 * le_word r
  end.

(** The sixteen words of a 64-byte block. *)
Fixpoint words (n : nat) (bs : list N) : list N :=
  match n with
  | O => []
  | S n' => le_word (firstn 4 bs) :: words n' (skipn 4 bs)
  end.

Definition state : Type := N * N * N * N.

Definition round (m : list N) (i : N) (st : state) : state :=
  let '(a, b, c, d) := st in
  let '(f, g) :=
    if i <? 16 then (N.lor (N.land b c) (N.land (not32 b) d), i)
    else if i <? 32 then
      (N.lor (N.land d b) (N.land (not32 d) c), (5 * i + 1) mod 16)
    else if i <? 48 then (N.lxor (N.lxor b c) d, (3 * i + 5) mod 16)
    else (N.lxor c (N.lor b (not32 d)), (7 * i) mod 16) in
  let k := nth (N.to_nat i) sines 0 in
  let w := nth (N.to_nat g) m 0 in
  let f := add32 (add32 (add32 f a) k) w in
  (d, add32 b (rotl32 f (nth (N.to_nat i) shifts 0)), b, c).

Definition block (st : state) (bs : list N) : state :=
  let m := words 16 bs in
  let '(a, b, c, d) :=
    fold_left (fun acc i => round m (N.of_nat i) acc) (seq 0 64) st in
  let '(a0, b0, c0, d0) := st in
  (add32 a0 a, add32 b0 b, add32 c0 c, add32 d0 d).

Fixpoint blocks (n : nat) (st : state) (bs : list N) : state :=
  match n with
  | O => st
  | S n' => blocks n' (block st (firstn 64 bs)) (skipn 64 bs)
  end.

Definition hex_digit (n : N) : ascii :=
  ascii_of_N (if n <? 10 then 48 + n else 87 + n).

Fixpoint hex (bs : list N) : string :=
  match bs with
  | [] => EmptyString
  | b :: r => String (hex_digit (b / 16)) (String (hex_digit (b mod 16)) (hex r))
  end.

Definition md5 (s : string) : string :=
  let bs := pad (encode s) in
  let '(a, b, c, d) :=
    blocks (length bs / 64)
      (1732584193, 4023233417, 2562383102, 271733878) bs in
  hex (le_bytes 4 a ++ le_bytes 4 b ++ le_bytes 4 c ++ le_bytes 4 d).

#[export] Instance hashlib_md5 : MD5 := {| md5_hexdigest := md5 |}.

End Hashlib.

(* ===================================================================== *)
(** ** Preprocessor/data_preprocessor.py: class DataPreprocessor *)
(* ===================================================================== *)

(** What the code can raise. *)
Inductive exn : Type :=
| JSONDecodeError (msg : string) (pos : nat)
| ValueError (msg : string)
| TypeError
| KeyError (key : string).

(** [json.loads], [html.unescape] and numpy's [argsort]. *)
Class PyLibs := {
  json_loads : string -> exn + json;
  html_unescape : string -> string;
  argsort : list Z -> list nat
}.

Module DataPreprocessor.

Import Text.

Definition newline : ascii := ascii_of_nat 10.

Definition str1 (c : ascii) : string := String c EmptyString.

(** The pairs of [escape_mapping], in the order the dict lists them. *)
Definition escape_mapping : list (string * string) :=
  [(String backslash (str1 dquote), str1 dquote);
   (String backslash "n", " ");
   (String backslash "t", " ");
   (String backslash "r", " ");
   (String backslash (str1 backslash), str1 backslash);
   (String backslash "/", "/")].

Definition unescape_json (text : string) : string :=
  fold_left (fun t kv => replace (fst kv) (snd kv) t) escape_mapping text.

(** Regex [\w] on code points below 256. *)
Definition is_word (c : ascii) : bool :=
  let n := nat_of_ascii c in
  (((48 <=? n) && (n <=? 57)) || ((65 <=? n) && (n <=? 90)) || (n =? 95)
   || ((97 <=? n) && (n <=? 122)) || (n =? 170)
   || ((178 <=? n) && (n <=? 179)) || (n =? 181)
   || ((185 <=? n) && (n <=? 186)) || ((188 <=? n) && (n <=? 190))
   || ((192 <=? n) && (n <=? 214)) || ((216 <=? n) && (n <=? 246))
   || (248 <=? n))%nat.

(** [re.sub(marker + r'.*$', '', code, flags=re.MULTILINE)] for a marker of
    one or two characters: from the marker to the end of its line. *)
Fixpoint strip_line_comments (marker : string) (in_comment : bool)
    (code : string) : string :=
  match code with
  | EmptyString => EmptyString
  | String c r =>
      if ch_eqb c newline then String c (strip_line_comments marker false r)
      else if in_comment then strip_line_comments marker true r
      else
        match starts_with marker code with
        | Some _ => strip_line_comments marker true r
        | None => String c (strip_line_comments marker false r)
        end
  end.

(** [re.sub(r'/\*.*?\*/', '', code, flags=re.DOTALL)]. *)
Fixpoint strip_block_comments (fuel : nat) (code : string) : string :=
  match fuel with
  | O => code
  | S fuel' =>
      match code with
      | EmptyString => EmptyString
      | String c r =>
          match starts_with "/*" code with
          | Some body =>
              match split_at "*/" body with
              | Some (_, rest) => strip_block_comments fuel' rest
              | None => String c (strip_block_comments fuel' r)
              end
          | None => String c (strip_block_comments fuel' r)
          end
      end
  end.

(** [re.sub(r'([^\w\s])', r' \1 ', code)]. *)
Fixpoint space_out_symbols (code : string) : string :=
  match code with
  | EmptyString => EmptyString
  | String c r =>
      if is_word c || isspace c then String c (space_out_symbols r)
      else String " " (String c (String " " (space_out_symbols r)))
  end.

Definition preprocess_code (code : string) : string :=
  let code := unescape_json code in
  let code := strip_line_comments "#" false code in
  let code := strip_line_comments "//" false code in
  let code := strip_block_comments (String.length code) code in
  let code := collapse_ws code in
  let code := space_out_symbols code in
  strip code.

(** [re.sub(r'[^a-z0-9\s\.]', ' ', text)]. *)
Definition keep_in_text (c : ascii) : bool :=
  let n := nat_of_ascii c in
  (((97 <=? n) && (n <=? 122)) || ((48 <=? n) && (n <=? 57)))%nat
  || isspace c || ch_eqb c ".".

Fixpoint blank_special (text : string) : string :=
  match text with
  | EmptyString => EmptyString
  | String c r =>
      String (if keep_in_text c then c else " "%char) (blank_special r)
  end.

Definition preprocess_text (text : string) : string :=
  let text := unescape_json text in
  let text := lower text in
  let text := blank_special text in
  let text := collapse_ws text in
  strip text.

(** [re.sub(r'(?<!\\)/', '\\/', code)]: [prev] is the character before. *)
Fixpoint escape_slashes (prev : option ascii) (code : string) : string :=
  match code with
  | EmptyString => EmptyString
  | String c r =>
      let escaped :=
        match prev with
        | Some b => ch_eqb b backslash
        | None => false
        end in
      if ch_eqb c "/" && negb escaped
      then String backslash (String c (escape_slashes (Some c) r))
      else String c (escape_slashes (Some c) r)
  end.

Definition sanitize_code_block (code : string) : string :=
  let code := replace (str1 backslash) (String backslash (str1 backslash)) code in
  let code := replace (str1 dquote) (String backslash (str1 dquote)) code in
  let code := replace (str1 newline) (String backslash "n") code in
  let code := replace (str1 (ascii_of_nat 13)) (String backslash "r") code in
  let code := replace (str1 (ascii_of_nat 9)) (String backslash "t") code in
  escape_slashes None code.

(** [re.sub(r'<code>(.*?)</code>', replace_code_block, content, re.DOTALL)]. *)
Fixpoint process_code_blocks_from (fuel : nat) (content : string) : string :=
  match fuel with
  | O => content
  | S fuel' =>
      match content with
      | EmptyString => EmptyString
      | String c r =>
          match starts_with "<code>" content with
          | Some body =>
              match split_at "</code>" body with
              | Some (code, rest) =>
                  "<code>" +:+ sanitize_code_block code +:+ "</code>"
                  +:+ process_code_blocks_from fuel' rest
              | None => String c (process_code_blocks_from fuel' r)
              end
          | None => String c (process_code_blocks_from fuel' r)
          end
      end
  end.

Definition process_code_blocks (content : string) : string :=
  process_code_blocks_from (String.length content) content.

Definition first_char (s : string) : option ascii :=
  match s with String c _ => Some c | EmptyString => None end.

Fixpoint last_char (s : string) : option ascii :=
  match s with
  | EmptyString => None
  | String c EmptyString => Some c
  | String _ r => last_char r
  end.

Definition is_char (c : ascii) (o : option ascii) : bool :=
  match o with Some d => ch_eqb c d | None => false end.

(** [re.sub(r'}\s*{', '},{', content)]: a closing brace followed, across
    whitespace only, by an opening brace.  [skip] is set between the two
    braces of a match, where the whitespace is dropped. *)
Fixpoint sub_missing_commas (skip : bool) (content : string) : string :=
  match content with
  | EmptyString => EmptyString
  | String c r =>
      if skip && isspace c then sub_missing_commas true r
      else if ch_eqb c "}" && is_char "{" (first_char (lstrip r))
      then String "}" (String "," (sub_missing_commas true r))
      else String c (sub_missing_commas false r)
  end.

(** [re.sub(r',(\s*[}\]])', r'\1', content)]: a comma followed, across
    whitespace only, by a closing brace or bracket is dropped. *)
Fixpoint sub_trailing_commas (content : string) : string :=
  match content with
  | EmptyString => EmptyString
  | String c r =>
      let next := first_char (lstrip r) in
      if ch_eqb c "," && (is_char "}" next || is_char "]" next)
      then sub_trailing_commas r
      else String c (sub_trailing_commas r)
  end.

(** [lstrip] of the byte-order mark U+FEFF: no code point below 256 is
    that mark, so the text of this model is left as it is. *)
Definition lstrip_bom (content : string) : string := content.

Definition fix_json_structure (content : string) : string :=
  let content := lstrip_bom (strip content) in
  let content :=
    if is_char "[" (first_char content) then content else "[" +:+ content in
  let content :=
    if is_char "]" (last_char content) then content else content +:+ "]" in
  let content := sub_missing_commas false content in
  sub_trailing_commas content.

Definition is_list (v : json) : bool :=
  match v with JArr _ => true | _ => false end.

Definition validate_json_entry (entry : json) : bool :=
  match entry with
  | JObj d =>
      if negb (dict_has "question" d) then false
      else if negb (dict_has "answers" d)
              || negb (match dict_get "answers" d with
                       | Some v => is_list v
                       | None => false
                       end)
      then false
      else true
  | _ => false
  end.

(** What the code prints. *)
Inductive message : Type :=
| Info (text : string)
| SkipWarning (index : nat)
| DecodeErrorReport (e : exn)
| LoadError (e : exn).

(** [preprocess_file] on the text read from the file (the copies it saves
    in the debug directory are not modelled). *)
Definition preprocess_file (content : string) : list message * string :=
  let content1 := process_code_blocks content in
  let content2 := fix_json_structure content1 in
  ([Info "Processing code blocks..."; Info "Fixing JSON structure..."],
   content2).

(** The validation loop: the warnings printed and the entries kept. *)
Fixpoint validate_entries (i : nat) (data : list json)
  : list message * list json :=
  match data with
  | [] => ([], [])
  | entry :: rest =>
      let '(log, validated_data) := validate_entries (S i) rest in
      if validate_json_entry entry then (log, entry :: validated_data)
      else (SkipWarning i :: log, validated_data)
  end.

Definition no_valid_entries : exn :=
  ValueError "No valid entries found in the JSON file".

Section WithLibraries.
Context `{PyLibs}.

(** The part of [load_json_safely] after [json.loads] returned [data]:
    the validation loop and the test for an empty result. *)
Definition validate_loaded (data : json) : list message * (exn + list json) :=
  match py_iter data with
  | None => ([LoadError TypeError], inl TypeError)
  | Some items =>
      let '(log, validated_data) := validate_entries 0 items in
      match validated_data with
      | [] => (log ++ [LoadError no_valid_entries], inl no_valid_entries)
      | _ => (log, inr validated_data)
      end
  end.

(** [load_json_safely] on the text of the file: what is printed, and the
    validated entries or the exception raised. *)
Definition load_json_safely (raw : string) : list message * (exn + list json) :=
  let '(log0, content) := preprocess_file raw in
  match json_loads content with
  | inl e => (log0 ++ [DecodeErrorReport e; LoadError e], inl e)
  | inr data =>
      let '(log, result) := validate_loaded data in (log0 ++ log, result)
  end.

End WithLibraries.

(** *** Splitting a fragment into code and text *)

(** [tag.get_text(strip=True)]: the text strings of the subtree, each one
    stripped, the empty ones left out. *)
Fixpoint stripped_strings (n : node) : list string :=
  match n with
  | NavigableString t =>
      match strip t with EmptyString => [] | t' => [t'] end
  | Comment _ => []
  | Tag _ _ ch => flat_map stripped_strings ch
  end.

Definition get_text_strip (n : node) : string :=
  String.concat "" (stripped_strings n).

Definition non_empty (t : string) : list string :=
  match t with EmptyString => [] | _ => [t] end.

(** The first loop of [extract_code_and_text]: the text of every [code]
    element that is not inside another one (an inner one is emptied when
    the outer one is decomposed, and then contributes nothing). *)
Fixpoint code_blocks_of (n : node) : list string :=
  match n with
  | Tag nm _ ch =>
      if String.eqb nm "code" then non_empty (get_text_strip n)
      else flat_map code_blocks_of ch
  | _ => []
  end.

(** The document after every [code.decompose()]. *)
Fixpoint decompose_code (n : node) : list node :=
  match n with
  | Tag nm at_ ch =>
      if String.eqb nm "code" then []
      else [Tag nm at_ (flat_map decompose_code ch)]
  | _ => [n]
  end.

(** The second loop: [soup.find_all(['p', 'a'])], in document order. *)
Fixpoint text_blocks_of (n : node) : list string :=
  match n with
  | Tag nm _ ch =>
      (if String.eqb nm "p" || String.eqb nm "a"
       then non_empty (get_text_strip n) else [])
      ++ flat_map text_blocks_of ch
  | _ => []
  end.

(** *** Tokenisers of the two vectorisers *)

Definition ident_start (c : ascii) : bool :=
  let n := nat_of_ascii c in
  (((65 <=? n) && (n <=? 90)) || ((97 <=? n) && (n <=? 122)) || (n =? 95))%nat.

Definition ident_char (c : ascii) : bool :=
  ident_start c
  || (let n := nat_of_ascii c in ((48 <=? n) && (n <=? 57))%nat).

(** Where the scan of [findall] stands: between tokens, inside a match of
    [[A-Za-z_][A-Za-z0-9_]*], or inside a match of [\S+]. *)
Inductive scan : Type := Between | InIdent | InRun.

(** [re.findall(r'[A-Za-z_][A-Za-z0-9_]*|\S+', doc)]; [cur] is the match
    being read. *)
Fixpoint findall_code (st : scan) (cur : string) (doc : string)
  : list string :=
  match doc with
  | EmptyString =>
      match st with Between => [] | _ => [cur] end
  | String c r =>
      let fresh :=
        if ident_start c then findall_code InIdent (str1 c) r
        else if isspace c then findall_code Between EmptyString r
        else findall_code InRun (str1 c) r in
      match st with
      | Between => fresh
      | InIdent =>
          if ident_char c then findall_code InIdent (cur +:+ str1 c) r
          else cur :: fresh
      | InRun =>
          if isspace c then cur :: findall_code Between EmptyString r
          else findall_code InRun (cur +:+ str1 c) r
      end
  end.

Definition code_tokenizer (doc : string) : list string :=
  findall_code Between EmptyString doc.

(** [re.findall(r'\b\w\w+\b', doc)], the default pattern: the runs of two
    or more word characters. *)
Fixpoint findall_words (cur : string) (doc : string) : list string :=
  let flush :=
    match cur with
    | String _ (String _ _) => [cur]
    | _ => []
    end in
  match doc with
  | EmptyString => flush
  | String c r =>
      if is_word c then findall_words (cur +:+ str1 c) r
      else flush ++ findall_words EmptyString r
  end.

Definition text_tokenizer (doc : string) : list string :=
  findall_words EmptyString doc.

(** *** sklearn's CountVectorizer, as far as the code uses it *)

(** The vectoriser: its [token_pattern] as the tokeniser it compiles to,
    [max_features], and after [fit] the terms of [vocabulary_], a term's
    index being its position. *)
Record CountVectorizer : Type := {
  tokenizer : string -> list string;
  max_features : nat;
  vocabulary_ : option (list string)
}.

(** The analyser: lower-case (the default), then tokenise. *)
Definition analyze (v : CountVectorizer) (doc : string) : list string :=
  tokenizer v (lower doc).

(** [sorted(set(tokens))]. *)
Fixpoint insert_sorted (t : string) (l : list string) : list string :=
  match l with
  | [] => [t]
  | x :: r =>
      match String.compare t x with
      | Lt => t :: l
      | Eq => l
      | Gt => x :: insert_sorted t r
      end
  end.

Definition sorted_terms (tokens : list string) : list string :=
  fold_right insert_sorted [] tokens.

Definition count_term (t : string) (tokens : list string) : nat :=
  length (List.filter (String.eqb t) tokens).

Definition empty_vocabulary : exn :=
  ValueError "empty vocabulary; perhaps the documents only contain stop words".

(** The parameter check of [fit]: [max_features] is to be 1 at least;
    [InvalidParameterError] is a [ValueError]. *)
Definition invalid_max_features : exn :=
  ValueError "The 'max_features' parameter of CountVectorizer must be an int in the range [1, inf) or None. Got 0 instead.".

Section WithLibraries.
Context `{PyLibs}.

(** [fit]: all the terms, or the [max_features] most frequent ones when
    there are more, in sorted order. *)
Definition fit (v : CountVectorizer) (raw_documents : list string)
  : exn + CountVectorizer :=
  let tokens := flat_map (analyze v) raw_documents in
  let terms := sorted_terms tokens in
  if (max_features v =? 0)%nat then inl invalid_max_features else
  match terms with
  | [] => inl empty_vocabulary
  | _ =>
      let kept :=
        if (max_features v <? length terms)%nat then
          let tfs := map (fun t => Z.of_nat (count_term t tokens)) terms in
          let mask_inds := firstn (max_features v) (argsort (map Z.opp tfs)) in
          map snd
            (List.filter (fun it => existsb (Nat.eqb (fst it)) mask_inds)
               (combine (seq 0 (length terms)) terms))
        else terms in
      inr {| tokenizer := tokenizer v; max_features := max_features v;
             vocabulary_ := Some kept |}
  end.

End WithLibraries.

(** One row of [transform]: the count of each term of the vocabulary. *)
Definition count_row (v : CountVectorizer) (vocab : list string)
    (doc : string) : list nat :=
  let tokens := analyze v doc in
  map (fun t => count_term t tokens) vocab.

Fixpoint add_rows (a b : list nat) : list nat :=
  match a, b with
  | x :: a', y :: b' => (x + y) :: add_rows a' b'
  | _, _ => []
  end.

(** [transform(docs).toarray().sum(axis=0)]. *)
Definition transform_sum (v : CountVectorizer) (vocab : list string)
    (docs : list string) : list nat :=
  fold_left add_rows (map (count_row v vocab) docs)
    (repeat 0 (length vocab)).

(** *** The object and its pipeline *)

Record preprocessor : Type := {
  min_word_freq : nat;
  max_vocab_size : nat;
  code_vectoriser : CountVectorizer;
  text_vectoriser : CountVectorizer
}.

(** [__init__]. *)
Definition new (min_word_freq max_vocab_size : nat) : preprocessor :=
  {| min_word_freq := min_word_freq;
     max_vocab_size := max_vocab_size;
     code_vectoriser :=
       {| tokenizer := code_tokenizer; max_features := max_vocab_size;
          vocabulary_ := None |};
     text_vectoriser :=
       {| tokenizer := text_tokenizer; max_features := max_vocab_size;
          vocabulary_ := None |} |}.

Record processed_entry : Type := {
  question_code : list string;
  question_text : list string;
  answer_code : list string;
  answer_text : list string
}.

Record bag_of_words : Type := {
  bow_question_code : list nat;
  bow_answer_code : list nat;
  bow_question_text : list nat;
  bow_answer_text : list nat
}.

Section WithLibraries.
Context `{PyLibs} `{Soup}.

Definition clean_text (text : json) : string :=
  match text with
  | JStr t => squeeze (html_unescape (unescape_json t))
  | _ => EmptyString
  end.

Definition extract_code_and_text (html_content : string)
  : list string * list string :=
  let soup := html_parser html_content in
  let code_blocks := flat_map code_blocks_of soup in
  let soup := flat_map decompose_code soup in
  (code_blocks, flat_map text_blocks_of soup).

(** The body of the entry loop of [process_file], for an entry that passed
    validation (an object with a [question] and a list of [answers]). *)
Definition process_entry (entry : json) : exn + processed_entry :=
  match entry with
  | JObj d =>
      match dict_get "question" d, dict_get "answers" d with
      | Some q, Some (JArr answers) =>
          let '(qc, qt) := extract_code_and_text (clean_text q) in
          let parts :=
            map (fun a => extract_code_and_text (clean_text a)) answers in
          inr {| question_code := map preprocess_code qc;
                 question_text := map preprocess_text qt;
                 answer_code := map preprocess_code (flat_map fst parts);
                 answer_text := map preprocess_text (flat_map snd parts) |}
      | None, _ => inl (KeyError "question_code")
      | _, _ => inl TypeError
      end
  | _ => inl TypeError
  end.

Fixpoint process_entries (data : list json) : exn + list processed_entry :=
  match data with
  | [] => inr []
  | entry :: rest =>
      match process_entry entry with
      | inl e => inl e
      | inr pe =>
          match process_entries rest with
          | inl e => inl e
          | inr l => inr (pe :: l)
          end
      end
  end.

(** [create_vocabulary]: both vectorisers fitted on the whole corpus. *)
Definition create_vocabulary (self : preprocessor)
    (processed_data : list processed_entry) : exn + preprocessor :=
  let all_code :=
    flat_map (fun e => question_code e ++ answer_code e) processed_data in
  let all_text :=
    flat_map (fun e => question_text e ++ answer_text e) processed_data in
  match fit (code_vectoriser self) all_code with
  | inl e => inl e
  | inr cv =>
      match fit (text_vectoriser self) all_text with
      | inl e => inl e
      | inr tv =>
          inr {| min_word_freq := min_word_freq self;
                 max_vocab_size := max_vocab_size self;
                 code_vectoriser := cv;
                 text_vectoriser := tv |}
      end
  end.

Definition encode (v : CountVectorizer) (docs : list string) : list nat :=
  let vocab := default [] (vocabulary_ v) in
  match docs with
  | [] => repeat 0 (length vocab)
  | _ => transform_sum v vocab docs
  end.

Definition transform_to_bag_of_words_data (self : preprocessor)
    (e : processed_entry) : bag_of_words :=
  {| bow_question_code := encode (code_vectoriser self) (question_code e);
     bow_answer_code := encode (code_vectoriser self) (answer_code e);
     bow_question_text := encode (text_vectoriser self) (question_text e);
     bow_answer_text := encode (text_vectoriser self) (answer_text e) |}.

(** What a run leaves behind: the two vocabularies and the dataset. *)
Record output : Type := {
  code_vocabulary : option (list string);
  text_vocabulary : option (list string);
  bag_of_words_dataset : list bag_of_words
}.

(** [process_file] on the text of the input file. *)
Definition process_file (self : preprocessor) (raw : string)
  : list message * (exn + output) :=
  let '(log, loaded) := load_json_safely raw in
  (log,
   match loaded with
   | inl e => inl e
   | inr data =>
       match process_entries data with
       | inl e => inl e
       | inr processed_data =>
           match create_vocabulary self processed_data with
           | inl e => inl e
           | inr self' =>
               inr {| code_vocabulary := vocabulary_ (code_vectoriser self');
                      text_vocabulary := vocabulary_ (text_vectoriser self');
                      bag_of_words_dataset :=
                        map (transform_to_bag_of_words_data self')
                          processed_data |}
           end
       end
   end).

End WithLibraries.

End DataPreprocessor.

(* ===================================================================== *)
(** ** A small executable JSON reader *)
(* ===================================================================== *)

(** An instance of [PyLibs] to run the functions above on concrete text.
    [loads] follows [json.loads] on objects, arrays, strings with their
    escapes (code points below 256), numbers and the literals; the position
    of a syntax error is not tracked.  [unescape] knows the references
    [&amp; &lt; &gt; &quot;], and [argsort_stable] orders ties by index. *)
Module MiniJson.

Import Text.

Definition json_ws (c : ascii) : bool :=
  ch_eqb c " " || ch_eqb c (ascii_of_nat 9) || ch_eqb c (ascii_of_nat 10)
  || ch_eqb c (ascii_of_nat 13).

Fixpoint skip_ws (s : string) : string :=
  match s with
  | EmptyString => EmptyString
  | String c r => if json_ws c then skip_ws r else s
  end.

Definition is_digit (c : ascii) : bool :=
  let n := nat_of_ascii c in ((48 <=? n) && (n <=? 57))%nat.

Definition hex_value (c : ascii) : option nat :=
  let n := nat_of_ascii c in
  if ((48 <=? n) && (n <=? 57))%nat then Some (n - 48)
  else if ((65 <=? n) && (n <=? 70))%nat then Some (n - 55)
  else if ((97 <=? n) && (n <=? 102))%nat then Some (n - 87)
  else None.

Definition simple_escape (e : ascii) : option ascii :=
  if ch_eqb e dquote then Some dquote
  else if ch_eqb e backslash then Some backslash
  else if ch_eqb e "/" then Some "/"%char
  else if ch_eqb e "b" then Some (ascii_of_nat 8)
  else if ch_eqb e "f" then Some (ascii_of_nat 12)
  else if ch_eqb e "n" then Some (ascii_of_nat 10)
  else if ch_eqb e "r" then Some (ascii_of_nat 13)
  else if ch_eqb e "t" then Some (ascii_of_nat 9)
  else None.

(** The text of a string after its opening quote, and what follows the
    closing quote. *)
Fixpoint scan_string (s : string) : option (string * string) :=
  match s with
  | EmptyString => None
  | String c r =>
      if ch_eqb c dquote then Some (EmptyString, r)
      else if ch_eqb c backslash then
        match r with
        | String "u" (String h1 (String h2 (String h3 (String h4 r')))) =>
            a ← hex_value h1; b ← hex_value h2;
            c3 ← hex_value h3; d ← hex_value h4;
            let n := (((a * 16 + b) * 16 + c3) * 16 + d)%nat in
            if (n <? 256)%nat then
              '(t, rest) ← scan_string r';
              Some (String (ascii_of_nat n) t, rest)
            else None
        | String e r' =>
            ch ← simple_escape e;
            '(t, rest) ← scan_string r';
            Some (String ch t, rest)
        | EmptyString => None
        end
      else if (nat_of_ascii c <? 32)%nat then None
      else '(t, rest) ← scan_string r; Some (String c t, rest)
  end.

Definition take_digits (s : string) : string * string :=
  span_until (fun c => negb (is_digit c)) s.

(** The parts of a number: an optional minus, the integer part without
    leading zero, an optional fraction and an optional exponent; each gives
    what it read and the rest. *)
Definition scan_sign (s : string) : string * string :=
  match s with
  | String c r => if ch_eqb c "-" then ("-", r) else (EmptyString, s)
  | EmptyString => (EmptyString, s)
  end.

Definition scan_int (s : string) : option (string * string) :=
  match s with
  | String c r =>
      if ch_eqb c "0" then Some ("0", r)
      else
        let '(d, r') := take_digits s in
        match d with EmptyString => None | _ => Some (d, r') end
  | EmptyString => None
  end.

Definition scan_frac (s : string) : string * string :=
  match s with
  | String c r =>
      if ch_eqb c "." then
        let '(d, r') := take_digits r in
        match d with
        | EmptyString => (EmptyString, s)
        | _ => (String c d, r')
        end
      else (EmptyString, s)
  | EmptyString => (EmptyString, s)
  end.

Definition scan_exp (s : string) : string * string :=
  match s with
  | String e r =>
      if ch_eqb e "e" || ch_eqb e "E" then
        let '(sg, r1) :=
          match r with
          | String g r0 =>
              if ch_eqb g "+" || ch_eqb g "-"
              then (String g EmptyString, r0) else (EmptyString, r)
          | EmptyString => (EmptyString, r)
          end in
        let '(d, r2) := take_digits r1 in
        match d with
        | EmptyString => (EmptyString, s)
        | _ => (String e (sg +:+ d), r2)
        end
      else (EmptyString, s)
  | EmptyString => (EmptyString, s)
  end.

Definition scan_number (s : string) : option (string * string) :=
  let '(sign, s1) := scan_sign s in
  '(int, s2) ← scan_int s1;
  let '(frac, s3) := scan_frac s2 in
  let '(ex, s4) := scan_exp s3 in
  Some (sign +:+ int +:+ frac +:+ ex, s4).

Definition literals : list (string * json) :=
  [("true", JBool true); ("false", JBool false); ("null", JNull);
   ("NaN", JNum "NaN"); ("Infinity", JNum "Infinity");
   ("-Infinity", JNum "-Infinity")].

Fixpoint scan_literal (lits : list (string * json)) (s : string)
  : option (json * string) :=
  match lits with
  | [] => None
  | (nm, v) :: lits' =>
      match starts_with nm s with
      | Some rest => Some (v, rest)
      | None => scan_literal lits' s
      end
  end.

(** [d[k] = v]: a key that is there keeps its place. *)
Definition dict_set (k : string) (v : json) (d : pydict) : pydict :=
  if dict_has k d
  then map (fun kv => if String.eqb (fst kv) k then (k, v) else kv) d
  else d ++ [(k, v)].

(** The elements of an array after its opening bracket. *)
Fixpoint scan_items (fuel : nat) (value : string -> option (json * string))
    (acc : list json) (s : string) : option (list json * string) :=
  match fuel with
  | O => None
  | S fuel' =>
      '(v, r) ← value (skip_ws s);
      match skip_ws r with
      | String "," r' => scan_items fuel' value (acc ++ [v]) r'
      | String "]" r' => Some (acc ++ [v], r')
      | _ => None
      end
  end.

(** The members of an object after its opening brace. *)
Fixpoint scan_members (fuel : nat) (value : string -> option (json * string))
    (acc : pydict) (s : string) : option (pydict * string) :=
  match fuel with
  | O => None
  | S fuel' =>
      match skip_ws s with
      | String q r0 =>
          if ch_eqb q dquote then
            '(k, r1) ← scan_string r0;
            match skip_ws r1 with
            | String ":" r2 =>
                '(v, r3) ← value (skip_ws r2);
                match skip_ws r3 with
                | String "," r4 => scan_members fuel' value (dict_set k v acc) r4
                | String "}" r4 => Some (dict_set k v acc, r4)
                | _ => None
                end
            | _ => None
            end
          else None
      | EmptyString => None
      end
  end.

Fixpoint scan_value (fuel : nat) (s : string) : option (json * string) :=
  match fuel with
  | O => None
  | S fuel' =>
      match s with
      | EmptyString => None
      | String c r =>
          if ch_eqb c "[" then
            match skip_ws r with
            | String "]" r' => Some (JArr [], r')
            | _ =>
                '(l, r') ← scan_items fuel' (scan_value fuel') [] r;
                Some (JArr l, r')
            end
          else if ch_eqb c "{" then
            match skip_ws r with
            | String "}" r' => Some (JObj [], r')
            | _ =>
                '(d, r') ← scan_members fuel' (scan_value fuel') [] r;
                Some (JObj d, r')
            end
          else if ch_eqb c dquote then
            '(t, r') ← scan_string r; Some (JStr t, r')
          else
            match scan_literal literals s with
            | Some res => Some res
            | None => '(lex, r') ← scan_number s; Some (JNum lex, r')
            end
      end
  end.

Definition loads (s : string) : exn + json :=
  match scan_value (S (String.length s)) (skip_ws s) with
  | Some (v, rest) =>
      match skip_ws rest with
      | EmptyString => inr v
      | _ => inl (JSONDecodeError "Extra data" 0)
      end
  | None => inl (JSONDecodeError "Expecting value" 0)
  end.

Definition unescape (s : string) : string :=
  replace "&amp;" "&"
    (replace "&quot;" (String dquote EmptyString)
       (replace "&gt;" ">" (replace "&lt;" "<" s))).

Fixpoint insert_by (x : Z * nat) (l : list (Z * nat)) : list (Z * nat) :=
  match l with
  | [] => [x]
  | y :: r => if (fst x <=? fst y)%Z then x :: l else y :: insert_by x r
  end.

Definition argsort_stable (l : list Z) : list nat :=
  map snd (fold_right insert_by [] (combine l (seq 0 (length l)))).

#[export] Instance mini_libs : PyLibs :=
  {| json_loads := loads; html_unescape := unescape;
     argsort := argsort_stable |}.

End MiniJson.

(* ===================================================================== *)
(** ** The scrapers: what they write *)
(* ===================================================================== *)

Module Scraper.

(** [json_items] of [WebScraper/webscraper.py] and [CVScraper/scraper.py]. *)
Definition json_items (question answers : json) : pydict :=
  [("question", question); ("answers", answers)].

End Scraper.

(* ===================================================================== *)
(** ** Predicates the statements use *)
(* ===================================================================== *)

Module Shape.

Import JSONCombiner.

(** The question field is present and is a plain string. *)
Definition question_is_string (e : pydict) : Prop :=
  exists s, dict_get "question" e = Some (JStr s).

(** The question field is a wrapper object holding one string. *)
Definition question_is_wrapper (e : pydict) : Prop :=
  exists s, dict_get "question" e = Some (JObj [("content", JStr s)]).

(** A record without usable question: the field is absent, or it is neither
    a string nor a wrapper object with a [content] key. *)
Definition questionless (entry : pydict) : bool :=
  match dict_get "question" entry with
  | None => true
  | Some (JStr _) => false
  | Some (JObj d) => negb (dict_has "content" d)
  | Some _ => true
  end.

(** Only allowed tags, [href] alone on anchors, no attribute elsewhere. *)
Fixpoint well_cleaned (n : node) : bool :=
  match n with
  | Tag nm at_ ch =>
      existsb (String.eqb nm) allowed_tags
      && forallb (fun kv => String.eqb nm "a" && String.eqb (fst kv) "href") at_
      && forallb well_cleaned ch
  | _ => true
  end.

(** No element of the subtree carries the notice class. *)
Fixpoint no_notice (n : node) : bool :=
  match n with
  | Tag _ at_ ch => negb (has_class "js-post-notice" at_) && forallb no_notice ch
  | _ => true
  end.

(** [delete_notice soup soup']: [soup'] is [soup] without one element that
    carries the notice class, at any depth, and without all that stood
    inside that element. *)
Inductive delete_notice : list node -> list node -> Prop :=
| delete_here nm at_ ch before after :
    has_class "js-post-notice" at_ = true ->
    delete_notice (before ++ Tag nm at_ ch :: after) (before ++ after)
| delete_inside nm at_ ch ch' before after :
    delete_notice ch ch' ->
    delete_notice (before ++ Tag nm at_ ch :: after)
                  (before ++ Tag nm at_ ch' :: after).
(** The element is an object with a [question] field and an [answers]
    field that is an array. *)
Definition has_required_fields (e : json) : Prop :=
  exists d, e = JObj d
    /\ (exists q, dict_get "question" d = Some q)
    /\ (exists l, dict_get "answers" d = Some (JArr l)).

(** The indices, counted from [i], of the elements that fail validation. *)
Fixpoint invalid_indices (i : nat) (data : list json) : list nat :=
  match data with
  | [] => []
  | e :: r =>
      if DataPreprocessor.validate_json_entry e then invalid_indices (S i) r
      else i :: invalid_indices (S i) r
  end.

(** The indices the skip warnings of a log name. *)
Definition skipped (log : list DataPreprocessor.message) : list nat :=
  flat_map (fun m => match m with
                     | DataPreprocessor.SkipWarning i => [i]
                     | _ => []
                     end) log.

Fixpoint all_chars (p : ascii -> bool) (s : string) : bool :=
  match s with
  | EmptyString => true
  | String c r => p c && all_chars p r
  end.

(** A match of [[A-Za-z_][A-Za-z0-9_]*]. *)
Definition is_identifier (t : string) : bool :=
  match t with
  | String c r =>
      DataPreprocessor.ident_start c
      && all_chars DataPreprocessor.ident_char r
  | EmptyString => false
  end.

(** A match of [\S+] where the first alternative does not apply: one or
    more characters, none of them whitespace, the first one not the start
    of an identifier. *)
Definition is_run (t : string) : bool :=
  match t with
  | String c r =>
      negb (DataPreprocessor.ident_start c)
      && all_chars (fun x => negb (Text.isspace x)) t
  | EmptyString => false
  end.

(** A single character that is not whitespace. *)
Definition is_single (t : string) : bool :=
  match t with
  | String c EmptyString => negb (Text.isspace c)
  | _ => false
  end.

(** The text is empty or starts with a character that fails [p]. *)
Definition stops (p : ascii -> bool) (s : string) : Prop :=
  match s with
  | EmptyString => True
  | String c _ => p c = false
  end.

(** [tokenization doc toks]: [doc] is whitespace and the tokens [toks] in
    order, every token an identifier that no identifier character follows,
    or a run that ends at whitespace or at the end. *)
Inductive tokenization : string -> list string -> Prop :=
| tok_end : tokenization EmptyString []
| tok_space c s l :
    Text.isspace c = true -> tokenization s l ->
    tokenization (String c s) l
| tok_ident t s l :
    is_identifier t = true -> stops DataPreprocessor.ident_char s ->
    tokenization s l -> tokenization (t +:+ s) (t :: l)
| tok_run t s l :
    is_run t = true -> stops (fun x => negb (Text.isspace x)) s ->
    tokenization s l -> tokenization (t +:+ s) (t :: l).

Section WithLibraries.
Context `{Soup} `{MD5}.

(** The processed records of all the files, in the order they are read. *)
Definition all_processed (files : list (string * list pydict)) : list pydict :=
  flat_map (fun f => omap process_entry (snd f)) files.

(** How many records of [l] hash to [h]. *)
Definition count_hash (h : string) (l : list pydict) : nat :=
  length (List.filter (fun p => String.eqb (hash_entry p) h) l).

End WithLibraries.

End Shape.

(* ===================================================================== *)
(** ** Normal forms of text *)
(* ===================================================================== *)

Module Form.

Import Text.

(** Every whitespace character is a single space, no two of them are
    adjacent, and with [after_ws] the text does not start with one. *)
Fixpoint collapsed (after_ws : bool) (s : string) : bool :=
  match s with
  | EmptyString => true
  | String c r =>
      if isspace c
      then ch_eqb c " " && negb after_ws && collapsed true r
      else collapsed false r
  end.

Fixpoint ends_with_space (s : string) : bool :=
  match s with
  | EmptyString => false
  | String c EmptyString => isspace c
  | String _ r => ends_with_space r
  end.

(** The normal form of [re.sub(r'\s+', ' ', s).strip()]: no whitespace at
    either end, and inside only single spaces. *)
Definition squeezed (s : string) : bool :=
  collapsed true s && negb (ends_with_space s).

Fixpoint every (p : ascii -> bool) (s : string) : bool :=
  match s with
  | EmptyString => true
  | String c r => p c && every p r
  end.

(** The character [c] does not occur in [s]. *)
Definition lacks (c : ascii) (s : string) : bool :=
  every (fun x => negb (ch_eqb x c)) s.

(** Every [c] in [s] comes right after a backslash; [after] tells whether
    a backslash stands before [s]. *)
Fixpoint guarded (c : ascii) (after : bool) (s : string) : bool :=
  match s with
  | EmptyString => true
  | String x r =>
      (if ch_eqb x c then after else true) && guarded c (ch_eqb x backslash) r
  end.

(** Every character replaced by a text of its own. *)
Fixpoint expand (f : ascii -> string) (s : string) : string :=
  match s with
  | EmptyString => EmptyString
  | String c r => f c +:+ expand f r
  end.

(** The text one pass of [str.replace] puts for a character: [new] for
    the character [a], the character itself otherwise. *)
Definition pass (a : ascii) (new : string) (c : ascii) : string :=
  if ch_eqb a c then new else String c EmptyString.

(** The first character of [s] that is not whitespace. *)
Definition next_char (s : string) : option ascii :=
  DataPreprocessor.first_char (lstrip s).

(** No closing brace is followed, across whitespace only, by an opening
    brace. *)
Fixpoint gap_free (s : string) : bool :=
  match s with
  | EmptyString => true
  | String c r =>
      negb (ch_eqb c "}" && DataPreprocessor.is_char "{" (next_char r))
      && gap_free r
  end.

(** Neither a word character nor whitespace: an operator, a bracket, a
    quote, ... *)
Definition symbol (c : ascii) : bool :=
  negb (DataPreprocessor.is_word c) && negb (isspace c).

(** Two neighbours, of which a symbol has whitespace at its side. *)
Definition apart (d c : ascii) : bool :=
  (negb (symbol c) || isspace d) && (negb (symbol d) || isspace c).

(** Every symbol of [s] has whitespace or an end of the text on both
    sides; [prev] is the character before [s]. *)
Fixpoint spaced (prev : option ascii) (s : string) : bool :=
  match s with
  | EmptyString => true
  | String c r =>
      match prev with Some d => apart d c | None => true end
      && spaced (Some c) r
  end.

(** What the code channel should yield: an identifier, a run of word
    characters, or one character alone. *)
Definition code_token (t : string) : bool :=
  Shape.is_identifier t || every DataPreprocessor.is_word t
  || Shape.is_single t.

(** No comma is followed, across whitespace only, by a closing brace or
    bracket. *)
Fixpoint trailing_free (s : string) : bool :=
  match s with
  | EmptyString => true
  | String c r =>
      negb (ch_eqb c ","
            && (DataPreprocessor.is_char "}" (next_char r)
                || DataPreprocessor.is_char "]" (next_char r)))
      && trailing_free r
  end.

(** Not empty, and no whitespace at either end. *)
Definition trimmed (s : string) : bool :=
  match s with
  | EmptyString => false
  | String c _ => negb (isspace c)
  end && negb (ends_with_space s).

(** A lower-case letter, a digit, a period or a space. *)
Definition text_char (c : ascii) : bool :=
  let n := nat_of_ascii c in
  (((97 <=? n) && (n <=? 122)) || ((48 <=? n) && (n <=? 57))
   || (n =? 46) || (n =? 32))%nat.

(** The subtree holds elements and text only: no comment, doctype or other
    declaration. *)
Fixpoint elements_and_text (n : node) : bool :=
  match n with
  | Comment _ => false
  | Tag _ _ ch => forallb elements_and_text ch
  | NavigableString _ => true
  end.

(** How a tag of cleaned markup goes on after its [<]: the start tag of a
    [p], a [code] or an [a], the anchor without attribute or with [href]
    first, or one of their end tags. *)
Definition tag_openers : list string :=
  ["p>"; "code>"; "a>"; "a href="; "/p>"; "/code>"; "/a>"].

Definition opens_allowed (r : string) : bool :=
  existsb
    (fun p => match starts_with p r with Some _ => true | None => false end)
    tag_openers.

(** Every [<] of the text starts one of the tags above. *)
Fixpoint tags_allowed (s : string) : bool :=
  match s with
  | EmptyString => true
  | String c r =>
      (if ch_eqb c "<" then opens_allowed r else true) && tags_allowed r
  end.
End Form.

(* ===================================================================== *)
(** ** What deduplication should keep and report *)
(* ===================================================================== *)

Module Dedup.

Import JSONCombiner.

(** The [answers] field is absent or can be iterated. *)
Definition answers_iterable (entry : pydict) : bool :=
  match dict_get "answers" entry with
  | Some v => match py_iter v with Some _ => true | None => false end
  | None => true
  end.

Section WithLibraries.
Context `{Soup} `{MD5}.

(** Of the records with one hash, the first. *)
Fixpoint dedup_first (l : list pydict) : list pydict :=
  match l with
  | [] => []
  | p :: r =>
      p :: List.filter
             (fun q => negb (String.eqb (hash_entry q) (hash_entry p)))
             (dedup_first r)
  end.

(** The same, given the hashes seen before. *)
Fixpoint keep_first (seen : gset string) (l : list pydict) : list pydict :=
  match l with
  | [] => []
  | p :: r =>
      if decide (hash_entry p ∈ seen) then keep_first seen r
      else p :: keep_first ({[hash_entry p]} ∪ seen) r
  end.

(** The hashes of the records of [l]. *)
Definition hashes (l : list pydict) : gset string :=
  list_to_set (map hash_entry l).

(** The processed records of a file with their index and file. *)
Fixpoint numbered (file_path : string) (idx : nat) (data : list pydict)
  : list (pydict * (nat * string)) :=
  match data with
  | [] => []
  | e :: r =>
      match process_entry e with
      | Some p => [(p, (idx, file_path))]
      | None => []
      end ++ numbered file_path (S idx) r
  end.

Definition all_numbered (files : list (string * list pydict))
  : list (pydict * (nat * string)) :=
  flat_map (fun f => numbered (fst f) 0 (snd f)) files.

(** The records of [l] with hash [h]. *)
Definition with_hash (h : string) (l : list (pydict * (nat * string)))
  : list (pydict * (nat * string)) :=
  List.filter (fun x => String.eqb (hash_entry (fst x)) h) l.

(** Where the records with hash [h] were read, the first one left out. *)
Definition later_origins (h : string) (l : list (pydict * (nat * string)))
  : list (nat * string) :=
  map snd (tail (with_hash h l)).

End WithLibraries.

End Dedup.

(* ===================================================================== *)
(** ** JSON text *)
(* ===================================================================== *)

(** The grammar of JSON on text, as [json.loads] accepts it.  With
    [trailing] set, one comma may stand after the last element of an array
    and after the last member of an object. *)
Module JsonText.

Import Text.

Definition blank (s : string) : bool := Form.every MiniJson.json_ws s.

Definition plain_char (c : ascii) : bool :=
  negb (ch_eqb c dquote) && negb (ch_eqb c backslash)
  && (32 <=? nat_of_ascii c)%nat.

Definition escape_char (e : ascii) : bool :=
  match MiniJson.simple_escape e with Some _ => true | None => false end.

Definition hex_char (c : ascii) : bool :=
  match MiniJson.hex_value c with Some _ => true | None => false end.

(** The inside of a string literal. *)
Inductive str_body : string -> Prop :=
| body_end : str_body EmptyString
| body_char c r :
    plain_char c = true -> str_body r -> str_body (String c r)
| body_escape e r :
    escape_char e = true -> str_body r ->
    str_body (String backslash (String e r))
| body_unicode h1 h2 h3 h4 r :
    hex_char h1 = true -> hex_char h2 = true -> hex_char h3 = true ->
    hex_char h4 = true -> str_body r ->
    str_body
      (String backslash
         (String "u" (String h1 (String h2 (String h3 (String h4 r)))))).

Definition quoted (body : string) : string :=
  String dquote (body +:+ String dquote EmptyString).

(** The characters of numbers and literals. *)
Definition atom_char (c : ascii) : bool :=
  MiniJson.is_digit c || MiniSoup.is_letter c || ch_eqb c "-"
  || ch_eqb c "+" || ch_eqb c ".".

(** The closing brackets. *)
Definition closes (rest : string) : Prop :=
  Form.next_char rest = Some "]"%char \/ Form.next_char rest = Some "}"%char.

(** A number or one of the literals. *)
Definition is_atom (a : string) : bool :=
  match MiniJson.scan_literal MiniJson.literals a with
  | Some (_, EmptyString) => true
  | _ =>
      match MiniJson.scan_number a with
      | Some (_, EmptyString) => true
      | _ => false
      end
  end.

Inductive value (trailing : bool) : string -> Prop :=
| value_atom a : is_atom a = true -> value trailing a
| value_string body : str_body body -> value trailing (quoted body)
| value_empty_array w : blank w = true -> value trailing ("[" +:+ w +:+ "]")
| value_array n s : items trailing n s -> value trailing ("[" +:+ s +:+ "]")
| value_empty_object w : blank w = true -> value trailing ("{" +:+ w +:+ "}")
| value_object s : fields trailing s -> value trailing ("{" +:+ s +:+ "}")

(** A value with the whitespace around it. *)
with element (trailing : bool) : string -> Prop :=
| element_intro w1 v w2 :
    blank w1 = true -> value trailing v -> blank w2 = true ->
    element trailing (w1 +:+ v +:+ w2)

(** A key, a colon and an element. *)
with member (trailing : bool) : string -> Prop :=
| member_intro w1 k w2 e :
    blank w1 = true -> str_body k -> blank w2 = true -> element trailing e ->
    member trailing (w1 +:+ quoted k +:+ w2 +:+ ":" +:+ e)

(** [items trailing n s]: [s] is [n] elements separated by commas. *)
with items (trailing : bool) : nat -> string -> Prop :=
| items_last e : element trailing e -> items trailing 1 e
| items_trailing e w :
    trailing = true -> element trailing e -> blank w = true ->
    items trailing 1 (e +:+ "," +:+ w)
| items_more e n rest :
    element trailing e -> items trailing n rest ->
    items trailing (S n) (e +:+ "," +:+ rest)

with fields (trailing : bool) : string -> Prop :=
| fields_last m : member trailing m -> fields trailing m
| fields_trailing m w :
    trailing = true -> member trailing m -> blank w = true ->
    fields trailing (m +:+ "," +:+ w)
| fields_more m rest :
    member trailing m -> fields trailing rest ->
    fields trailing (m +:+ "," +:+ rest).

(** [array trailing n t]: the text [t] is an array of [n] elements. *)
Inductive array (trailing : bool) : nat -> string -> Prop :=
| array_empty w : blank w = true -> array trailing 0 ("[" +:+ w +:+ "]")
| array_items n s :
    items trailing n s -> array trailing n ("[" +:+ s +:+ "]").

(** An object. *)
Inductive object (trailing : bool) : string -> Prop :=
| object_empty w : blank w = true -> object trailing ("{" +:+ w +:+ "}")
| object_fields s : fields trailing s -> object trailing ("{" +:+ s +:+ "}").

(** [object_seq trailing n t]: [t] is [n] objects separated by commas,
    without brackets around them. *)
Inductive object_seq (trailing : bool) : nat -> string -> Prop :=
| seq_last o : object trailing o -> object_seq trailing 1 o
| seq_more o w1 w2 n rest :
    object trailing o -> blank w1 = true -> blank w2 = true ->
    object_seq trailing n rest ->
    object_seq trailing (S n) (o +:+ w1 +:+ "," +:+ w2 +:+ rest).

Scheme value_mut := Minimality for value Sort Prop
  with element_mut := Minimality for element Sort Prop
  with member_mut := Minimality for member Sort Prop
  with items_mut := Minimality for items Sort Prop
  with fields_mut := Minimality for fields Sort Prop.

Combined Scheme json_text_ind
  from value_mut, element_mut, member_mut, items_mut, fields_mut.

End JsonText.

(* ===================================================================== *)
(** ** Concrete inputs *)
(* ===================================================================== *)

Module Examples.

(** The two files of the end-to-end scenario: the same question, the second
    time with extra whitespace, and different answers. *)
Definition first_file : list pydict :=
  [[("question", JStr "<p>What is X?</p>");
    ("answers", JArr [JStr "<p>X is Y</p>"])]].

Definition second_file : list pydict :=
  [[("question", JStr "<p>  What   is X? </p>");
    ("answers", JArr [JStr "<p>X is Z</p>"])]].

Definition two_files : list (string * list pydict) :=
  [("first.json", first_file); ("second.json", second_file)].

(** A record whose question is a wrapper object. *)
Definition wrapped_record : pydict :=
  [("question", JObj [("content", JStr "<div><p id='q'>Why?</p></div>")]);
   ("answers", JArr [JStr "<p>Because.</p>"])].

(** Two records with one question and different answers. *)
Definition record_ab : pydict :=
  [("question", JStr "<p>Why?</p>"); ("answers", JArr [JStr "a"; JStr "b"])].

Definition record_baa : pydict :=
  [("answers", JArr [JStr "b"; JStr "a"; JStr "a"]);
   ("question", JStr "<p>Why?</p>")].

(** One question, once as a plain string and once inside a wrapper. *)
Definition plain_record : pydict :=
  [("question", JStr "<p>Why?</p>"); ("answers", JArr [JStr "a"])].

Definition wrapper_record : pydict :=
  [("question", JObj [("content", JStr "<p>Why?</p>")]);
   ("answers", JArr [JStr "b"])].

(** Records without usable question, spread over two files. *)
Definition questionless_files : list (string * list pydict) :=
  [("first.json",
    [[("answers", JArr [JStr "<p>one</p>"])];
     [("question", JStr "<p>Why?</p>"); ("answers", JArr [])];
     [("question", JNull); ("answers", JArr [JStr "two"])]]);
   ("second.json",
    [[("question", JObj [("body", JStr "<p>hidden</p>")]);
      ("answers", JArr [])]])].

(** Markup with a notice element in front, and the same without it. *)
Definition plain_markup : string :=
  "<p id='q'>see <a href='u' rel='nofollow'>this</a></p>".

Definition notice_markup : string :=
  "<div class='js-post-notice'><p>closed</p></div>" +:+ plain_markup.

(** A record whose answers are [null]. *)
Definition null_answers_record : pydict :=
  [("question", JStr "<p>Why?</p>"); ("answers", JNull)].

(** An entry that passes validation, and its text. *)
Definition valid_entry : json :=
  JObj [("question", JStr "q"); ("answers", JArr [])].

Definition valid_entry_text : string :=
  "{" +:+ JsonText.quoted "question" +:+ ":" +:+ JsonText.quoted "q" +:+ ","
  +:+ JsonText.quoted "answers" +:+ ":[]}".

(** A file with that entry alone, and one where an object without
    [answers] and a number follow it. *)
Definition one_element : string := "[" +:+ valid_entry_text +:+ "]".

Definition three_elements : string :=
  "[" +:+ valid_entry_text +:+ ",{" +:+ JsonText.quoted "question" +:+ ":"
  +:+ JsonText.quoted "q" +:+ "},7]".

Definition three_elements_loaded : list json :=
  [valid_entry; JObj [("question", JStr "q")]; JNum "7"].

(** The two texts of the repair scenario: an array with a stray comma, and
    two objects without the brackets around them. *)
Definition stray_comma : string := "[{" +:+ JsonText.quoted "a" +:+ ":1},]".

Definition object_text (question : string) : string :=
  "{" +:+ JsonText.quoted "question" +:+ ":" +:+ JsonText.quoted question
  +:+ "," +:+ JsonText.quoted "answers" +:+ ":[]}".

Definition two_objects : string := object_text "a" +:+ "," +:+ object_text "b".

(** A file with one entry that holds text and code. *)
Definition code_file : string :=
  "[{" +:+ JsonText.quoted "question" +:+ ":"
  +:+ JsonText.quoted "<p>How to add?</p><code>x = x + 1</code>" +:+ ","
  +:+ JsonText.quoted "answers" +:+ ":["
  +:+ JsonText.quoted "<p>Use this.</p><code>x += 1</code>" +:+ "]}]".

(** A file whose question holds a format string with two fields. *)
Definition braces_file : string := "[" +:+ object_text "f'{a}{b}'" +:+ "]".

End Examples.

(* ===================================================================== *)
(** * Theorems *)
(* ===================================================================== *)

Module TextFacts.

Import Text.

Lemma append_nil_l (t : string) : EmptyString +:+ t = t.
Proof. reflexivity. Qed.

Lemma append_cons (a : ascii) (s t : string) :
  String a s +:+ t = String a (s +:+ t).
Proof. reflexivity. Qed.

Lemma append_nil_r (s : string) : s +:+ EmptyString = s.
Proof.
  induction s as [|a s IH]; [reflexivity|]. now rewrite append_cons, IH.
Qed.

Lemma append_assoc (s t u : string) : (s +:+ t) +:+ u = s +:+ (t +:+ u).
Proof.
  induction s as [|a s IH]; [reflexivity|]. now rewrite !append_cons, IH.
Qed.

(** *** [re.sub(r'\s+', ' ', s).strip()] *)

Import Form.

Lemma sub_ws_collapsed (s : string) :
  forall b, collapsed b (sub_ws b s) = true.
Proof.
  induction s as [|c r IH]; intros b; simpl; [reflexivity|].
  destruct (isspace c) eqn:Hc.
  - destruct b; [apply IH|]. simpl. rewrite IH. reflexivity.
  - simpl. rewrite Hc. apply IH.
Qed.

Lemma collapsed_weaken (s : string) (b : bool) :
  collapsed b s = true -> collapsed false s = true.
Proof.
  destruct s as [|c r]; simpl; [reflexivity|].
  destruct (isspace c); [|auto].
  intros [[-> _]%andb_true_iff ->]%andb_true_iff. reflexivity.
Qed.

Lemma collapsed_fixed (s : string) :
  forall b, collapsed b s = true -> sub_ws b s = s.
Proof.
  induction s as [|c r IH]; intros b; simpl; [reflexivity|].
  destruct (isspace c) eqn:Hc.
  - intros [[Hsp Hb]%andb_true_iff Hr]%andb_true_iff.
    destruct b; [discriminate|]. rewrite (IH _ Hr).
    apply Ascii.eqb_eq in Hsp. now subst c.
  - intros Hr. now rewrite (IH _ Hr).
Qed.

Lemma lstrip_fixed (s : string) : collapsed true s = true -> lstrip s = s.
Proof.
  destruct s as [|c r]; simpl; [reflexivity|].
  destruct (isspace c); [|reflexivity].
  rewrite andb_false_r. discriminate.
Qed.

Lemma lstrip_collapsed (s : string) (b : bool) :
  collapsed b s = true -> collapsed true (lstrip s) = true.
Proof.
  destruct s as [|c r]; [reflexivity|]. cbn [collapsed lstrip].
  destruct (isspace c) eqn:Hc.
  - intros [_ Hr]%andb_true_iff. now rewrite (lstrip_fixed _ Hr).
  - intros Hr. cbn [collapsed]. now rewrite Hc.
Qed.

Lemma rstrip_cons (c : ascii) (r : string) :
  rstrip (String c r)
  = match rstrip r with
    | EmptyString => if isspace c then EmptyString else String c EmptyString
    | r' => String c r'
    end.
Proof. reflexivity. Qed.

Lemma rstrip_no_trailing (s : string) : ends_with_space (rstrip s) = false.
Proof.
  induction s as [|c r IH]; [reflexivity|]. rewrite rstrip_cons.
  destruct (rstrip r) as [|d r'] eqn:E.
  - destruct (isspace c) eqn:Hc; simpl; [reflexivity|exact Hc].
  - exact IH.
Qed.

Lemma rstrip_collapsed (s : string) :
  forall b, collapsed b s = true -> collapsed b (rstrip s) = true.
Proof.
  induction s as [|c r IH]; intros b; [reflexivity|]. rewrite rstrip_cons.
  cbn [collapsed]. destruct (isspace c) eqn:Hc.
  - intros [Hb Hr]%andb_true_iff. specialize (IH _ Hr).
    destruct (rstrip r) as [|d r'] eqn:E; [reflexivity|].
    cbn [collapsed]. rewrite Hc, Hb. exact IH.
  - intros Hr. specialize (IH _ Hr).
    destruct (rstrip r) as [|d r'] eqn:E.
    + simpl. now rewrite Hc.
    + cbn [collapsed]. rewrite Hc. exact IH.
Qed.

Lemma rstrip_fixed (s : string) : ends_with_space s = false -> rstrip s = s.
Proof.
  induction s as [|c r IH]; [reflexivity|]. rewrite rstrip_cons.
  destruct r as [|d r'].
  - simpl. now intros ->.
  - intros Hr. change (ends_with_space (String d r') = false) in Hr.
    rewrite (IH Hr). reflexivity.
Qed.

(** The result of the squeeze idiom is in normal form: no whitespace at the
    ends, single spaces inside. *)
Lemma squeeze_squeezed (s : string) : squeezed (squeeze s) = true.
Proof.
  unfold squeezed, squeeze, strip, collapse_ws.
  rewrite rstrip_no_trailing, andb_true_r.
  apply rstrip_collapsed. apply (lstrip_collapsed _ false).
  apply sub_ws_collapsed.
Qed.

(** A text in normal form is left as it is. *)
Lemma squeeze_fixed (s : string) : squeezed s = true -> squeeze s = s.
Proof.
  unfold squeezed, squeeze, strip, collapse_ws.
  intros [Hc He]%andb_true_iff. apply negb_true_iff in He.
  rewrite (collapsed_fixed _ false) by (eapply collapsed_weaken; exact Hc).
  rewrite (lstrip_fixed _ Hc). now apply rstrip_fixed.
Qed.

(** *** Prefixes *)

Lemma starts_with_eq (p r rest : string) :
  starts_with p r = Some rest -> r = p +:+ rest.
Proof.
  revert r. induction p as [|a p IH]; intros r; simpl.
  - now intros [= ->].
  - destruct r as [|b r]; [discriminate|].
    destruct (ch_eqb a b) eqn:E; [|discriminate].
    apply Ascii.eqb_eq in E. subst b. intros Hr.
    now rewrite append_cons, <- (IH _ Hr).
Qed.

Lemma starts_with_app (p rest : string) : starts_with p (p +:+ rest) = Some rest.
Proof.
  induction p as [|a p IH]; [reflexivity|].
  rewrite append_cons. cbn [starts_with]. unfold ch_eqb.
  now rewrite Ascii.eqb_refl.
Qed.

Lemma rstrip_prefix (p rest : string) :
  p <> EmptyString -> ends_with_space p = false ->
  rstrip (p +:+ rest) = p +:+ rstrip rest.
Proof.
  induction p as [|c p IH]; [congruence|]. intros _ He.
  rewrite append_cons, rstrip_cons. destruct p as [|d p].
  - rewrite append_nil_l. simpl in He. rewrite He.
    now destruct (rstrip rest).
  - rewrite IH; [|congruence|exact He]. now rewrite append_cons.
Qed.

Lemma concat_cons (x : string) (l : list string) :
  String.concat "" (x :: l) = x +:+ String.concat "" l.
Proof.
  destruct l as [|y l]; simpl.
  - now rewrite append_nil_r.
  - reflexivity.
Qed.

End TextFacts.

Module JSONCombinerFacts.

Import JSONCombiner Shape.

(** *** The three passes of [clean_html] on the document *)

Lemma forallb_flat_map {A B : Type} (p : B -> bool) (f : A -> list B)
    (l : list A) :
  Forall (fun x => forallb p (f x) = true) l ->
  forallb p (flat_map f l) = true.
Proof.
  induction 1 as [|x l Hx _ IH]; simpl; [reflexivity|].
  rewrite forallb_app, Hx, IH. reflexivity.
Qed.

Lemma forallb_map_Forall {A B : Type} (p : B -> bool) (f : A -> B)
    (l : list A) :
  Forall (fun x => p (f x) = true) l -> forallb p (map f l) = true.
Proof.
  induction 1 as [|x l Hx _ IH]; simpl; [reflexivity|].
  rewrite Hx, IH. reflexivity.
Qed.

Lemma allowed_attrs_sound (nm k : string) :
  existsb (String.eqb k) (allowed_attrs nm) = true ->
  String.eqb nm "a" && String.eqb k "href" = true.
Proof.
  unfold allowed_attrs. destruct (String.eqb nm "a"); simpl; [|discriminate].
  rewrite orb_false_r. auto.
Qed.

Lemma strip_attrs_kept (nm : string) (at_ : list (string * attr_value)) :
  forallb (fun kv => String.eqb nm "a" && String.eqb (fst kv) "href")
    (List.filter
       (fun kv => existsb (String.eqb (fst kv)) (allowed_attrs nm)) at_)
  = true.
Proof.
  apply forallb_forall. intros kv Hin. apply filter_In in Hin as [_ Hk].
  now apply allowed_attrs_sound.
Qed.

Lemma unwrap_strip_well_cleaned (n : node) :
  forallb well_cleaned (unwrap_disallowed (strip_attrs n)) = true.
Proof.
  induction n as [s|s|nm at_ ch IH] using node_forest_ind; try reflexivity.
  cbn [strip_attrs unwrap_disallowed].
  assert (Hch : forallb well_cleaned
                  (flat_map unwrap_disallowed (map strip_attrs ch)) = true).
  { apply forallb_flat_map. apply Forall_map. exact IH. }
  destruct (existsb (String.eqb nm) allowed_tags) eqn:Hnm; [|exact Hch].
  cbn [forallb well_cleaned]. rewrite Hnm, strip_attrs_kept, Hch. reflexivity.
Qed.

Lemma clean_soup_well_cleaned (soup : list node) :
  forallb well_cleaned (clean_soup soup) = true.
Proof.
  unfold clean_soup. apply forallb_flat_map. apply Forall_map.
  apply Forall_forall. intros n _. apply unwrap_strip_well_cleaned.
Qed.

Lemma decompose_notices_no_notice (n : node) :
  forallb no_notice (decompose_notices n) = true.
Proof.
  induction n as [s|s|nm at_ ch IH] using node_forest_ind; try reflexivity.
  cbn [decompose_notices].
  destruct (has_class "js-post-notice" at_) eqn:Hc; [reflexivity|].
  cbn [forallb no_notice]. rewrite Hc. simpl.
  rewrite (forallb_flat_map no_notice decompose_notices ch IH). reflexivity.
Qed.

Section WithLibraries.
Context `{Soup} `{MD5}.

Lemma record_entry_unique (file_path : string) (idx : nat) (p : pydict)
    (c c' : combiner) (kept : list pydict) :
  record_entry file_path idx p c = (c', kept) ->
  unique_entries c' = unique_entries c.
Proof.
  unfold record_entry. destruct (decide _); intros [= <- <-]; reflexivity.
Qed.

Lemma process_entries_unique (file_path : string) (data : list pydict) :
  forall idx c acc c' out,
    process_entries file_path idx data c acc = Some (c', out) ->
    unique_entries c' = unique_entries c.
Proof.
  induction data as [|entry rest IH]; intros idx c acc c' out; simpl.
  - intros [= <- <-]. reflexivity.
  - destruct (process_entry entry) as [p|]; simpl; [|discriminate].
    destruct (record_entry file_path idx p c) as [c1 kept] eqn:E.
    intros Hrest. rewrite (IH _ _ _ _ _ Hrest).
    eapply record_entry_unique; eauto.
Qed.

(** What the file loop returns as total is the number of entries it appended
    to [unique_entries]. *)
Lemma combine_loop_total (files : list (string * list pydict)) :
  forall i c total counts c' total' counts',
    combine_loop files i c total counts = Some (c', total', counts') ->
    total' + length (unique_entries c) = total + length (unique_entries c').
Proof.
  induction files as [|[path data] rest IH];
    intros i c total counts c' total' counts'; simpl.
  - intros [= <- <- <-]. reflexivity.
  - unfold process_file.
    destruct (process_entries path 0 data c []) as [[c1 entries]|] eqn:E;
      simpl; [|discriminate].
    intros Hrest. apply IH in Hrest. simpl in Hrest.
    rewrite (process_entries_unique _ _ _ _ _ _ _ E) in Hrest.
    rewrite length_app in Hrest. lia.
Qed.

(** X7.  On a fresh combiner [combine_files] always reports zero
    duplicates removed, and its total of original entries equals the number
    of unique entries: both statistics are taken from the entries that
    survived deduplication. *)
Lemma combine_files_reports_no_duplicates
    (files : list (string * list pydict)) (c : combiner) (st : stats) :
  combine_files files init = Some (c, st) ->
  duplicates_removed st = 0%Z
  /\ total_original_entries st = length (unique_entries c).
Proof.
  unfold combine_files.
  destruct (combine_loop files 0 init 0 ∅) as [[[c1 total] counts]|] eqn:E;
    simpl; [|discriminate].
  intros [= <- <-]. simpl.
  apply combine_loop_total in E. simpl in E. split; lia.
Qed.

Lemma dict_get_app (k : string) (d1 d2 : pydict) :
  dict_get k (d1 ++ d2) =
  match dict_get k d1 with Some v => Some v | None => dict_get k d2 end.
Proof.
  induction d1 as [|[k' v] d1 IH]; simpl; [reflexivity|].
  destruct (String.eqb k' k); auto.
Qed.

Lemma clean_answers_no_question (entry a : pydict) :
  clean_answers entry = Some a -> dict_get "question" a = None.
Proof.
  unfold clean_answers. destruct (dict_get "answers" entry) as [v|].
  - destruct (py_iter v); simpl; intros [= <-]; reflexivity.
  - intros [= <-]. reflexivity.
Qed.

(** The question of a processed record is the one [clean_question] built. *)
Lemma process_entry_question (entry p : pydict) :
  process_entry entry = Some p ->
  dict_get "question" p = dict_get "question" (clean_question entry).
Proof.
  unfold process_entry.
  destruct (clean_answers entry) as [a|] eqn:E; simpl; [|discriminate].
  intros [= <-]. rewrite dict_get_app.
  rewrite (clean_answers_no_question _ _ E).
  destruct (dict_get "question" (clean_question entry)); reflexivity.
Qed.

Lemma clean_question_congr (e1 e2 : pydict) :
  dict_get "question" e1 = dict_get "question" e2 ->
  clean_question e1 = clean_question e2.
Proof. unfold clean_question. intros ->. reflexivity. Qed.

Lemma hash_entry_congr (e1 e2 : pydict) :
  dict_get "question" e1 = dict_get "question" e2 ->
  hash_entry e1 = hash_entry e2.
Proof.
  unfold hash_entry, extract_question_content. intros ->. reflexivity.
Qed.

(** C8.  The dedup hash depends on the question field only: two records
    with the same question field get the same hash whatever their other
    fields are (answers reordered, duplicated, removed or different), both
    as raw records and after [process_file] has cleaned them. *)
Theorem hash_entry_ignores_answers (e1 e2 : pydict) :
  dict_get "question" e1 = dict_get "question" e2 ->
  hash_entry e1 = hash_entry e2
  /\ (forall p1 p2,
        process_entry e1 = Some p1 -> process_entry e2 = Some p2 ->
        hash_entry p1 = hash_entry p2).
Proof.
  intros Hq. split; [now apply hash_entry_congr|].
  intros p1 p2 H1 H2. apply hash_entry_congr.
  rewrite (process_entry_question _ _ H1), (process_entry_question _ _ H2).
  now rewrite (clean_question_congr _ _ Hq).
Qed.

(** C3, as the code has it.  The processed record keeps the shape of the
    question it was given: a plain string becomes the cleaned string, a
    wrapper object becomes a wrapper object whose [content] is the cleaned
    string (the empty string stands in for a missing [content]). *)
Theorem process_entry_question_shape (entry p : pydict) :
  process_entry entry = Some p ->
  (forall s, dict_get "question" entry = Some (JStr s) ->
     dict_get "question" p = Some (JStr (clean_html (JStr s))))
  /\ (forall d, dict_get "question" entry = Some (JObj d) ->
        dict_get "question" p =
        Some (JObj [("content",
                     JStr (clean_html
                             (default (JStr "") (dict_get "content" d))))])).
Proof.
  intros Hp. rewrite (process_entry_question _ _ Hp). unfold clean_question.
  split; intros ? ->; reflexivity.
Qed.

(** *** The bookkeeping of the duplicate check *)

Lemma count_hash_app (h : string) (l1 l2 : list pydict) :
  count_hash h (l1 ++ l2) = count_hash h l1 + count_hash h l2.
Proof. unfold count_hash. now rewrite List.filter_app, length_app. Qed.

(** The invariant of the loops: [kept] are the entries kept so far and
    [seen] all the processed entries so far.  A hash is in the set exactly
    when one kept entry has it, and every seen entry is either that kept
    entry or one line of the duplicate report for its hash. *)
Definition tally (c : combiner) (kept seen : list pydict) : Prop :=
  forall h : string,
    count_hash h kept = (if decide (h ∈ hash_set c) then 1 else 0)
    /\ count_hash h kept + length (default [] (duplicate_indices c !! h))
       = count_hash h seen.

Lemma tally_init : tally init [] [].
Proof. intros h. split; reflexivity. Qed.

Lemma count_hash_one (h : string) (p : pydict) :
  count_hash h [p] = if String.eqb (hash_entry p) h then 1 else 0.
Proof. unfold count_hash. simpl. now destruct (String.eqb _ _). Qed.

Lemma tally_record (file_path : string) (idx : nat) (p : pydict)
    (c c' : combiner) (out kept seen : list pydict) :
  record_entry file_path idx p c = (c', out) ->
  tally c kept seen -> tally c' (kept ++ out) (seen ++ [p]).
Proof.
  unfold record_entry. intros Hrec Ht h.
  destruct (Ht h) as [Hk Hs]. rewrite !count_hash_app, count_hash_one.
  destruct (decide (hash_entry p ∈ hash_set c)) as [Hin|Hout];
    injection Hrec as <- <-; cbn [hash_set duplicate_indices].
  - change (count_hash h []) with 0. rewrite Nat.add_0_r. split; [exact Hk|].
    destruct (String.eqb_spec (hash_entry p) h) as [->|Hne].
    + rewrite lookup_insert_eq. simpl. rewrite length_app. simpl. lia.
    + rewrite lookup_insert_ne by exact Hne. lia.
  - rewrite count_hash_one.
    destruct (String.eqb_spec (hash_entry p) h) as [Heq|Hne].
    + subst h. rewrite decide_False in Hk by exact Hout.
      rewrite decide_True by (apply elem_of_union_l, elem_of_singleton_2;
                              reflexivity).
      lia.
    + destruct (decide (h ∈ hash_set c)) as [Hh|Hh].
      * rewrite decide_True by (apply elem_of_union_r; exact Hh). lia.
      * rewrite decide_False; [lia|].
        intros [Hx|Hx]%elem_of_union; [|contradiction].
        apply elem_of_singleton_1 in Hx. congruence.
Qed.

Lemma tally_hash_set (c c' : combiner) (kept seen : list pydict) :
  hash_set c' = hash_set c -> duplicate_indices c' = duplicate_indices c ->
  tally c kept seen -> tally c' kept seen.
Proof. intros Hh Hd Ht h. rewrite Hh, Hd. apply Ht. Qed.

Lemma app_cons_snoc {A : Type} (l r : list A) (x : A) :
  l ++ x :: r = (l ++ [x]) ++ r.
Proof. now rewrite <- app_assoc. Qed.

Lemma tally_process_entries (file_path : string) (data : list pydict) :
  forall idx c acc c' out kept seen,
    process_entries file_path idx data c acc = Some (c', out) ->
    tally c (kept ++ acc) seen ->
    tally c' (kept ++ out) (seen ++ omap process_entry data).
Proof.
  induction data as [|entry rest IH]; intros idx c acc c' out kept seen; simpl.
  - intros [= <- <-]. now rewrite app_nil_r.
  - destruct (process_entry entry) as [p|]; simpl; [|discriminate].
    destruct (record_entry file_path idx p c) as [c1 o] eqn:E.
    intros Hrest Ht. rewrite app_cons_snoc. eapply IH; [exact Hrest|].
    rewrite app_assoc. eapply tally_record; eauto.
Qed.

Lemma tally_combine_loop (files : list (string * list pydict)) :
  forall i c total counts c' total' counts' seen,
    combine_loop files i c total counts = Some (c', total', counts') ->
    tally c (unique_entries c) seen ->
    tally c' (unique_entries c') (seen ++ all_processed files).
Proof.
  induction files as [|[path data] rest IH];
    intros i c total counts c' total' counts' seen; simpl.
  - intros [= <- <- <-]. now rewrite app_nil_r.
  - unfold process_file.
    destruct (process_entries path 0 data c []) as [[c1 entries]|] eqn:E;
      simpl; [|discriminate].
    intros Hrest Ht. rewrite app_assoc.
    eapply IH; [exact Hrest|]. cbn [unique_entries].
    apply (tally_hash_set c1); [reflexivity|reflexivity|].
    rewrite (process_entries_unique _ _ _ _ _ _ _ E).
    eapply tally_process_entries; [exact E|]. now rewrite app_nil_r.
Qed.

(** After [combine_files] on a fresh combiner, at most one kept entry has a
    given hash, and the kept entry and the lines of the duplicate report
    for that hash account for every record read with it. *)
Lemma combine_files_tally (files : list (string * list pydict))
    (c : combiner) (st : stats) (h : string) :
  combine_files files init = Some (c, st) ->
  count_hash h (unique_entries c) <= 1
  /\ count_hash h (unique_entries c)
     + length (default [] (stat_duplicate_indices st !! h))
     = count_hash h (all_processed files).
Proof.
  unfold combine_files.
  destruct (combine_loop files 0 init 0 ∅) as [[[c1 total] counts]|] eqn:E;
    simpl; [|discriminate].
  intros [= <- <-]. cbn [stat_duplicate_indices].
  destruct (tally_combine_loop _ _ _ _ _ _ _ _ [] E tally_init h) as [Hk Hs].
  split; [|exact Hs]. rewrite Hk. destruct (decide _); lia.
Qed.

(** *** Records without usable question *)

Section EmptyDocument.
Hypothesis parse_empty : html_parser "" = [].
Hypothesis str_empty : soup_str [] = "".

Lemma clean_html_empty : clean_html (JStr "") = "".
Proof.
  unfold clean_html. rewrite parse_empty. unfold clean_soup. simpl.
  rewrite str_empty. reflexivity.
Qed.

Lemma clean_question_content_empty : clean_question_content (JStr "") = "".
Proof.
  unfold clean_question_content. rewrite clean_html_empty, parse_empty.
  reflexivity.
Qed.

Lemma questionless_canonical (entry p : pydict) :
  questionless entry = true -> process_entry entry = Some p ->
  extract_question_content p = "".
Proof.
  intros Hq Hp. unfold extract_question_content.
  rewrite (process_entry_question _ _ Hp). unfold clean_question.
  unfold questionless, dict_has in Hq.
  destruct (dict_get "question" entry) as [[| | | |l|d]|]; try discriminate;
    cbn [dict_get default]; try apply clean_question_content_empty.
  destruct (dict_get "content" d); [discriminate|].
  simpl. fold (clean_html (JStr "")). rewrite clean_html_empty.
  apply clean_question_content_empty.
Qed.

(** C10.  A record whose question is absent, or is neither a string nor a
    wrapper object with a [content] key, canonicalises to the empty string
    and so hashes to the digest of the empty string; over the whole input
    at most one kept entry has that digest, and every other record read
    with it is a line of the duplicate report under that digest.  (The
    parser gives the empty document for the empty string, and the empty
    document serialises to the empty string.) *)
Theorem questionless_records_share_one_digest :
  (forall entry p,
     questionless entry = true -> process_entry entry = Some p ->
     extract_question_content p = ""
     /\ hash_entry p = md5_hexdigest "")
  /\ (forall files c st,
        combine_files files init = Some (c, st) ->
        count_hash (md5_hexdigest "") (unique_entries c) <= 1
        /\ count_hash (md5_hexdigest "") (unique_entries c)
           + length (default [] (stat_duplicate_indices st !! md5_hexdigest ""))
           = count_hash (md5_hexdigest "") (all_processed files)).
Proof.
  split.
  - intros entry p Hq Hp. pose proof (questionless_canonical _ _ Hq Hp) as E.
    split; [exact E|]. unfold hash_entry. now rewrite E.
  - intros files c st Hc. now apply combine_files_tally.
Qed.

End EmptyDocument.

End WithLibraries.

Import Examples MiniSoup Hashlib.

(** C1, on the scenario of the two files.  One entry is kept and its
    answer is the first file's; the statistics give the second file a count
    of 0, a total of 1 and 0 duplicates removed, although two records were
    read and one was dropped (the drop itself is in [duplicate_indices]). *)
Theorem combine_two_files_statistics :
  exists c st,
    combine_files two_files init = Some (c, st)
    /\ unique_entries c =
       [[("question", JStr "<p>What is X?</p>");
         ("answers", JArr [JStr "<p>X is Y</p>"])]]
    /\ duplicates_removed st = 0%Z
    /\ total_original_entries st = 1
    /\ original_file_counts st !! "first.json" = Some 1
    /\ original_file_counts st !! "second.json" = Some 0
    /\ stat_duplicate_indices st !! md5 "what is x?"
       = Some [(0, "second.json")].
Proof.
  eexists _, _. split; [vm_compute; reflexivity|].
  repeat split; vm_compute; reflexivity.
Qed.

Lemma hash_entry_ignores_answers_witness :
  hash_entry record_ab = hash_entry record_baa
  /\ (forall p1 p2,
        process_entry record_ab = Some p1 ->
        process_entry record_baa = Some p2 ->
        hash_entry p1 = hash_entry p2).
Proof.
  apply (hash_entry_ignores_answers record_ab record_baa). reflexivity.
Defined.

(** C3 fails on a wrapped question: the processed record still holds a
    wrapper object, not a string. *)
Lemma wrapped_question_stays_wrapped :
  exists p,
    process_entry wrapped_record = Some p
    /\ dict_get "question" p = Some (JObj [("content", JStr "<p>Why?</p>")])
    /\ ~ question_is_string p.
Proof.
  eexists. split; [vm_compute; reflexivity|].
  split; [reflexivity|]. intros [s Hs]. vm_compute in Hs. discriminate.
Qed.

Lemma process_entry_question_shape_witness :
  (forall s, dict_get "question" wrapped_record = Some (JStr s) ->
     dict_get "question"
       [("question", JObj [("content", JStr "<p>Why?</p>")]);
        ("answers", JArr [JStr "<p>Because.</p>"])]
     = Some (JStr (clean_html (JStr s))))
  /\ (forall d, dict_get "question" wrapped_record = Some (JObj d) ->
        dict_get "question"
          [("question", JObj [("content", JStr "<p>Why?</p>")]);
           ("answers", JArr [JStr "<p>Because.</p>"])]
        = Some (JObj [("content",
                       JStr (clean_html
                               (default (JStr "") (dict_get "content" d))))])).
Proof.
  apply (process_entry_question_shape wrapped_record). vm_compute. reflexivity.
Defined.

Lemma questionless_records_share_one_digest_witness :
  (forall p,
     process_entry [("question", JNull); ("answers", JArr [JStr "two"])]
     = Some p ->
     extract_question_content p = "" /\ hash_entry p = md5_hexdigest "")
  /\ exists c st,
       combine_files questionless_files init = Some (c, st)
       /\ count_hash (md5_hexdigest "") (unique_entries c) <= 1
       /\ count_hash (md5_hexdigest "") (unique_entries c)
          + length (default [] (stat_duplicate_indices st !! md5_hexdigest ""))
          = count_hash (md5_hexdigest "") (all_processed questionless_files).
Proof.
  destruct (@questionless_records_share_one_digest mini_soup hashlib_md5
              eq_refl eq_refl) as [Hone Hall].
  split.
  - intros p. apply Hone. reflexivity.
  - destruct (combine_files questionless_files init) as [[c st]|] eqn:E.
    + exists c, st. split; [reflexivity|]. now apply Hall.
    + exfalso. vm_compute in E. discriminate E.
Defined.

End JSONCombinerFacts.

Module DataPreprocessorFacts.

Import Text DataPreprocessor Shape.

(** *** The code tokeniser *)

Lemma append_snoc (cur r : string) (c : ascii) :
  (cur +:+ str1 c) +:+ r = cur +:+ String c r.
Proof. apply TextFacts.append_assoc. Qed.

Lemma all_chars_snoc (p : ascii -> bool) (s : string) (c : ascii) :
  all_chars p (s +:+ str1 c) = all_chars p s && p c.
Proof.
  induction s as [|a s IH].
  - simpl. now rewrite andb_true_r.
  - rewrite TextFacts.append_cons. simpl. now rewrite IH, andb_assoc.
Qed.

Lemma is_identifier_snoc (t : string) (c : ascii) :
  is_identifier t = true -> ident_char c = true ->
  is_identifier (t +:+ str1 c) = true.
Proof.
  destruct t as [|a t]; simpl; [discriminate|].
  intros [Ha Ht]%andb_true_iff Hc.
  now rewrite all_chars_snoc, Ha, Ht, Hc.
Qed.

Lemma is_run_snoc (t : string) (c : ascii) :
  is_run t = true -> isspace c = false -> is_run (t +:+ str1 c) = true.
Proof.
  destruct t as [|a t]; simpl; [discriminate|].
  intros [Ha [Hb Ht]%andb_true_iff]%andb_true_iff Hc.
  now rewrite all_chars_snoc, Ha, Hb, Ht, Hc.
Qed.

Lemma ident_start_char (c : ascii) :
  ident_start c = true -> ident_char c = true.
Proof. unfold ident_char. now intros ->. Qed.

(** The three entry points of the scan produce a tokenization of what they
    have read and what is left. *)
Lemma findall_code_tokenization (doc : string) :
  tokenization doc (findall_code Between EmptyString doc)
  /\ (forall cur, is_identifier cur = true ->
        tokenization (cur +:+ doc) (findall_code InIdent cur doc))
  /\ (forall cur, is_run cur = true ->
        tokenization (cur +:+ doc) (findall_code InRun cur doc)).
Proof.
  induction doc as [|c r (IHb & IHi & IHr)].
  - split; [constructor|]. split; intros cur Hc; simpl.
    + apply tok_ident; [exact Hc|exact I|constructor].
    + apply tok_run; [exact Hc|exact I|constructor].
  - assert (Hfresh : tokenization (String c r)
                       (if ident_start c then findall_code InIdent (str1 c) r
                        else if isspace c
                             then findall_code Between EmptyString r
                             else findall_code InRun (str1 c) r)).
    { destruct (ident_start c) eqn:Hs.
      - apply (IHi (str1 c)). simpl. now rewrite Hs.
      - destruct (isspace c) eqn:Hw.
        + now apply tok_space.
        + apply (IHr (str1 c)). simpl. now rewrite Hs, Hw. }
    split; [exact Hfresh|]. split; intros cur Hc; cbn [findall_code].
    + destruct (ident_char c) eqn:Hi.
      * rewrite <- append_snoc. apply IHi. now apply is_identifier_snoc.
      * apply tok_ident; [exact Hc|exact Hi|exact Hfresh].
    + destruct (isspace c) eqn:Hw.
      * apply tok_run; [exact Hc|simpl; now rewrite Hw|].
        now apply tok_space.
      * rewrite <- append_snoc. apply IHr. now apply is_run_snoc.
Qed.

(** C2, as the code has it.  The tokens of the code channel are, in order
    and separated by whitespace only, maximal identifiers
    [[A-Za-z_][A-Za-z0-9_]*] and maximal runs of characters that are not
    whitespace, a run starting where no identifier can start. *)
Theorem code_tokenizer_tokenization (doc : string) :
  tokenization doc (code_tokenizer doc).
Proof. apply findall_code_tokenization. Qed.

(** C2 fails on two equals signs: they come out as one token, which is
    neither an identifier nor a single character. *)
Lemma code_tokenizer_keeps_punctuation_runs :
  code_tokenizer "x == y" = ["x"; "=="; "y"]
  /\ is_identifier "==" = false /\ is_single "==" = false.
Proof. repeat split. Qed.

(** *** Validation of the loaded entries *)

Lemma validate_json_entry_spec (e : json) :
  validate_json_entry e = true <-> has_required_fields e.
Proof.
  unfold validate_json_entry, has_required_fields, dict_has. split.
  - destruct e as [| | | | |d]; try discriminate.
    destruct (dict_get "question" d) as [q|] eqn:Eq; [|discriminate].
    destruct (dict_get "answers" d) as [[| | | |l|]|] eqn:Ea;
      try discriminate.
    intros _. exists d. split; [reflexivity|]. split; eauto.
  - intros (d & -> & [q ->] & [l ->]). reflexivity.
Qed.

Lemma validate_entries_spec (data : list json) :
  forall i,
    validate_entries i data
    = (map SkipWarning (invalid_indices i data),
       List.filter validate_json_entry data).
Proof.
  induction data as [|e r IH]; intros i; simpl; [reflexivity|].
  rewrite IH. destruct (validate_json_entry e); reflexivity.
Qed.

Lemma skipped_warnings (l : list nat) : skipped (map SkipWarning l) = l.
Proof. induction l as [|i l IH]; simpl; [reflexivity|]. now rewrite IH. Qed.

Lemma skipped_app (l1 l2 : list message) :
  skipped (l1 ++ l2) = skipped l1 ++ skipped l2.
Proof. unfold skipped. apply flat_map_app. Qed.

Lemma invalid_indices_length (data : list json) :
  forall i,
    length (invalid_indices i data)
    + length (List.filter validate_json_entry data)
    = length data.
Proof.
  induction data as [|e r IH]; intros i; simpl; [reflexivity|].
  specialize (IH (S i)). destruct (validate_json_entry e); simpl; lia.
Qed.

(** The validation loop on an array [items]: the warnings name the indices
    of the elements that fail, and the elements that pass are returned in
    their order, unless there is none. *)
Lemma validate_loaded_spec (items : list json) :
  (forall e, validate_json_entry e = true <-> has_required_fields e)
  /\ skipped (fst (validate_loaded (JArr items))) = invalid_indices 0 items
  /\ length (skipped (fst (validate_loaded (JArr items))))
     + length (List.filter validate_json_entry items)
     = length items
  /\ snd (validate_loaded (JArr items))
     = match List.filter validate_json_entry items with
       | [] => inl (ValueError "No valid entries found in the JSON file")
       | kept => inr kept
       end.
Proof.
  split; [exact validate_json_entry_spec|].
  assert (Hs : skipped (fst (validate_loaded (JArr items)))
               = invalid_indices 0 items).
  { unfold validate_loaded. cbn [py_iter]. rewrite validate_entries_spec.
    destruct (List.filter validate_json_entry items); cbn [fst].
    - rewrite skipped_app, skipped_warnings. simpl. apply app_nil_r.
    - apply skipped_warnings. }
  split; [exact Hs|]. split.
  - rewrite Hs. apply invalid_indices_length.
  - unfold validate_loaded. cbn [py_iter]. rewrite validate_entries_spec.
    destruct (List.filter validate_json_entry items); reflexivity.
Qed.

Section WithLibraries.
Context `{PyLibs} `{Soup}.

(** [load_json_safely] is the validation above applied to what
    [json.loads] makes of the repaired text. *)
Lemma load_json_safely_parsed (raw : string) (data : json) :
  json_loads (snd (preprocess_file raw)) = inr data ->
  snd (load_json_safely raw) = snd (validate_loaded data)
  /\ skipped (fst (load_json_safely raw)) = skipped (fst (validate_loaded data)).
Proof.
  unfold load_json_safely, preprocess_file. cbn [snd]. intros ->.
  destruct (validate_loaded data) as [log result]. cbn [fst snd].
  split; [reflexivity|]. rewrite skipped_app. reflexivity.
Qed.

(** C4, as the code has it.  When [json.loads] makes the array [items] of
    the repaired text, [load_json_safely] keeps an element exactly when it
    is an object with a [question] field and an [answers] field that is an
    array; it returns the kept elements in their order, and raises "No valid
    entries found in the JSON file" exactly when none is kept.  For every
    dropped element it prints one warning that names the element's index:
    besides the two progress lines and the report of that error, nothing
    else is printed, and no count of the dropped elements is kept. *)
Theorem load_json_safely_validation (raw : string) (items : list json) :
  json_loads (snd (preprocess_file raw)) = inr (JArr items) ->
  (forall e, validate_json_entry e = true <-> has_required_fields e)
  /\ snd (load_json_safely raw)
     = match List.filter validate_json_entry items with
       | [] => inl (ValueError "No valid entries found in the JSON file")
       | kept => inr kept
       end
  /\ fst (load_json_safely raw)
     = [Info "Processing code blocks..."; Info "Fixing JSON structure..."]
       ++ map SkipWarning (invalid_indices 0 items)
       ++ match List.filter validate_json_entry items with
          | [] => [LoadError
                     (ValueError "No valid entries found in the JSON file")]
          | _ => []
          end.
Proof.
  intros Hload. split; [exact validate_json_entry_spec|].
  unfold load_json_safely, preprocess_file in *. cbn [snd] in Hload.
  rewrite Hload. unfold validate_loaded. cbn [py_iter].
  rewrite validate_entries_spec.
  destruct (List.filter validate_json_entry items); cbn [fst snd].
  - split; reflexivity.
  - split; [reflexivity|]. now rewrite app_nil_r.
Qed.

(** C9.  Two preprocessors built with different [min_word_freq] and the
    same [max_vocab_size] print the same, fail the same and produce the
    same vocabularies and the same bag-of-words vectors on every input. *)
Theorem min_word_freq_has_no_effect
    (min_word_freq1 min_word_freq2 max_vocab_size : nat) (raw : string) :
  process_file (new min_word_freq1 max_vocab_size) raw
  = process_file (new min_word_freq2 max_vocab_size) raw.
Proof.
  unfold process_file.
  destruct (load_json_safely raw) as [log [e|data]]; [reflexivity|].
  destruct (process_entries data) as [e|processed_data]; [reflexivity|].
  unfold create_vocabulary. cbn [new code_vectoriser text_vectoriser].
  destruct (fit _ _) as [e|cv]; [reflexivity|].
  destruct (fit _ _) as [e|tv]; reflexivity.
Qed.

(** The size of the vocabulary does count: [max_vocab_size] is handed to
    both vectorisers as [max_features], [min_word_freq] to neither. *)
Lemma new_vectorisers (min_word_freq max_vocab_size : nat) :
  max_features (code_vectoriser (new min_word_freq max_vocab_size))
  = max_vocab_size
  /\ max_features (text_vectoriser (new min_word_freq max_vocab_size))
     = max_vocab_size.
Proof. split; reflexivity. Qed.

End WithLibraries.

Lemma load_json_safely_validation_witness :
  (forall e, validate_json_entry e = true <-> has_required_fields e)
  /\ snd (@load_json_safely MiniJson.mini_libs Examples.three_elements)
     = match List.filter validate_json_entry Examples.three_elements_loaded
       with
       | [] => inl (ValueError "No valid entries found in the JSON file")
       | kept => inr kept
       end
  /\ fst (@load_json_safely MiniJson.mini_libs Examples.three_elements)
     = [Info "Processing code blocks..."; Info "Fixing JSON structure..."]
       ++ map SkipWarning (invalid_indices 0 Examples.three_elements_loaded)
       ++ match List.filter validate_json_entry Examples.three_elements_loaded
          with
          | [] => [LoadError
                     (ValueError "No valid entries found in the JSON file")]
          | _ => []
          end.
Proof.
  apply (@load_json_safely_validation MiniJson.mini_libs
           Examples.three_elements Examples.three_elements_loaded).
  vm_compute. reflexivity.
Defined.

(** C4 fails where it says the dropped elements are counted.  Of a file
    whose second and third elements are dropped the code returns the first
    element, as of the file that holds this element alone, and prints the
    two warnings with the indices 1 and 2: the number of dropped elements
    is neither returned nor printed. *)
Lemma dropped_elements_are_not_counted :
  @load_json_safely MiniJson.mini_libs Examples.three_elements
  = ([Info "Processing code blocks..."; Info "Fixing JSON structure...";
      SkipWarning 1; SkipWarning 2],
     inr [Examples.valid_entry])
  /\ snd (@load_json_safely MiniJson.mini_libs Examples.one_element)
     = inr [Examples.valid_entry].
Proof. split; vm_compute; reflexivity. Qed.

End DataPreprocessorFacts.

(* ===================================================================== *)
(** * Further properties of [JSONCombiner] *)
(* ===================================================================== *)

Module CombinerProps.

Import Text Form JSONCombiner Shape TextFacts JSONCombinerFacts.

(** *** The passes of [clean_html] reach a fixed point at once *)

Lemma flat_map_singleton {A : Type} (f : A -> list A) (l : list A) :
  Forall (fun x => f x = [x]) l -> flat_map f l = l.
Proof.
  induction 1 as [|x l Hx _ IH]; simpl; [reflexivity|]. now rewrite Hx, IH.
Qed.

Lemma map_fixed {A : Type} (f : A -> A) (l : list A) :
  Forall (fun x => f x = x) l -> map f l = l.
Proof.
  induction 1 as [|x l Hx _ IH]; simpl; [reflexivity|]. now rewrite Hx, IH.
Qed.

Lemma href_only_no_class (nm : string) (at_ : list (string * attr_value)) :
  forallb (fun kv => String.eqb nm "a" && String.eqb (fst kv) "href") at_
  = true ->
  has_class "js-post-notice" at_ = false.
Proof.
  intros Hall. unfold has_class, attr_get.
  assert (Hnone : List.find (fun kv => String.eqb (fst kv) "class") at_ = None).
  { induction at_ as [|[k v] r IH]; [reflexivity|]. simpl in *.
    apply andb_true_iff in Hall as [[_ Hk]%andb_true_iff Hr].
    apply String.eqb_eq in Hk. subst k. simpl. now apply IH. }
  now rewrite Hnone.
Qed.

Lemma href_only_kept (nm : string) (at_ : list (string * attr_value)) :
  forallb (fun kv => String.eqb nm "a" && String.eqb (fst kv) "href") at_
  = true ->
  List.filter (fun kv => existsb (String.eqb (fst kv)) (allowed_attrs nm)) at_
  = at_.
Proof.
  induction at_ as [|[k v] r IH]; [reflexivity|]. simpl.
  intros [[Ha Hk]%andb_true_iff Hr]%andb_true_iff.
  unfold allowed_attrs at 1. rewrite Ha. simpl.
  apply String.eqb_eq in Hk. subst k. simpl. now rewrite IH.
Qed.

Lemma well_cleaned_fixed (n : node) :
  well_cleaned n = true ->
  decompose_notices n = [n] /\ strip_attrs n = n /\ unwrap_disallowed n = [n].
Proof.
  induction n as [s|s|nm at_ ch IH] using node_forest_ind;
    [repeat split..|].
  cbn [well_cleaned]. intros [[Hnm Hat]%andb_true_iff Hch]%andb_true_iff.
  assert (Hall : Forall (fun n => decompose_notices n = [n]
                                  /\ strip_attrs n = n
                                  /\ unwrap_disallowed n = [n]) ch).
  { rewrite Forall_forall in IH |- *. intros x Hx. apply IH; [exact Hx|].
    rewrite forallb_forall in Hch. apply Hch. now apply list_elem_of_In. }
  cbn [decompose_notices strip_attrs unwrap_disallowed].
  rewrite (href_only_no_class _ _ Hat), (href_only_kept _ _ Hat), Hnm.
  rewrite (flat_map_singleton decompose_notices),
    (flat_map_singleton unwrap_disallowed), (map_fixed strip_attrs);
    [repeat split| | |]; eapply Forall_impl; try exact Hall; simpl; tauto.
Qed.

Lemma clean_soup_fixed (soup : list node) :
  forallb well_cleaned soup = true -> clean_soup soup = soup.
Proof.
  intros Hall. unfold clean_soup.
  assert (H : Forall (fun n => decompose_notices n = [n]
                               /\ strip_attrs n = n
                               /\ unwrap_disallowed n = [n]) soup).
  { apply Forall_forall. intros x Hx. apply well_cleaned_fixed.
    rewrite forallb_forall in Hall. apply Hall. now apply list_elem_of_In. }
  rewrite (flat_map_singleton decompose_notices),
    (map_fixed strip_attrs), (flat_map_singleton unwrap_disallowed);
    [reflexivity| | |]; eapply Forall_impl; try exact H; simpl; tauto.
Qed.

(** X1.  The three passes of [clean_html] (notice removal, attribute
    stripping, unwrapping) are idempotent on every parsed document: applied
    to their own result they change nothing. *)
Theorem clean_soup_idempotent (soup : list node) :
  clean_soup (clean_soup soup) = clean_soup soup.
Proof. apply clean_soup_fixed, clean_soup_well_cleaned. Qed.

Section WithLibraries.
Context `{Soup} `{MD5}.

Import Dedup.

(** *** Which entries are kept *)

Lemma record_entry_kept (file_path : string) (idx : nat) (p : pydict)
    (c c' : combiner) (kept : list pydict) :
  record_entry file_path idx p c = (c', kept) ->
  kept = (if decide (hash_entry p ∈ hash_set c) then [] else [p])
  /\ hash_set c' = {[hash_entry p]} ∪ hash_set c.
Proof.
  unfold record_entry. destruct (decide _) as [Hin|Hout];
    intros [= <- <-]; cbn [hash_set]; split; try reflexivity.
  set_solver.
Qed.

Lemma process_entries_kept (file_path : string) (data : list pydict) :
  forall idx c acc c' out,
    process_entries file_path idx data c acc = Some (c', out) ->
    out = acc ++ keep_first (hash_set c) (omap process_entry data)
    /\ hash_set c' = hashes (omap process_entry data) ∪ hash_set c.
Proof.
  induction data as [|entry rest IH]; intros idx c acc c' out; simpl.
  - intros [= <- <-]. rewrite app_nil_r. split; [reflexivity|].
    unfold hashes. simpl. set_solver.
  - destruct (process_entry entry) as [p|]; simpl; [|discriminate].
    destruct (record_entry file_path idx p c) as [c1 kept] eqn:E.
    apply record_entry_kept in E as [-> Hh]. intros Hrest.
    apply IH in Hrest as [-> ->]. rewrite Hh. unfold hashes. simpl.
    split; [|set_solver].
    destruct (decide (hash_entry p ∈ hash_set c)) as [Hin|Hout].
    + rewrite app_nil_r. do 2 f_equal. set_solver.
    + now rewrite <- app_assoc.
Qed.

Lemma keep_first_app (l1 l2 : list pydict) :
  forall seen,
    keep_first seen (l1 ++ l2)
    = keep_first seen l1 ++ keep_first (hashes l1 ∪ seen) l2.
Proof.
  induction l1 as [|p r IH]; intros seen; simpl.
  - f_equal. unfold hashes. simpl. set_solver.
  - unfold hashes. simpl. destruct (decide (hash_entry p ∈ seen)) as [Hin|Hout].
    + rewrite IH. do 2 f_equal. unfold hashes. set_solver.
    + simpl. rewrite IH. do 3 f_equal. unfold hashes. set_solver.
Qed.

Lemma combine_loop_kept (files : list (string * list pydict)) :
  forall i c total counts c' total' counts',
    combine_loop files i c total counts = Some (c', total', counts') ->
    unique_entries c'
    = unique_entries c ++ keep_first (hash_set c) (all_processed files).
Proof.
  induction files as [|[path data] rest IH];
    intros i c total counts c' total' counts'; simpl.
  - intros [= <- <- <-]. now rewrite app_nil_r.
  - unfold process_file.
    destruct (process_entries path 0 data c []) as [[c1 entries]|] eqn:E;
      simpl; [|discriminate].
    intros Hrest. apply IH in Hrest. cbn [unique_entries hash_set] in Hrest.
    rewrite Hrest, (process_entries_unique _ _ _ _ _ _ _ E).
    apply process_entries_kept in E as [-> ->]. simpl.
    now rewrite keep_first_app, app_assoc.
Qed.

Lemma filter_filter_and {A : Type} (f g : A -> bool) (l : list A) :
  List.filter f (List.filter g l) = List.filter (fun x => g x && f x) l.
Proof.
  induction l as [|x l IH]; simpl; [reflexivity|].
  destruct (g x); simpl; [destruct (f x)|]; now rewrite IH.
Qed.

Lemma filter_ext_all {A : Type} (f g : A -> bool) (l : list A) :
  (forall x, f x = g x) -> List.filter f l = List.filter g l.
Proof.
  intros Hfg. induction l as [|x l IH]; simpl; [reflexivity|].
  now rewrite Hfg, IH.
Qed.

Lemma keep_first_dedup (l : list pydict) :
  forall seen,
    keep_first seen l
    = List.filter (fun q => bool_decide (hash_entry q ∉ seen)) (dedup_first l).
Proof.
  induction l as [|p r IH]; intros seen; simpl; [reflexivity|].
  rewrite filter_filter_and.
  destruct (decide (hash_entry p ∈ seen)) as [Hin|Hout].
  - rewrite bool_decide_eq_false_2 by (intros Hn; now apply Hn).
    rewrite IH. apply filter_ext_all. intros q.
    destruct (String.eqb_spec (hash_entry q) (hash_entry p)) as [->|Hne];
      simpl; [|reflexivity].
    apply bool_decide_eq_false_2. intros Hn. now apply Hn.
  - rewrite bool_decide_eq_true_2 by exact Hout. f_equal.
    rewrite IH. apply filter_ext_all. intros q.
    destruct (String.eqb_spec (hash_entry q) (hash_entry p)) as [->|Hne];
      simpl.
    + apply bool_decide_eq_false_2. set_solver.
    + apply bool_decide_ext. set_solver.
Qed.

Lemma filter_all_true {A : Type} (f : A -> bool) (l : list A) :
  (forall x, f x = true) -> List.filter f l = l.
Proof.
  intros Hf. induction l as [|x l IH]; simpl; [reflexivity|].
  now rewrite Hf, IH.
Qed.

(** X2.  On a fresh combiner [combine_files] keeps, of the records that
    share a question hash, the one read first and none of the later ones,
    in reading order across all the files. *)
Theorem combine_files_keeps_first (files : list (string * list pydict))
    (c : combiner) (st : stats) :
  combine_files files init = Some (c, st) ->
  unique_entries c = dedup_first (all_processed files).
Proof.
  unfold combine_files.
  destruct (combine_loop files 0 init 0 ∅) as [[[c1 total] counts]|] eqn:E;
    simpl; [|discriminate].
  intros [= <- <-]. apply combine_loop_kept in E. simpl in E.
  rewrite E, keep_first_dedup. apply filter_all_true.
  intros q. apply bool_decide_eq_true_2. set_solver.
Qed.

(** *** What the duplicate report lists *)

(** The invariant of the loops: [seen] are the records read so far, with
    their origins.  The report lists under each hash the origins of all the
    records with that hash but the first, and the hash is in the set from
    the first record on. *)
Definition lines (c : combiner) (seen : list (pydict * (nat * string)))
  : Prop :=
  forall h : string,
    default [] (duplicate_indices c !! h) = later_origins h seen
    /\ (h ∈ hash_set c <-> with_hash h seen <> []).

Lemma lines_init : lines init [].
Proof.
  intros h. split; [reflexivity|]. simpl. split; [set_solver|].
  intros Hn. now contradiction Hn.
Qed.

Lemma with_hash_snoc (h : string) (l : list (pydict * (nat * string)))
    (x : pydict * (nat * string)) :
  with_hash h (l ++ [x])
  = with_hash h l ++ (if String.eqb (hash_entry (fst x)) h then [x] else []).
Proof.
  unfold with_hash. rewrite List.filter_app. simpl.
  now destruct (String.eqb _ _).
Qed.

Lemma tail_snoc {A : Type} (l : list A) (x : A) :
  l <> [] -> tail (l ++ [x]) = tail l ++ [x].
Proof. destruct l; [congruence|reflexivity]. Qed.

Lemma lines_record (file_path : string) (idx : nat) (p : pydict)
    (c c' : combiner) (kept : list pydict)
    (seen : list (pydict * (nat * string))) :
  record_entry file_path idx p c = (c', kept) ->
  lines c seen -> lines c' (seen ++ [(p, (idx, file_path))]).
Proof.
  unfold record_entry. intros Hrec Hl h. destruct (Hl h) as [Hd Hs].
  unfold later_origins. rewrite with_hash_snoc. cbn [fst].
  destruct (decide (hash_entry p ∈ hash_set c)) as [Hin|Hout];
    injection Hrec as <- <-; cbn [hash_set duplicate_indices].
  - destruct (String.eqb_spec (hash_entry p) h) as [Heq|Hne].
    + subst h. rewrite lookup_insert_eq. simpl.
      apply Hs in Hin. rewrite (tail_snoc _ _ Hin), map_app, Hd.
      split; [reflexivity|]. split; [|tauto].
      intros _ Hnil. now apply app_eq_nil in Hnil as [_ Hnil].
    + rewrite lookup_insert_ne by exact Hne. rewrite app_nil_r.
      split; [exact Hd|exact Hs].
  - destruct (String.eqb_spec (hash_entry p) h) as [Heq|Hne].
    + subst h.
      assert (Hw : with_hash (hash_entry p) seen = []).
      { destruct (with_hash (hash_entry p) seen) eqn:E; [reflexivity|].
        exfalso. apply Hout, Hs. congruence. }
      rewrite Hd. unfold later_origins. rewrite Hw. simpl.
      split; [reflexivity|]. split; [congruence|set_solver].
    + rewrite app_nil_r. split; [exact Hd|].
      rewrite <- Hs. set_solver.
Qed.

Lemma lines_process_entries (file_path : string) (data : list pydict) :
  forall idx c acc c' out seen,
    process_entries file_path idx data c acc = Some (c', out) ->
    lines c seen -> lines c' (seen ++ numbered file_path idx data).
Proof.
  induction data as [|entry rest IH]; intros idx c acc c' out seen; simpl.
  - intros [= <- <-]. now rewrite app_nil_r.
  - destruct (process_entry entry) as [p|]; simpl; [|discriminate].
    destruct (record_entry file_path idx p c) as [c1 kept] eqn:E.
    intros Hrest Hl. rewrite app_cons_snoc. eapply IH; [exact Hrest|].
    eapply lines_record; eauto.
Qed.

Lemma lines_combine_loop (files : list (string * list pydict)) :
  forall i c total counts c' total' counts' seen,
    combine_loop files i c total counts = Some (c', total', counts') ->
    lines c seen -> lines c' (seen ++ all_numbered files).
Proof.
  induction files as [|[path data] rest IH];
    intros i c total counts c' total' counts' seen; simpl.
  - intros [= <- <- <-]. now rewrite app_nil_r.
  - unfold process_file.
    destruct (process_entries path 0 data c []) as [[c1 entries]|] eqn:E;
      simpl; [|discriminate].
    intros Hrest Hl. rewrite app_assoc. eapply IH; [exact Hrest|].
    intros h. cbn [duplicate_indices hash_set].
    now apply (lines_process_entries _ _ _ _ _ _ _ _ E Hl).
Qed.

(** X3.  On a fresh combiner the duplicate report of [combine_files] lists,
    under every hash, the index and file of each record read with that
    hash except the first one, in reading order (and nothing for a hash
    read at most once). *)
Theorem combine_files_report (files : list (string * list pydict))
    (c : combiner) (st : stats) :
  combine_files files init = Some (c, st) ->
  forall h,
    default [] (stat_duplicate_indices st !! h)
    = later_origins h (all_numbered files).
Proof.
  unfold combine_files.
  destruct (combine_loop files 0 init 0 ∅) as [[[c1 total] counts]|] eqn:E;
    simpl; [|discriminate].
  intros [= <- <-] h. cbn [stat_duplicate_indices].
  now destruct (lines_combine_loop _ _ _ _ _ _ _ _ [] E lines_init h).
Qed.

(** *** When [combine_files] returns *)

Lemma process_entry_raises (entry : pydict) :
  answers_iterable entry = false -> process_entry entry = None.
Proof.
  unfold process_entry, clean_answers, answers_iterable.
  destruct (dict_get "answers" entry) as [v|]; [|discriminate].
  destruct (py_iter v); [discriminate|reflexivity].
Qed.

Lemma process_entries_raises (file_path : string) (data : list pydict)
    (entry : pydict) :
  In entry data -> answers_iterable entry = false ->
  forall idx c acc, process_entries file_path idx data c acc = None.
Proof.
  intros Hin He. induction data as [|e rest IH]; [destruct Hin|].
  intros idx c acc. cbn [process_entries].
  destruct Hin as [->|Hin].
  - now rewrite (process_entry_raises _ He).
  - destruct (process_entry e) as [p|]; [|reflexivity]. cbn.
    destruct (record_entry file_path idx p c) as [c1 kept]. now apply IH.
Qed.

Lemma combine_loop_raises (files : list (string * list pydict))
    (f : string * list pydict) (entry : pydict) :
  In f files -> In entry (snd f) -> answers_iterable entry = false ->
  forall i c total counts, combine_loop files i c total counts = None.
Proof.
  intros Hf Hin He. induction files as [|[path data] rest IH]; [destruct Hf|].
  intros i c total counts. cbn [combine_loop]. unfold process_file.
  destruct Hf as [<-|Hf].
  - now rewrite (process_entries_raises path data entry Hin He).
  - destruct (process_entries path 0 data c []) as [[c1 entries]|];
      [|reflexivity].
    cbn. now apply IH.
Qed.

(** X4.  If in some record of some file the [answers] field is a number, a
    boolean or null, [combine_files] does not return: iterating that field
    raises [TypeError], and nothing catches it (an earlier record may have
    stopped the run before). *)
Theorem combine_files_raises (files : list (string * list pydict))
    (f : string * list pydict) (entry : pydict) (c : combiner) :
  In f files -> In entry (snd f) -> answers_iterable entry = false ->
  combine_files files c = None.
Proof.
  intros Hf Hin He. unfold combine_files.
  now rewrite (combine_loop_raises files f entry Hf Hin He).
Qed.

(** *** The two shapes of a question *)

(** X5.  A record whose question is a wrapper object around a string and a
    record whose question is that string itself get the same hash, raw and
    after cleaning: deduplication treats them as the same question. *)
Theorem wrapper_and_plain_question_collide (s : string) (d : pydict)
    (e1 e2 p1 p2 : pydict) :
  dict_get "question" e1 = Some (JStr s) ->
  dict_get "question" e2 = Some (JObj d) ->
  dict_get "content" d = Some (JStr s) ->
  process_entry e1 = Some p1 -> process_entry e2 = Some p2 ->
  hash_entry e1 = hash_entry e2 /\ hash_entry p1 = hash_entry p2.
Proof.
  intros H1 H2 Hd Hp1 Hp2. split.
  - unfold hash_entry, extract_question_content. rewrite H1, H2. simpl.
    now rewrite Hd.
  - unfold hash_entry, extract_question_content.
    rewrite (process_entry_question _ _ Hp1), (process_entry_question _ _ Hp2).
    unfold clean_question. rewrite H1, H2. simpl. now rewrite Hd.
Qed.

(** *** The text that comes out *)

(** X6.  Whatever it is given, [clean_html] returns text in the normal form
    of its last step: no whitespace at either end and only single spaces
    inside, so squeezing it again changes nothing. *)
Theorem clean_html_squeezed (html_content : json) :
  squeezed (clean_html html_content) = true
  /\ squeeze (clean_html html_content) = clean_html html_content.
Proof.
  assert (Hs : squeezed (clean_html html_content) = true).
  { destruct html_content; try reflexivity. apply squeeze_squeezed. }
  split; [exact Hs|]. now apply squeeze_fixed.
Qed.

Lemma lower_char_class (c : ascii) :
  lower_char (lower_char c) = lower_char c
  /\ isspace (lower_char c) = isspace c
  /\ ch_eqb (lower_char c) " " = ch_eqb c " ".
Proof. destruct c as [[] [] [] [] [] [] [] []]; vm_compute; auto. Qed.

Lemma lower_idempotent (s : string) : lower (lower s) = lower s.
Proof.
  induction s as [|c r IH]; simpl; [reflexivity|].
  rewrite IH. f_equal. apply lower_char_class.
Qed.

Lemma lower_collapsed (s : string) :
  forall b, collapsed b (lower s) = collapsed b s.
Proof.
  induction s as [|c r IH]; intros b; [reflexivity|]. cbn [lower collapsed].
  destruct (lower_char_class c) as (_ & -> & ->). now rewrite !IH.
Qed.

Lemma lower_ends_with_space (s : string) :
  ends_with_space (lower s) = ends_with_space s.
Proof.
  induction s as [|c r IH]; [reflexivity|]. cbn [lower].
  destruct r as [|d r'].
  - cbn [lower ends_with_space]. apply lower_char_class.
  - change (ends_with_space (lower (String d r'))
            = ends_with_space (String d r')). exact IH.
Qed.

(** X18.  The canonical question text [clean_question_content] returns is
    in lower case, has no whitespace at either end and only single spaces
    inside; lower-casing it again changes nothing. *)
Theorem clean_question_content_form (question_content : json) :
  squeezed (clean_question_content question_content) = true
  /\ lower (clean_question_content question_content)
     = clean_question_content question_content.
Proof.
  unfold clean_question_content. split; [|apply lower_idempotent].
  unfold squeezed. rewrite lower_collapsed, lower_ends_with_space.
  apply squeeze_squeezed.
Qed.

End WithLibraries.

Import Examples MiniSoup Hashlib Dedup.

Lemma combine_files_keeps_first_witness :
  exists c st,
    combine_files two_files init = Some (c, st)
    /\ unique_entries c = dedup_first (all_processed two_files).
Proof.
  destruct (combine_files two_files init) as [[c st]|] eqn:E.
  - exists c, st. split; [reflexivity|].
    exact (combine_files_keeps_first two_files c st E).
  - exfalso. vm_compute in E. discriminate E.
Defined.

Lemma combine_files_report_witness :
  exists c st,
    combine_files questionless_files init = Some (c, st)
    /\ forall h,
         default [] (stat_duplicate_indices st !! h)
         = later_origins h (all_numbered questionless_files).
Proof.
  destruct (combine_files questionless_files init) as [[c st]|] eqn:E.
  - exists c, st. split; [reflexivity|].
    exact (combine_files_report questionless_files c st E).
  - exfalso. vm_compute in E. discriminate E.
Defined.

Lemma combine_files_reports_no_duplicates_witness :
  exists c st,
    combine_files two_files init = Some (c, st)
    /\ duplicates_removed st = 0%Z
    /\ total_original_entries st = length (unique_entries c).
Proof.
  destruct (combine_files two_files init) as [[c st]|] eqn:E.
  - exists c, st. split; [reflexivity|].
    exact (combine_files_reports_no_duplicates two_files c st E).
  - exfalso. vm_compute in E. discriminate E.
Defined.

Lemma combine_files_raises_witness :
  combine_files [("first.json", [plain_record; null_answers_record])] init
  = None.
Proof.
  apply (combine_files_raises
           [("first.json", [plain_record; null_answers_record])]
           ("first.json", [plain_record; null_answers_record])
           null_answers_record init).
  - left. reflexivity.
  - right. left. reflexivity.
  - reflexivity.
Defined.

Lemma wrapper_and_plain_question_collide_witness :
  exists p1 p2,
    process_entry plain_record = Some p1
    /\ process_entry wrapper_record = Some p2
    /\ hash_entry plain_record = hash_entry wrapper_record
    /\ hash_entry p1 = hash_entry p2.
Proof.
  destruct (process_entry plain_record) as [p1|] eqn:E1;
    [|exfalso; vm_compute in E1; discriminate E1].
  destruct (process_entry wrapper_record) as [p2|] eqn:E2;
    [|exfalso; vm_compute in E2; discriminate E2].
  exists p1, p2. split; [reflexivity|]. split; [reflexivity|].
  exact (wrapper_and_plain_question_collide "<p>Why?</p>"
           [("content", JStr "<p>Why?</p>")] plain_record wrapper_record
           p1 p2 eq_refl eq_refl eq_refl E1 E2).
Defined.

End CombinerProps.

(* ===================================================================== *)
(** * Further properties of [DataPreprocessor] *)
(* ===================================================================== *)

Module PreprocessorProps.

Import Text Form DataPreprocessor Shape TextFacts DataPreprocessorFacts.

Section WithLibraries.
Context `{PyLibs} `{Soup}.

(** *** Loading and the entry loop *)

Lemma validate_loaded_result (data : json) (l : list json) :
  snd (validate_loaded data) = inr l ->
  l <> [] /\ Forall has_required_fields l.
Proof.
  unfold validate_loaded. destruct (py_iter data) as [items|]; [|discriminate].
  rewrite validate_entries_spec.
  destruct (List.filter validate_json_entry items) as [|e r] eqn:E;
    [discriminate|].
  intros [= <-]. split; [discriminate|]. rewrite <- E.
  apply Forall_forall. intros x Hx. apply list_elem_of_In, filter_In in Hx.
  now apply validate_json_entry_spec.
Qed.

Lemma load_json_safely_checked (raw : string) :
  match snd (load_json_safely raw) with
  | inr l => l <> [] /\ Forall has_required_fields l
  | inl _ => True
  end.
Proof.
  unfold load_json_safely. destruct (preprocess_file raw) as [log0 content].
  destruct (json_loads content) as [e|data]; [exact I|].
  destruct (validate_loaded data) as [log result] eqn:E. cbn [snd].
  destruct result as [e|l]; [exact I|].
  apply (validate_loaded_result data). now rewrite E.
Qed.

(** X8.  When [load_json_safely] returns, the list is not empty and every
    entry in it is an object with a [question] field and an [answers] field
    that is an array. *)
Theorem load_json_safely_result (raw : string) :
  match snd (load_json_safely raw) with
  | inr l => l <> [] /\ Forall has_required_fields l
  | inl _ => True
  end.
Proof. exact (load_json_safely_checked raw). Qed.

Lemma add_rows_length (a b : list nat) :
  length a = length b -> length (add_rows a b) = length a.
Proof.
  revert b. induction a as [|x a IH]; intros [|y b]; simpl; try discriminate.
  - reflexivity.
  - intros [= Hl]. now rewrite IH.
Qed.

Lemma transform_sum_length (v : CountVectorizer) (vocab docs : list string) :
  length (transform_sum v vocab docs) = length vocab.
Proof.
  unfold transform_sum.
  assert (Hfold : forall acc,
            length acc = length vocab ->
            length (fold_left add_rows (map (count_row v vocab) docs) acc)
            = length vocab).
  { induction docs as [|d docs IH]; intros acc Hacc; [exact Hacc|].
    cbn [map fold_left]. apply IH. rewrite add_rows_length; [exact Hacc|].
    unfold count_row. now rewrite length_map. }
  apply Hfold, repeat_length.
Qed.

Lemma encode_length (v : CountVectorizer) (docs : list string) :
  length (encode v docs) = length (default [] (vocabulary_ v)).
Proof.
  unfold encode. destruct docs; [apply repeat_length|].
  apply transform_sum_length.
Qed.

Lemma fit_vocabulary (v v' : CountVectorizer) (docs : list string) :
  fit v docs = inr v' -> exists terms, vocabulary_ v' = Some terms.
Proof.
  unfold fit. destruct (max_features v =? 0)%nat; [discriminate|].
  destruct (sorted_terms _); [discriminate|].
  intros [= <-]. cbn [vocabulary_]. eauto.
Qed.

Lemma process_entries_length (data : list json) (l : list processed_entry) :
  process_entries data = inr l -> length l = length data.
Proof.
  revert l. induction data as [|e r IH]; intros l; cbn [process_entries].
  - now intros [= <-].
  - destruct (process_entry e) as [x|pe]; [discriminate|].
    destruct (process_entries r) as [x|l']; [discriminate|].
    intros [= <-]. cbn [length]. now rewrite (IH l').
Qed.

(** X9.  When a run of [process_file] succeeds, both vocabularies have been
    fitted, the dataset has one entry for every entry that was loaded, and
    in every entry the two code vectors have the length of the code
    vocabulary and the two text vectors the length of the text
    vocabulary. *)
Theorem process_file_dataset (self : preprocessor) (raw : string) :
  match snd (process_file self raw) with
  | inr out =>
      exists data code_terms text_terms,
        snd (load_json_safely raw) = inr data
        /\ code_vocabulary out = Some code_terms
        /\ text_vocabulary out = Some text_terms
        /\ length (bag_of_words_dataset out) = length data
        /\ Forall (fun b =>
                     length (bow_question_code b) = length code_terms
                     /\ length (bow_answer_code b) = length code_terms
                     /\ length (bow_question_text b) = length text_terms
                     /\ length (bow_answer_text b) = length text_terms)
             (bag_of_words_dataset out)
  | inl _ => True
  end.
Proof.
  unfold process_file.
  destruct (load_json_safely raw) as [log [e|data]]; cbn [snd]; [exact I|].
  destruct (process_entries data) as [e|l] eqn:El; [exact I|].
  unfold create_vocabulary.
  destruct (fit (code_vectoriser self) _) as [e|cv] eqn:Ec; [exact I|].
  destruct (fit (text_vectoriser self) _) as [e|tv] eqn:Et; [exact I|].
  destruct (fit_vocabulary _ _ _ Ec) as [code_terms Hc].
  destruct (fit_vocabulary _ _ _ Et) as [text_terms Ht].
  exists data, code_terms, text_terms.
  cbn [code_vocabulary text_vocabulary bag_of_words_dataset
       code_vectoriser text_vectoriser].
  split; [reflexivity|]. split; [exact Hc|]. split; [exact Ht|].
  split; [now rewrite length_map, (process_entries_length _ _ El)|].
  apply List.Forall_forall. intros b Hb. apply in_map_iff in Hb as [pe [<- _]].
  unfold transform_to_bag_of_words_data.
  cbn [bow_question_code bow_answer_code bow_question_text bow_answer_text
       code_vectoriser text_vectoriser].
  rewrite !encode_length, Hc, Ht. cbn [default]. auto.
Qed.

End WithLibraries.

Lemma process_file_dataset_witness :
  exists out data code_terms text_terms,
    snd (@process_file MiniJson.mini_libs MiniSoup.mini_soup (new 2 100)
           Examples.code_file) = inr out
    /\ snd (@load_json_safely MiniJson.mini_libs Examples.code_file) = inr data
    /\ code_vocabulary out = Some code_terms
    /\ text_vocabulary out = Some text_terms
    /\ length (bag_of_words_dataset out) = length data
    /\ Forall (fun b =>
                 length (bow_question_code b) = length code_terms
                 /\ length (bow_answer_code b) = length code_terms
                 /\ length (bow_question_text b) = length text_terms
                 /\ length (bow_answer_text b) = length text_terms)
         (bag_of_words_dataset out).
Proof.
  pose proof (@process_file_dataset MiniJson.mini_libs MiniSoup.mini_soup
                (new 2 100) Examples.code_file) as Hd.
  destruct (snd (@process_file MiniJson.mini_libs MiniSoup.mini_soup
                   (new 2 100) Examples.code_file)) as [e|out] eqn:E.
  - exfalso. vm_compute in E. discriminate E.
  - destruct Hd as (data & code_terms & text_terms & Hd).
    exists out, data, code_terms, text_terms. split; [reflexivity|exact Hd].
Defined.

(** *** The brackets of the repaired text *)

Lemma last_char_cons (c : ascii) (r : string) :
  last_char (String c r)
  = match r with EmptyString => Some c | _ => last_char r end.
Proof. destruct r; reflexivity. Qed.

Lemma last_char_some (s : string) (c : ascii) :
  last_char s = Some c -> s <> EmptyString.
Proof. destruct s; [discriminate|congruence]. Qed.

Lemma last_char_snoc (s : string) (c : ascii) :
  last_char (s +:+ str1 c) = Some c.
Proof.
  induction s as [|a s IH]; [reflexivity|].
  rewrite append_cons, last_char_cons, IH.
  destruct s; reflexivity.
Qed.

Lemma last_char_tail (c : ascii) (r : string) :
  r <> EmptyString -> last_char (String c r) = last_char r.
Proof. destruct r; [congruence|reflexivity]. Qed.

Lemma last_char_single (c x : ascii) (r : string) :
  last_char (String c r) = Some x -> r = EmptyString -> c = x.
Proof. intros Hl ->. now injection Hl. Qed.

Lemma sub_trailing_commas_last (s : string) :
  last_char s = Some "]"%char ->
  last_char (sub_trailing_commas s) = Some "]"%char.
Proof.
  induction s as [|c r IH]; [discriminate|]. intros Hl.
  destruct (string_dec r EmptyString) as [Hr|Hr].
  - pose proof (last_char_single _ _ _ Hl Hr). subst. reflexivity.
  - rewrite (last_char_tail _ _ Hr) in Hl. specialize (IH Hl).
    cbn [sub_trailing_commas].
    destruct (ch_eqb c "," && _); [exact IH|].
    rewrite last_char_tail; [exact IH|]. now apply last_char_some in IH.
Qed.

Lemma sub_missing_commas_last (s : string) :
  forall skip,
    last_char s = Some "]"%char ->
    last_char (sub_missing_commas skip s) = Some "]"%char.
Proof.
  induction s as [|c r IH]; intros skip; [discriminate|]. intros Hl.
  destruct (string_dec r EmptyString) as [Hr|Hr].
  - pose proof (last_char_single _ _ _ Hl Hr). subst.
    destruct skip; reflexivity.
  - rewrite (last_char_tail _ _ Hr) in Hl. cbn [sub_missing_commas].
    destruct (skip && isspace c); [now apply IH|].
    destruct (ch_eqb c "}" && _).
    + pose proof (IH true Hl) as Ht.
      rewrite !last_char_tail; [exact Ht| |discriminate].
      now apply last_char_some in Ht.
    + pose proof (IH false Hl) as Hf.
      rewrite last_char_tail; [exact Hf|]. now apply last_char_some in Hf.
Qed.

(** X10.  Whatever the text, the result of [fix_json_structure] starts with
    an opening bracket and ends with a closing bracket. *)
Theorem fix_json_structure_brackets (content : string) :
  first_char (fix_json_structure content) = Some "["%char
  /\ last_char (fix_json_structure content) = Some "]"%char.
Proof.
  unfold fix_json_structure, lstrip_bom.
  set (c0 := strip content).
  set (c1 := if is_char "[" (first_char c0) then c0 else "[" +:+ c0).
  set (c2 := if is_char "]" (last_char c1) then c1 else c1 +:+ "]").
  assert (H1 : exists r, c1 = String "[" r).
  { unfold c1. destruct (is_char "[" (first_char c0)) eqn:Ha.
    - destruct c0 as [|a r]; [discriminate|].
      cbn [is_char first_char] in Ha. unfold ch_eqb in Ha.
      apply Ascii.eqb_eq in Ha. subst a. eauto.
    - exists c0. reflexivity. }
  assert (H2 : (exists r, c2 = String "[" r) /\ last_char c2 = Some "]"%char).
  { unfold c2. destruct H1 as [r ->].
    destruct (is_char "]" (last_char (String "[" r))) eqn:Hl.
    - split; [eauto|].
      destruct (last_char (String "[" r)) as [l|]; [|discriminate].
      cbn [is_char] in Hl. unfold ch_eqb in Hl.
      apply Ascii.eqb_eq in Hl. now subst l.
    - split; [exists (r +:+ "]"); reflexivity|].
      apply (last_char_snoc (String "[" r) "]"). }
  destruct H2 as [[r Hr] Hlast]. split.
  - rewrite Hr. reflexivity.
  - now apply sub_trailing_commas_last, sub_missing_commas_last.
Qed.

(** *** What the normalisers leave *)

Lemma every_impl (p q : ascii -> bool) (s : string) :
  (forall c, p c = true -> q c = true) ->
  every p s = true -> every q s = true.
Proof.
  intros Hpq. induction s as [|c r IH]; simpl; [reflexivity|].
  intros [Hc Hr]%andb_true_iff. now rewrite (Hpq _ Hc), IH.
Qed.

Lemma every_app (p : ascii -> bool) (s t : string) :
  every p (s +:+ t) = every p s && every p t.
Proof.
  induction s as [|c r IH]; [reflexivity|].
  rewrite append_cons. simpl. now rewrite IH, andb_assoc.
Qed.

Lemma every_lstrip (p : ascii -> bool) (s : string) :
  every p s = true -> every p (lstrip s) = true.
Proof.
  induction s as [|c r IH]; simpl; [reflexivity|].
  intros [Hc Hr]%andb_true_iff.
  destruct (isspace c); [auto|]. simpl. now rewrite Hc, Hr.
Qed.

Lemma every_rstrip (p : ascii -> bool) (s : string) :
  every p s = true -> every p (rstrip s) = true.
Proof.
  induction s as [|c r IH]; [reflexivity|]. rewrite rstrip_cons. simpl.
  intros [Hc Hr]%andb_true_iff. specialize (IH Hr).
  destruct (rstrip r) as [|d r'].
  - destruct (isspace c); simpl; [reflexivity|]. now rewrite Hc.
  - change (p c && every p (String d r') = true). now rewrite Hc, IH.
Qed.

Lemma every_strip (p : ascii -> bool) (s : string) :
  every p s = true -> every p (strip s) = true.
Proof. intros Hs. now apply every_rstrip, every_lstrip. Qed.

Lemma every_sub_ws (p : ascii -> bool) (s : string) :
  p " "%char = true ->
  forall b,
    every p s = true ->
    every (fun c => p c && (negb (isspace c) || ch_eqb c " ")) (sub_ws b s)
    = true.
Proof.
  intros Hsp. induction s as [|c r IH]; intros b; simpl; [reflexivity|].
  intros [Hc Hr]%andb_true_iff. destruct (isspace c) eqn:Hw.
  - destruct b; [now apply IH|]. simpl. rewrite Hsp. now apply IH.
  - simpl. rewrite Hc, Hw. now apply IH.
Qed.

Lemma every_blank_special (text : string) :
  every keep_in_text (blank_special text) = true.
Proof.
  induction text as [|c r IH]; simpl; [reflexivity|].
  rewrite IH, andb_true_r. now destruct (keep_in_text c) eqn:Hc.
Qed.

Lemma kept_is_text_char (c : ascii) :
  keep_in_text c && (negb (isspace c) || ch_eqb c " ") = true ->
  text_char c = true.
Proof.
  destruct c as [[] [] [] [] [] [] [] []]; vm_compute; intros Hc;
    first [reflexivity | discriminate Hc].
Qed.

(** X11.  The text [preprocess_text] returns is made of lower-case
    letters, digits, periods and spaces only, with no space at either end
    and never two spaces in a row. *)
Theorem preprocess_text_form (text : string) :
  every text_char (preprocess_text text) = true
  /\ squeezed (preprocess_text text) = true.
Proof.
  unfold preprocess_text. split; [|apply squeeze_squeezed].
  apply every_strip.
  apply (every_impl _ _ _ kept_is_text_char).
  apply every_sub_ws; [reflexivity|]. apply every_blank_special.
Qed.

(** *** Comments and escapes *)

Lemma lacks_cons (c x : ascii) (r : string) :
  lacks c (String x r) = negb (ch_eqb x c) && lacks c r.
Proof. reflexivity. Qed.

Lemma lacks_app (c : ascii) (s t : string) :
  lacks c (s +:+ t) = lacks c s && lacks c t.
Proof. apply every_app. Qed.

Lemma starts_with_lacks (c : ascii) (pat s rest : string) :
  starts_with pat s = Some rest -> lacks c s = true -> lacks c rest = true.
Proof.
  revert s. induction pat as [|a pat IH]; intros s; simpl.
  - now intros [= ->].
  - destruct s as [|b s]; [discriminate|].
    destruct (ch_eqb a b); [|discriminate].
    intros Hs. rewrite lacks_cons. intros [_ Hr]%andb_true_iff. eauto.
Qed.

Lemma split_at_lacks (c : ascii) (pat : string) (s a b : string) :
  split_at pat s = Some (a, b) -> lacks c s = true -> lacks c b = true.
Proof.
  revert a. induction s as [|x r IH]; intros a.
  - simpl. destruct (starts_with pat EmptyString) as [rest|] eqn:E;
      [|discriminate]. intros [= _ <-] Hs. eapply starts_with_lacks; eauto.
  - cbn [split_at]. destruct (starts_with pat (String x r)) as [rest|] eqn:E.
    + intros [= _ <-] Hs. eapply starts_with_lacks; eauto.
    + destruct (split_at pat r) as [[a' b']|] eqn:Er; simpl; [|discriminate].
      intros [= _ <-]. rewrite lacks_cons. intros [_ Hr]%andb_true_iff.
      eapply IH; eauto.
Qed.

Lemma strip_line_comments_hash (code : string) :
  forall b, lacks "#" (strip_line_comments "#" b code) = true.
Proof.
  induction code as [|c r IH]; intros b; [reflexivity|].
  cbn [strip_line_comments].
  destruct (ch_eqb c newline) eqn:Hn.
  - rewrite lacks_cons, IH, andb_true_r. unfold ch_eqb in *.
    apply Ascii.eqb_eq in Hn. now subst c.
  - destruct b; [apply IH|]. cbn [starts_with].
    destruct (ch_eqb "#" c) eqn:Hc; [apply IH|].
    rewrite lacks_cons, IH, andb_true_r. unfold ch_eqb in *.
    rewrite Ascii.eqb_sym. now rewrite Hc.
Qed.

Lemma strip_line_comments_lacks (c : ascii) (marker code : string) :
  forall b,
    lacks c code = true -> lacks c (strip_line_comments marker b code) = true.
Proof.
  induction code as [|x r IH]; intros b; [reflexivity|].
  rewrite lacks_cons. intros [Hx Hr]%andb_true_iff.
  cbn [strip_line_comments].
  destruct (ch_eqb x newline); [rewrite lacks_cons, Hx; now apply IH|].
  destruct b; [now apply IH|].
  destruct (starts_with marker (String x r)); [now apply IH|].
  rewrite lacks_cons, Hx. now apply IH.
Qed.

Lemma strip_block_comments_lacks (c : ascii) (fuel : nat) :
  forall code,
    lacks c code = true -> lacks c (strip_block_comments fuel code) = true.
Proof.
  induction fuel as [|fuel IH]; intros code Hc; [exact Hc|].
  destruct code as [|x r]; [reflexivity|]. cbn [strip_block_comments].
  assert (Hr : lacks c r = true).
  { rewrite lacks_cons in Hc. now apply andb_true_iff in Hc. }
  assert (Hx : negb (ch_eqb x c) = true).
  { rewrite lacks_cons in Hc. now apply andb_true_iff in Hc. }
  destruct (starts_with "/*" (String x r)) as [body|] eqn:Es.
  - pose proof (starts_with_lacks _ _ _ _ Es Hc) as Hb.
    destruct (split_at "*/" body) as [[a rest]|] eqn:Ea.
    + apply IH. eapply split_at_lacks; eauto.
    + rewrite lacks_cons, Hx. now apply IH.
  - rewrite lacks_cons, Hx. now apply IH.
Qed.

Lemma sub_ws_lacks (c : ascii) (s : string) :
  ch_eqb " " c = false ->
  forall b, lacks c s = true -> lacks c (sub_ws b s) = true.
Proof.
  intros Hsp. induction s as [|x r IH]; intros b; [reflexivity|].
  rewrite lacks_cons. intros [Hx Hr]%andb_true_iff. cbn [sub_ws].
  destruct (isspace x).
  - destruct b; [now apply IH|]. rewrite lacks_cons, Hsp. now apply IH.
  - rewrite lacks_cons, Hx. now apply IH.
Qed.

Lemma space_out_symbols_lacks (c : ascii) (s : string) :
  ch_eqb " " c = false ->
  lacks c s = true -> lacks c (space_out_symbols s) = true.
Proof.
  intros Hsp. induction s as [|x r IH]; [reflexivity|].
  rewrite lacks_cons. intros [Hx Hr]%andb_true_iff. cbn [space_out_symbols].
  destruct (is_word x || isspace x); rewrite !lacks_cons, ?Hsp, Hx; now apply IH.
Qed.

Lemma preprocess_code_lacks_hash (code : string) :
  lacks "#" (preprocess_code code) = true.
Proof.
  unfold preprocess_code. apply every_strip.
  apply space_out_symbols_lacks; [reflexivity|].
  apply sub_ws_lacks; [reflexivity|].
  apply strip_block_comments_lacks, strip_line_comments_lacks.
  apply strip_line_comments_hash.
Qed.

Lemma starts_with_first (x : ascii) (old' s : string) :
  lacks x s = true -> starts_with (String x old') s = None.
Proof.
  destruct s as [|y r]; [reflexivity|]. rewrite lacks_cons.
  intros [Hy _]%andb_true_iff. simpl. unfold ch_eqb in *.
  rewrite Ascii.eqb_sym. now destruct (Ascii.eqb y x).
Qed.

Lemma replace_lacks_first (x : ascii) (old' new s : string) :
  lacks x s = true -> replace (String x old') new s = s.
Proof.
  unfold replace. induction s as [|y r IH]; [reflexivity|].
  intros Hs. cbn [replace_from]. rewrite (starts_with_first _ _ _ Hs).
  rewrite lacks_cons in Hs. apply andb_true_iff in Hs as [_ Hr].
  now rewrite (IH Hr).
Qed.

Lemma unescape_json_unchanged (text : string) :
  lacks backslash text = true -> unescape_json text = text.
Proof.
  intros Hs. unfold unescape_json, escape_mapping. cbn [fold_left fst snd].
  now rewrite !(replace_lacks_first backslash _ _ text Hs).
Qed.

(** Outside a comment the pass copies what holds no hash sign. *)
Lemma strip_line_comments_before (a t : string) :
  lacks "#" a = true ->
  strip_line_comments "#" false (a +:+ t)
  = a +:+ strip_line_comments "#" false t.
Proof.
  induction a as [|c a IH]; [reflexivity|].
  rewrite lacks_cons. intros [Hc Ha]%andb_true_iff.
  rewrite !append_cons. cbn [strip_line_comments starts_with].
  apply negb_true_iff in Hc. unfold ch_eqb in *.
  rewrite (Ascii.eqb_sym "#" c), Hc.
  destruct (Ascii.eqb c newline); now rewrite (IH Ha).
Qed.

(** Inside a comment it drops everything up to the end of the line. *)
Lemma strip_line_comments_inside (marker b rest : string) :
  lacks newline b = true ->
  strip_line_comments marker true (b +:+ rest)
  = strip_line_comments marker true rest.
Proof.
  induction b as [|c b IH]; [reflexivity|].
  rewrite lacks_cons. intros [Hc Hb]%andb_true_iff.
  rewrite append_cons. cbn [strip_line_comments].
  apply negb_true_iff in Hc. rewrite Hc. now apply IH.
Qed.

Lemma strip_line_comments_line_end (marker rest : string) :
  first_char rest = None \/ first_char rest = Some newline ->
  strip_line_comments marker true rest
  = strip_line_comments marker false rest.
Proof.
  destruct rest as [|c r]; [reflexivity|]. intros [Hr|Hr]; [discriminate|].
  injection Hr as ->. reflexivity.
Qed.

Lemma strip_line_comments_comment (a b rest : string) :
  lacks "#" a = true -> lacks newline b = true ->
  first_char rest = None \/ first_char rest = Some newline ->
  strip_line_comments "#" false (a +:+ String "#" b +:+ rest)
  = a +:+ strip_line_comments "#" false rest.
Proof.
  intros Ha Hb Hrest. rewrite (strip_line_comments_before _ _ Ha).
  f_equal. rewrite append_cons.
  change (strip_line_comments "#" false (String "#" (b +:+ rest)))
    with (strip_line_comments "#" true (b +:+ rest)).
  rewrite (strip_line_comments_inside _ _ _ Hb).
  now apply strip_line_comments_line_end.
Qed.

(** X12.  A hash comment does not reach the output of [preprocess_code].
    The first comment pass deletes a [#] together with the rest of its
    line, and nothing of what stands before it; in code without backslash
    the whole comment, from the [#] to the end of its line, can be taken
    out of the input without changing what [preprocess_code] returns; and
    the text returned never contains a [#], whatever the code. *)
Theorem hash_comments_removed :
  (forall a b rest,
     lacks "#" a = true -> lacks newline b = true ->
     first_char rest = None \/ first_char rest = Some newline ->
     strip_line_comments "#" false (a +:+ String "#" b +:+ rest)
     = a +:+ strip_line_comments "#" false rest)
  /\ (forall a b rest,
        lacks "#" a = true -> lacks newline b = true ->
        first_char rest = None \/ first_char rest = Some newline ->
        lacks backslash (a +:+ String "#" b +:+ rest) = true ->
        preprocess_code (a +:+ String "#" b +:+ rest)
        = preprocess_code (a +:+ rest))
  /\ (forall code, lacks "#" (preprocess_code code) = true).
Proof.
  split; [exact strip_line_comments_comment|].
  split; [|exact preprocess_code_lacks_hash].
  intros a b rest Ha Hb Hrest Hbs.
  assert (Hbs' : lacks backslash (a +:+ rest) = true).
  { rewrite !lacks_app in Hbs. apply andb_true_iff in Hbs as [H1 H2].
    apply andb_true_iff in H2 as [_ H2]. now rewrite lacks_app, H1, H2. }
  unfold preprocess_code.
  rewrite (unescape_json_unchanged _ Hbs), (unescape_json_unchanged _ Hbs').
  rewrite (strip_line_comments_comment _ _ _ Ha Hb Hrest).
  now rewrite (strip_line_comments_before _ _ Ha).
Qed.

Lemma hash_comments_removed_witness :
  preprocess_code "x = 1 # set x" = preprocess_code "x = 1 ".
Proof.
  destruct hash_comments_removed as (_ & Hcode & _).
  apply (Hcode "x = 1 " " set x" EmptyString); try reflexivity.
  now left.
Defined.

(** X13.  [unescape_json] changes nothing in a text that contains no
    backslash. *)
Theorem unescape_json_plain (text : string) :
  lacks backslash text = true -> unescape_json text = text.
Proof.
  intros Hs. unfold unescape_json, escape_mapping. cbn [fold_left fst snd].
  now rewrite !(replace_lacks_first backslash _ _ text Hs).
Qed.

Lemma unescape_json_plain_witness : unescape_json "x = y + 1" = "x = y + 1".
Proof. apply unescape_json_plain. reflexivity. Defined.

(** *** Bag-of-words vectors *)

Lemma add_rows_map {A : Type} (f g : A -> nat) (l : list A) :
  add_rows (map f l) (map g l) = map (fun t => f t + g t) l.
Proof. induction l as [|x l IH]; simpl; [reflexivity|]. now rewrite IH. Qed.

Lemma count_term_app (t : string) (l1 l2 : list string) :
  count_term t (l1 ++ l2) = count_term t l1 + count_term t l2.
Proof. unfold count_term. now rewrite List.filter_app, length_app. Qed.

Lemma zeros_counts (vocab : list string) :
  repeat 0 (length vocab) = map (fun t => count_term t []) vocab.
Proof. induction vocab as [|x l IH]; simpl; [reflexivity|]. now rewrite IH. Qed.

Lemma transform_sum_from (v : CountVectorizer) (vocab docs : list string) :
  forall seen,
    fold_left add_rows (map (count_row v vocab) docs)
      (map (fun t => count_term t seen) vocab)
    = map (fun t => count_term t (seen ++ flat_map (analyze v) docs)) vocab.
Proof.
  induction docs as [|d docs IH]; intros seen; cbn [map fold_left flat_map].
  - now rewrite app_nil_r.
  - change (count_row v vocab d)
      with (map (fun t => count_term t (analyze v d)) vocab).
    rewrite add_rows_map.
    rewrite (map_ext _ (fun t => count_term t (seen ++ analyze v d)))
      by (intros t; now rewrite count_term_app).
    rewrite IH. now rewrite <- app_assoc.
Qed.

(** X14.  The vector [transform_to_bag_of_words_data] builds for a list of
    spans has one component for every term of the fitted vocabulary, and
    the component of a term is the number of times the term occurs among
    the tokens of all the spans together; for no spans at all it is the zero
    vector of the same length. *)
Theorem encode_counts (v : CountVectorizer) (docs : list string) :
  encode v docs
  = map (fun t => count_term t (flat_map (analyze v) docs))
      (default [] (vocabulary_ v))
  /\ length (encode v docs) = length (default [] (vocabulary_ v)).
Proof.
  assert (He : encode v docs
               = map (fun t => count_term t (flat_map (analyze v) docs))
                   (default [] (vocabulary_ v))).
  { unfold encode. destruct docs as [|d docs]; [apply zeros_counts|].
    unfold transform_sum. rewrite zeros_counts.
    apply (transform_sum_from v _ (d :: docs) []). }
  split; [exact He|]. now rewrite He, length_map.
Qed.

(** *** Code blocks made safe for JSON *)

Lemma replace_char (a : ascii) (new s : string) :
  replace (str1 a) new s
  = expand (fun c => if ch_eqb a c then new else str1 c) s.
Proof.
  unfold replace. induction s as [|c r IH]; [reflexivity|].
  cbn [replace_from expand str1 starts_with String.length Nat.sub].
  destruct (ch_eqb a c); rewrite IH; reflexivity.
Qed.

Lemma expand_lacks (c : ascii) (f : ascii -> string) (s : string) :
  (forall x, ch_eqb x c = false -> lacks c (f x) = true) ->
  lacks c s = true -> lacks c (expand f s) = true.
Proof.
  intros Hf. induction s as [|x r IH]; [reflexivity|].
  rewrite lacks_cons. intros [Hx Hr]%andb_true_iff.
  cbn [expand]. rewrite lacks_app, IH by exact Hr.
  rewrite Hf; [reflexivity|]. now apply negb_true_iff.
Qed.

Lemma expand_removes (c : ascii) (f : ascii -> string) (s : string) :
  (forall x, lacks c (f x) = true) -> lacks c (expand f s) = true.
Proof.
  intros Hf. induction s as [|x r IH]; [reflexivity|].
  cbn [expand]. now rewrite lacks_app, Hf, IH.
Qed.

Lemma escape_slashes_lacks (c : ascii) (s : string) :
  ch_eqb backslash c = false ->
  forall prev, lacks c s = true -> lacks c (escape_slashes prev s) = true.
Proof.
  intros Hb. induction s as [|x r IH]; intros prev; [reflexivity|].
  rewrite lacks_cons. intros [Hx Hr]%andb_true_iff. cbn [escape_slashes].
  destruct (ch_eqb x "/" && _); rewrite !lacks_cons, ?Hb, Hx; now apply IH.
Qed.

Lemma pass_lacks (a c : ascii) (letter : ascii) (x : ascii) :
  ch_eqb backslash c = false -> ch_eqb letter c = false ->
  ch_eqb x c = false ->
  lacks c (pass a (String backslash (str1 letter)) x) = true.
Proof.
  intros Hb Hl Hx. unfold pass, str1.
  destruct (ch_eqb a x); rewrite !lacks_cons, ?Hb, ?Hl, ?Hx; reflexivity.
Qed.

Lemma pass_removes (a : ascii) (letter : ascii) (x : ascii) :
  ch_eqb backslash a = false -> ch_eqb letter a = false ->
  lacks a (pass a (String backslash (str1 letter)) x) = true.
Proof.
  intros Hb Hl. unfold pass, str1.
  destruct (ch_eqb a x) eqn:Hx; rewrite !lacks_cons.
  - now rewrite Hb, Hl.
  - unfold ch_eqb in *. rewrite Ascii.eqb_sym, Hx. reflexivity.
Qed.

Lemma guarded_quotes (s : string) :
  forall b,
    guarded dquote b (expand (pass dquote (String backslash (str1 dquote))) s)
    = true.
Proof.
  induction s as [|x r IH]; intros b; [reflexivity|].
  cbn [expand]. unfold pass at 1, str1 at 1.
  destruct (ch_eqb dquote x) eqn:Hx.
  - rewrite !append_cons, append_nil_l. cbn [guarded].
    change (ch_eqb backslash dquote) with false.
    change (ch_eqb backslash backslash) with true.
    change (ch_eqb dquote dquote) with true.
    change (ch_eqb dquote backslash) with false.
    simpl. apply IH.
  - rewrite append_cons, append_nil_l. cbn [guarded].
    unfold ch_eqb in *. rewrite Ascii.eqb_sym, Hx. simpl. apply IH.
Qed.

Lemma guarded_pass (c a letter : ascii) (s : string) :
  ch_eqb a c = false -> ch_eqb a backslash = false ->
  ch_eqb letter c = false -> ch_eqb letter backslash = false ->
  ch_eqb backslash c = false ->
  forall b,
    guarded c b s = true ->
    guarded c b (expand (pass a (String backslash (str1 letter))) s) = true.
Proof.
  intros Hac Hab Hlc Hlb Hbc. induction s as [|x r IH]; intros b;
    [reflexivity|].
  cbn [guarded expand]. intros [Hx Hr]%andb_true_iff.
  unfold pass at 1, str1 at 1. destruct (ch_eqb a x) eqn:Hax.
  - unfold ch_eqb in Hax. apply Ascii.eqb_eq in Hax. subst x.
    rewrite Hab in Hr. rewrite !append_cons, append_nil_l. cbn [guarded].
    rewrite Hbc, Hlc, Hlb. simpl. now apply IH.
  - rewrite append_cons, append_nil_l. cbn [guarded].
    rewrite Hx. simpl. now apply IH.
Qed.

Lemma guarded_escape_slashes (c : ascii) (s : string) :
  ch_eqb "/" c = false -> ch_eqb backslash c = false ->
  forall prev b,
    guarded c b s = true -> guarded c b (escape_slashes prev s) = true.
Proof.
  intros Hsc Hbc. induction s as [|x r IH]; intros prev b; [reflexivity|].
  cbn [guarded escape_slashes]. intros [Hx Hr]%andb_true_iff.
  destruct (ch_eqb x "/" && _) eqn:Hs.
  - apply andb_true_iff in Hs as [Hs _]. unfold ch_eqb in Hs.
    apply Ascii.eqb_eq in Hs. subst x. cbn [guarded].
    rewrite Hbc, Hsc. cbv iota. rewrite !andb_true_l. now apply IH.
  - cbn [guarded]. rewrite Hx, andb_true_l. now apply IH.
Qed.

Lemma escape_slashes_guarded (s : string) :
  forall prev,
    guarded "/" (is_char backslash prev) (escape_slashes prev s) = true.
Proof.
  induction s as [|x r IH]; intros prev; [reflexivity|].
  cbn [escape_slashes].
  assert (Hflag : forall y : ascii,
             is_char backslash (Some y) = ch_eqb y backslash).
  { intros y. cbn [is_char]. unfold ch_eqb. apply Ascii.eqb_sym. }
  assert (Hprev : match prev with
                  | Some b => ch_eqb b backslash
                  | None => false
                  end = is_char backslash prev).
  { destruct prev as [b|]; [|reflexivity]. now rewrite Hflag. }
  rewrite Hprev.
  destruct (ch_eqb x "/") eqn:Hx.
  - unfold ch_eqb in Hx. apply Ascii.eqb_eq in Hx. subst x.
    destruct (is_char backslash prev) eqn:Hp; cbn [andb negb guarded].
    + change (ch_eqb "/" "/") with true. cbv iota. rewrite andb_true_l.
      rewrite <- (Hflag "/"%char). apply IH.
    + change (ch_eqb backslash "/") with false.
      change (ch_eqb backslash backslash) with true.
      change (ch_eqb "/" "/") with true. cbv iota. rewrite !andb_true_l.
      rewrite <- (Hflag "/"%char). apply IH.
  - cbn [andb guarded]. rewrite Hx, andb_true_l, <- Hflag. apply IH.
Qed.

(** X15.  The text [sanitize_code_block] returns contains no newline, no
    carriage return and no tab, and every double quote and every slash in
    it stands right after a backslash. *)
Theorem sanitize_code_block_safe (code : string) :
  lacks newline (sanitize_code_block code) = true
  /\ lacks (ascii_of_nat 13) (sanitize_code_block code) = true
  /\ lacks (ascii_of_nat 9) (sanitize_code_block code) = true
  /\ guarded dquote false (sanitize_code_block code) = true
  /\ guarded "/" false (sanitize_code_block code) = true.
Proof.
  unfold sanitize_code_block. rewrite !replace_char.
  fold (pass backslash (String backslash (str1 backslash))).
  fold (pass dquote (String backslash (str1 dquote))).
  fold (pass newline (String backslash (str1 "n"))).
  fold (pass (ascii_of_nat 13) (String backslash (str1 "r"))).
  fold (pass (ascii_of_nat 9) (String backslash (str1 "t"))).
  repeat split.
  - apply escape_slashes_lacks; [reflexivity|].
    apply expand_lacks; [intros x; now apply pass_lacks|].
    apply expand_lacks; [intros x; now apply pass_lacks|].
    apply expand_removes. intros x. now apply pass_removes.
  - apply escape_slashes_lacks; [reflexivity|].
    apply expand_lacks; [intros x; now apply pass_lacks|].
    apply expand_removes. intros x. now apply pass_removes.
  - apply escape_slashes_lacks; [reflexivity|].
    apply expand_removes. intros x. now apply pass_removes.
  - apply guarded_escape_slashes; [reflexivity..|].
    do 3 (apply guarded_pass; [reflexivity..|]).
    apply guarded_quotes.
  - apply (escape_slashes_guarded _ None).
Qed.

(** *** The substitution over code blocks *)

Lemma starts_with_length (pat s rest : string) :
  starts_with pat s = Some rest ->
  String.length s = String.length pat + String.length rest.
Proof.
  revert s. induction pat as [|a pat IH]; intros s; simpl.
  - now intros [= ->].
  - destruct s as [|b s]; [discriminate|].
    destruct (ch_eqb a b); [|discriminate].
    intros Hs. simpl. now rewrite (IH _ Hs).
Qed.

Lemma split_at_length (pat s a b : string) :
  split_at pat s = Some (a, b) -> String.length b <= String.length s.
Proof.
  revert a. induction s as [|x r IH]; intros a.
  - simpl. destruct (starts_with pat EmptyString) as [rest|] eqn:E;
      [|discriminate]. intros [= _ <-].
    apply starts_with_length in E. simpl in E. lia.
  - cbn [split_at]. destruct (starts_with pat (String x r)) as [rest|] eqn:E.
    + intros [= _ <-]. apply starts_with_length in E. lia.
    + destruct (split_at pat r) as [[a' b']|] eqn:Er; simpl; [|discriminate].
      intros [= _ <-]. specialize (IH _ eq_refl). simpl. lia.
Qed.

Lemma split_at_cons (pat : string) (x : ascii) (r : string) :
  split_at pat (String x r)
  = match starts_with pat (String x r) with
    | Some rest => Some (EmptyString, rest)
    | None =>
        match split_at pat r with
        | Some (a, b) => Some (String x a, b)
        | None => None
        end
    end.
Proof.
  cbn [split_at]. destruct (starts_with pat (String x r)); [reflexivity|].
  destruct (split_at pat r) as [[a b]|]; reflexivity.
Qed.

(** A pattern absent from the text is absent from what is left after a
    character, and after a prefix. *)
Lemma no_close_tail (pat : string) (x : ascii) (r : string) :
  split_at pat (String x r) = None -> split_at pat r = None.
Proof.
  rewrite split_at_cons. destruct (starts_with _ _); [discriminate|].
  destruct (split_at pat r) as [[a b]|]; [discriminate|reflexivity].
Qed.

Lemma no_close_after_open (pat open s body : string) :
  starts_with open s = Some body ->
  split_at pat s = None -> split_at pat body = None.
Proof.
  revert s. induction open as [|a open IH]; intros s; simpl.
  - now intros [= ->].
  - destruct s as [|b s]; [discriminate|].
    destruct (ch_eqb a b); [|discriminate].
    intros Hs Hn. apply no_close_tail in Hn. eauto.
Qed.

Lemma no_close_unchanged (fuel : nat) :
  forall content,
    split_at "</code>" content = None ->
    process_code_blocks_from fuel content = content.
Proof.
  induction fuel as [|fuel IH]; intros content Hn; [reflexivity|].
  destruct content as [|c r]; [reflexivity|].
  cbn [process_code_blocks_from].
  pose proof (no_close_tail _ _ _ Hn) as Hr.
  destruct (starts_with "<code>" (String c r)) as [body|] eqn:Es.
  - rewrite (no_close_after_open _ _ _ _ Es Hn). now rewrite IH.
  - now rewrite IH.
Qed.

(** The closing tag cannot begin inside an opening tag. *)
Lemma open_then_no_close (c : ascii) (r body : string) :
  starts_with "<code>" (String c r) = Some body ->
  split_at "</code>" body = None -> split_at "</code>" r = None.
Proof.
  intros Hs Hn.
  assert (Hr : r = "code>" +:+ body).
  { revert Hs. cbn [starts_with].
    destruct (ch_eqb "<" c); [|discriminate].
    do 5 (destruct r as [|? r]; [discriminate|];
          match goal with
          | |- (if ch_eqb ?a ?b then _ else _) = _ -> _ =>
              destruct (ch_eqb a b) eqn:?; [|discriminate]
          end).
    intros [= ->].
    repeat match goal with
           | H : ch_eqb _ _ = true |- _ =>
               unfold ch_eqb in H; apply Ascii.eqb_eq in H; subst
           end.
    reflexivity. }
  subst r. rewrite !append_cons, append_nil_l.
  do 5 (rewrite split_at_cons;
        match goal with
        | |- context [starts_with "</code>" (String ?a ?t)] =>
            change (starts_with "</code>" (String a t)) with (@None string)
        end).
  now rewrite Hn.
Qed.

(** The block equation, for any fuel that covers the text. *)
Lemma process_code_blocks_from_eq (fuel : nat) :
  forall content,
    String.length content <= fuel ->
    process_code_blocks_from fuel content
    = match split_at "<code>" content with
      | None => content
      | Some (before, body) =>
          match split_at "</code>" body with
          | None => content
          | Some (code, rest) =>
              before +:+ "<code>" +:+ sanitize_code_block code +:+ "</code>"
              +:+ process_code_blocks rest
          end
      end.
Proof.
  induction fuel as [fuel IH] using lt_wf_ind. intros content Hlen.
  destruct fuel as [|fuel]; [destruct content; [reflexivity|simpl in Hlen; lia]|].
  destruct content as [|c r]; [reflexivity|].
  cbn [process_code_blocks_from]. rewrite split_at_cons. simpl in Hlen.
  destruct (starts_with "<code>" (String c r)) as [body|] eqn:Es.
  - pose proof (starts_with_length _ _ _ Es) as Hb. simpl in Hb.
    destruct (split_at "</code>" body) as [[code rest]|] eqn:Ec.
    + pose proof (split_at_length _ _ _ _ Ec) as Hr.
      rewrite append_nil_l. do 3 f_equal.
      unfold process_code_blocks.
      rewrite (IH fuel) by lia. now rewrite (IH (String.length rest)) by lia.
    + f_equal. apply no_close_unchanged.
      eapply open_then_no_close; eauto.
  - rewrite (IH fuel) by lia.
    destruct (split_at "<code>" r) as [[before body]|]; [|reflexivity].
    destruct (split_at "</code>" body) as [[code rest]|]; [|reflexivity].
    now rewrite append_cons.
Qed.

(** X16.  [process_code_blocks] rewrites the text block by block: up to the
    first opening tag nothing changes; the code between that tag and the
    first closing tag after it is replaced by its sanitised form; what
    follows the closing tag is processed the same way.  A text with no
    opening tag, or with no closing tag after the first opening one, is
    returned as it is. *)
Theorem process_code_blocks_eq (content : string) :
  process_code_blocks content
  = match split_at "<code>" content with
    | None => content
    | Some (before, body) =>
        match split_at "</code>" body with
        | None => content
        | Some (code, rest) =>
            before +:+ "<code>" +:+ sanitize_code_block code +:+ "</code>"
            +:+ process_code_blocks rest
        end
    end.
Proof. apply process_code_blocks_from_eq. reflexivity. Qed.

(** *** Objects that touch *)

Lemma next_char_cons (c : ascii) (r : string) :
  next_char (String c r) = if isspace c then next_char r else Some c.
Proof. unfold next_char. simpl. now destruct (isspace c). Qed.

Lemma sub_missing_commas_next (s : string) :
  forall skip, next_char (sub_missing_commas skip s) = next_char s.
Proof.
  induction s as [|c r IH]; intros skip; [reflexivity|].
  cbn [sub_missing_commas]. rewrite (next_char_cons c r).
  destruct (isspace c) eqn:Hw.
  - destruct skip; cbn [andb]; [apply IH|].
    assert (Hb : ch_eqb c "}" = false).
    { destruct (ch_eqb c "}") eqn:Hc; [|reflexivity].
      unfold ch_eqb in Hc. apply Ascii.eqb_eq in Hc. subst c. discriminate Hw. }
    rewrite Hb. cbn [andb]. rewrite next_char_cons, Hw. apply IH.
  - rewrite andb_false_r.
    destruct (ch_eqb c "}" && _) eqn:Hm.
    + apply andb_true_iff in Hm as [Hc _]. unfold ch_eqb in Hc.
      apply Ascii.eqb_eq in Hc. subst c. reflexivity.
    + now rewrite next_char_cons, Hw.
Qed.

Lemma sub_missing_commas_gap_free (s : string) :
  forall skip, gap_free (sub_missing_commas skip s) = true.
Proof.
  induction s as [|c r IH]; intros skip; [reflexivity|].
  cbn [sub_missing_commas].
  destruct (skip && isspace c); [apply IH|].
  destruct (ch_eqb c "}" && is_char "{" (first_char (lstrip r))) eqn:Hm.
  - cbn [gap_free]. rewrite (next_char_cons "," _).
    change (isspace ",") with false. cbv iota.
    change (is_char "{" (Some ","%char)) with false.
    change (ch_eqb "," "}") with false.
    rewrite andb_false_r, IH. reflexivity.
  - cbn [gap_free]. rewrite sub_missing_commas_next.
    unfold next_char at 1. rewrite Hm, IH. reflexivity.
Qed.

Lemma sub_trailing_commas_keeps (s : string) (x : ascii) :
  ch_eqb x "," = false ->
  next_char s = Some x -> next_char (sub_trailing_commas s) = Some x.
Proof.
  intros Hx. induction s as [|c r IH]; [discriminate|].
  rewrite next_char_cons. cbn [sub_trailing_commas].
  destruct (isspace c) eqn:Hw.
  - intros Hn.
    assert (Hc : ch_eqb c "," = false).
    { destruct (ch_eqb c ",") eqn:Hc; [|reflexivity].
      unfold ch_eqb in Hc. apply Ascii.eqb_eq in Hc. subst c. discriminate Hw. }
    rewrite Hc. cbn [andb]. rewrite next_char_cons, Hw. now apply IH.
  - intros [= ->]. rewrite Hx. cbn [andb]. now rewrite next_char_cons, Hw.
Qed.

Lemma sub_trailing_commas_opening (s : string) :
  next_char (sub_trailing_commas s) = Some "{"%char ->
  next_char s = Some "{"%char.
Proof.
  induction s as [|c r IH]; [discriminate|].
  rewrite next_char_cons. cbn [sub_trailing_commas].
  destruct (isspace c) eqn:Hw.
  - assert (Hc : ch_eqb c "," = false).
    { destruct (ch_eqb c ",") eqn:Hc; [|reflexivity].
      unfold ch_eqb in Hc. apply Ascii.eqb_eq in Hc. subst c. discriminate Hw. }
    rewrite Hc. cbn [andb]. rewrite next_char_cons, Hw. exact IH.
  - destruct (ch_eqb c "," && _) eqn:Hm.
    + apply andb_true_iff in Hm as [_ Hm]. intros Hn. exfalso.
      fold (next_char r) in Hm.
      destruct (next_char r) as [y|] eqn:Hy; [|discriminate].
      assert (Hyc : ch_eqb y "," = false).
      { cbn [is_char] in Hm. unfold ch_eqb in *.
        destruct (Ascii.eqb_spec y ","); [subst y; discriminate|reflexivity]. }
      rewrite (sub_trailing_commas_keeps r y Hyc Hy) in Hn.
      injection Hn as ->. discriminate Hm.
    + now rewrite next_char_cons, Hw.
Qed.

Lemma sub_trailing_commas_gap_free (s : string) :
  gap_free s = true -> gap_free (sub_trailing_commas s) = true.
Proof.
  induction s as [|c r IH]; [reflexivity|]. cbn [gap_free].
  intros [Hc Hr]%andb_true_iff. cbn [sub_trailing_commas].
  destruct (ch_eqb c "," && _); [now apply IH|].
  cbn [gap_free]. rewrite (IH Hr), andb_true_r.
  destruct (ch_eqb c "}"); [|reflexivity]. cbn [andb] in *.
  destruct (next_char (sub_trailing_commas r)) as [y|] eqn:Hy; [|reflexivity].
  destruct (is_char "{" (Some y)) eqn:Hb; [|reflexivity].
  cbn [is_char] in Hb. unfold ch_eqb in Hb. apply Ascii.eqb_eq in Hb. subst y.
  apply sub_trailing_commas_opening in Hy. rewrite Hy in Hc. discriminate Hc.
Qed.

(** X17.  In the text [fix_json_structure] returns no closing brace is
    followed, directly or across whitespace, by an opening brace: wherever
    two objects touched there is now a comma between them. *)
Theorem fix_json_structure_gap_free (content : string) :
  gap_free (fix_json_structure content) = true.
Proof.
  unfold fix_json_structure.
  apply sub_trailing_commas_gap_free, sub_missing_commas_gap_free.
Qed.

(** *** The tokens of preprocessed code *)

Lemma spaced_weaken (prev : option ascii) (s : string) :
  spaced prev s = true -> spaced None s = true.
Proof.
  destruct s as [|c r]; [reflexivity|]. cbn [spaced].
  now intros [_ ->]%andb_true_iff.
Qed.

Lemma space_out_symbols_spaced (s : string) :
  forall prev,
    match prev with Some d => symbol d = false | None => True end ->
    spaced prev (space_out_symbols s) = true.
Proof.
  induction s as [|c r IH]; intros prev Hp; [reflexivity|].
  cbn [space_out_symbols].
  assert (Hsp : symbol " " = false) by reflexivity.
  destruct (is_word c || isspace c) eqn:Hc.
  - assert (Hs : symbol c = false).
    { unfold symbol. apply orb_true_iff in Hc as [-> | ->];
        [reflexivity|apply andb_false_r]. }
    cbn [spaced]. rewrite (IH (Some c) Hs), andb_true_r.
    destruct prev as [d|]; [|reflexivity]. unfold apart. now rewrite Hs, Hp.
  - cbn [spaced]. rewrite (IH (Some " "%char) Hsp), andb_true_r.
    unfold apart. rewrite Hsp. change (isspace " ") with true.
    rewrite !orb_true_r. cbn [negb orb andb].
    destruct prev as [d|]; [|reflexivity]. now rewrite Hp.
Qed.

Lemma lstrip_spaced (s : string) :
  forall prev, spaced prev s = true -> spaced None (lstrip s) = true.
Proof.
  induction s as [|c r IH]; intros prev; [reflexivity|].
  intros Hs. cbn [lstrip]. destruct (isspace c).
  - cbn [spaced] in Hs. apply andb_true_iff in Hs as [_ Hr]. eauto.
  - eapply spaced_weaken; eauto.
Qed.

Lemma rstrip_spaced (s : string) :
  forall prev, spaced prev s = true -> spaced prev (rstrip s) = true.
Proof.
  induction s as [|c r IH]; intros prev; [reflexivity|].
  cbn [spaced]. intros [Hc Hr]%andb_true_iff. rewrite rstrip_cons.
  specialize (IH _ Hr). destruct (rstrip r) as [|d r'].
  - destruct (isspace c); [reflexivity|]. cbn [spaced]. now rewrite Hc.
  - change (match prev with Some d0 => apart d0 c | None => true end
            && spaced (Some c) (String d r') = true).
    now rewrite Hc, IH.
Qed.

Lemma lower_char_kind (c : ascii) :
  is_word (lower_char c) = is_word c /\ isspace (lower_char c) = isspace c.
Proof. destruct c as [[] [] [] [] [] [] [] []]; vm_compute; auto. Qed.

Lemma lower_apart (d c : ascii) :
  apart (lower_char d) (lower_char c) = apart d c.
Proof.
  unfold apart, symbol.
  destruct (lower_char_kind c) as [-> ->].
  destruct (lower_char_kind d) as [-> ->]. reflexivity.
Qed.

Lemma lower_spaced (s : string) :
  forall prev,
    spaced (option_map lower_char prev) (lower s) = spaced prev s.
Proof.
  induction s as [|c r IH]; intros prev; [reflexivity|].
  cbn [lower spaced]. rewrite <- (IH (Some c)). cbn [option_map].
  destruct prev as [d|]; [|reflexivity]. cbn [option_map].
  now rewrite lower_apart.
Qed.

Lemma spaced_suffix (t s : string) :
  forall prev, spaced prev (t +:+ s) = true -> spaced None s = true.
Proof.
  induction t as [|c t IH]; intros prev.
  - rewrite append_nil_l. apply spaced_weaken.
  - rewrite append_cons. cbn [spaced]. intros [_ Hr]%andb_true_iff. eauto.
Qed.

Lemma not_symbol_word (c : ascii) :
  symbol c = false -> isspace c = false -> is_word c = true.
Proof.
  unfold symbol. intros Hs Hw. rewrite Hw in Hs.
  destruct (is_word c); [reflexivity|discriminate].
Qed.

Lemma run_of_words (t s : string) :
  forall d,
    isspace d = false ->
    all_chars (fun x => negb (isspace x)) t = true ->
    spaced (Some d) (t +:+ s) = true ->
    every is_word t = true /\ (t <> EmptyString -> is_word d = true).
Proof.
  induction t as [|c t IH]; intros d Hd Ht Hs; [split; [reflexivity|congruence]|].
  rewrite append_cons in Hs. cbn [spaced all_chars] in *.
  apply andb_true_iff in Ht as [Hc Ht]. apply negb_true_iff in Hc.
  apply andb_true_iff in Hs as [Ha Hs].
  unfold apart in Ha. rewrite Hd, Hc, !orb_false_r in Ha.
  apply andb_true_iff in Ha as [Hsc Hsd].
  apply negb_true_iff in Hsc, Hsd.
  destruct (IH c Hc Ht Hs) as [Hw _]. cbn [every].
  rewrite (not_symbol_word c Hsc Hc), Hw. split; [reflexivity|].
  intros _. now apply not_symbol_word.
Qed.

Lemma run_token (t s : string) :
  is_run t = true -> spaced None (t +:+ s) = true -> code_token t = true.
Proof.
  destruct t as [|c t]; [discriminate|]. cbn [is_run all_chars].
  intros [_ [Hc Ht]%andb_true_iff]%andb_true_iff Hs.
  apply negb_true_iff in Hc. unfold code_token.
  destruct t as [|d t'].
  - cbn [is_single]. rewrite Hc. apply orb_true_r.
  - rewrite append_cons in Hs. cbn [spaced] in Hs.
    rewrite andb_true_l in Hs.
    destruct (run_of_words _ _ c Hc Ht Hs) as [Hw Hwc].
    cbn [every]. rewrite (Hwc ltac:(discriminate)).
    cbn [every] in Hw. rewrite Hw. now rewrite orb_true_r.
Qed.

Lemma tokens_of_spaced (doc : string) (toks : list string) :
  tokenization doc toks -> spaced None doc = true ->
  Forall (fun t => code_token t = true) toks.
Proof.
  induction 1 as [|c s l Hc _ IH|t s l Ht Hstop _ IH|t s l Ht Hstop _ IH];
    intros Hs.
  - constructor.
  - apply IH. cbn [spaced] in Hs. apply andb_true_iff in Hs as [_ Hs].
    eapply spaced_weaken; eauto.
  - constructor; [|eapply IH, spaced_suffix; eauto].
    unfold code_token. now rewrite Ht.
  - constructor; [|eapply IH, spaced_suffix; eauto].
    eapply run_token; eauto.
Qed.

(** X19.  For code made of code points below 256, the strings of this
    model, the tokens the code vectoriser takes from the result of
    [preprocess_code] are identifiers, runs of word characters (a number,
    for instance) or single characters: every operator, bracket or other
    symbol is a token of its own.  (Above that range lower-casing can put a
    combining mark next to a letter, U+0130 for one.) *)
Theorem preprocessed_code_tokens
    (min_word_freq max_vocab_size : nat) (code : string) :
  Forall (fun t => code_token t = true)
    (analyze (code_vectoriser (new min_word_freq max_vocab_size))
       (preprocess_code code)).
Proof.
  unfold analyze. cbn [new code_vectoriser tokenizer].
  apply (tokens_of_spaced (lower (preprocess_code code)));
    [apply findall_code_tokenization|].
  rewrite (lower_spaced _ None). unfold preprocess_code, strip.
  apply rstrip_spaced. eapply lstrip_spaced.
  apply (space_out_symbols_spaced _ None). exact I.
Qed.

(** *** Text the repair leaves alone *)

Lemma gap_free_unchanged (s : string) :
  gap_free s = true -> sub_missing_commas false s = s.
Proof.
  induction s as [|c r IH]; [reflexivity|]. cbn [gap_free].
  intros [Hc Hr]%andb_true_iff. apply negb_true_iff in Hc.
  cbn [sub_missing_commas andb]. unfold next_char in Hc.
  now rewrite Hc, IH.
Qed.

Lemma trailing_free_unchanged (s : string) :
  trailing_free s = true -> sub_trailing_commas s = s.
Proof.
  induction s as [|c r IH]; [reflexivity|]. cbn [trailing_free].
  intros [Hc Hr]%andb_true_iff. apply negb_true_iff in Hc.
  cbn [sub_trailing_commas]. unfold next_char in Hc.
  now rewrite Hc, IH.
Qed.

(** X20.  A text that, once stripped, starts with an opening bracket, ends
    with a closing bracket and contains neither a closing brace followed
    across whitespace by an opening brace nor a comma followed across
    whitespace by a closing brace or bracket comes out of
    [fix_json_structure] stripped and otherwise unchanged. *)
Theorem fix_json_structure_clean (content : string) :
  first_char (strip content) = Some "["%char ->
  last_char (strip content) = Some "]"%char ->
  gap_free (strip content) = true ->
  trailing_free (strip content) = true ->
  fix_json_structure content = strip content.
Proof.
  intros Hf Hl Hg Ht. unfold fix_json_structure, lstrip_bom.
  rewrite Hf. cbn [is_char]. change (ch_eqb "[" "[") with true. cbv iota.
  rewrite Hl. cbn [is_char]. change (ch_eqb "]" "]") with true. cbv iota.
  now rewrite (gap_free_unchanged _ Hg), (trailing_free_unchanged _ Ht).
Qed.

Lemma fix_json_structure_clean_witness :
  fix_json_structure "  [{1: [2, 3]}, {4: 5}]  " = "[{1: [2, 3]}, {4: 5}]".
Proof. apply fix_json_structure_clean; reflexivity. Defined.

(** *** A blank file *)

Lemma blank_no_pattern (c : ascii) (pat s : string) :
  isspace c = false -> every isspace s = true ->
  split_at (String c pat) s = None.
Proof.
  intros Hc. induction s as [|x r IH]; [reflexivity|]. cbn [every].
  intros [Hx Hr]%andb_true_iff. rewrite split_at_cons. cbn [starts_with].
  assert (Hcx : ch_eqb c x = false).
  { destruct (ch_eqb c x) eqn:E; [|reflexivity]. unfold ch_eqb in E.
    apply Ascii.eqb_eq in E. subst x. congruence. }
  now rewrite Hcx, (IH Hr).
Qed.

Lemma blank_lstrip (s : string) :
  every isspace s = true -> lstrip s = EmptyString.
Proof.
  induction s as [|x r IH]; [reflexivity|]. cbn [every lstrip].
  intros [-> Hr]%andb_true_iff. auto.
Qed.

(** X21.  For a file that holds whitespace only (or nothing),
    [preprocess_file] hands the text of the empty array to the parser. *)
Theorem preprocess_file_blank (content : string) :
  every isspace content = true -> snd (preprocess_file content) = "[]".
Proof.
  intros Hb. unfold preprocess_file. cbn [snd].
  unfold process_code_blocks.
  rewrite no_close_unchanged by (now apply blank_no_pattern).
  unfold fix_json_structure, lstrip_bom, strip.
  now rewrite (blank_lstrip _ Hb).
Qed.

Lemma preprocess_file_blank_witness :
  snd (preprocess_file (String newline "  ")) = "[]".
Proof. apply preprocess_file_blank. reflexivity. Defined.

(** *** The spans of a fragment *)

Lemma rstrip_head (c : ascii) (r : string) :
  isspace c = false -> exists r', rstrip (String c r) = String c r'.
Proof.
  intros Hc. rewrite rstrip_cons. destruct (rstrip r) as [|d r'].
  - rewrite Hc. eauto.
  - eauto.
Qed.

Lemma strip_trimmed (t : string) :
  strip t <> EmptyString -> trimmed (strip t) = true.
Proof.
  unfold strip, trimmed. rewrite rstrip_no_trailing, andb_true_r.
  induction t as [|c r IH]; [intros Hn; now contradiction Hn|].
  cbn [lstrip]. destruct (isspace c) eqn:Hc; [exact IH|].
  intros _. destruct (rstrip_head c r Hc) as [r' ->]. now rewrite Hc.
Qed.

Lemma ends_with_space_app (s t : string) :
  t <> EmptyString -> ends_with_space (s +:+ t) = ends_with_space t.
Proof.
  intros Ht. induction s as [|c s IH]; [reflexivity|].
  rewrite append_cons. destruct (s +:+ t) as [|d u] eqn:E.
  - destruct s; [rewrite append_nil_l in E; congruence|discriminate E].
  - exact IH.
Qed.

Lemma trimmed_app (s t : string) :
  trimmed s = true -> trimmed t = true -> trimmed (s +:+ t) = true.
Proof.
  unfold trimmed. destruct s as [|c s]; [discriminate|].
  intros [Hc _]%andb_true_iff [Ht He]%andb_true_iff.
  rewrite append_cons, Hc. rewrite <- append_cons.
  rewrite ends_with_space_app; [exact He|]. destruct t; [discriminate|congruence].
Qed.

Lemma concat_trimmed (l : list string) :
  Forall (fun t => trimmed t = true) l -> l <> [] ->
  trimmed (String.concat "" l) = true.
Proof.
  induction 1 as [|x l Hx Hl IH]; [congruence|]. intros _.
  destruct l as [|y l'].
  - exact Hx.
  - change (trimmed (x +:+ "" +:+ String.concat "" (y :: l')) = true).
    rewrite append_nil_l. apply trimmed_app; [exact Hx|].
    apply IH. discriminate.
Qed.

Lemma stripped_strings_trimmed (n : node) :
  Forall (fun t => trimmed t = true) (stripped_strings n).
Proof.
  induction n as [t|t|nm at_ ch IH] using node_forest_ind.
  - cbn [stripped_strings]. destruct (strip t) as [|c r] eqn:E; constructor;
      [|constructor]. rewrite <- E. apply strip_trimmed. now rewrite E.
  - constructor.
  - cbn [stripped_strings]. induction IH as [|x l Hx _ IHl]; simpl.
    + constructor.
    + apply Forall_app. split; assumption.
Qed.

Lemma non_empty_text_trimmed (n : node) :
  Forall (fun t => trimmed t = true) (non_empty (get_text_strip n)).
Proof.
  unfold non_empty. destruct (get_text_strip n) as [|c r] eqn:E; constructor;
    [|constructor].
  rewrite <- E. unfold get_text_strip in *.
  apply concat_trimmed; [apply stripped_strings_trimmed|].
  intros Hn. rewrite Hn in E. discriminate E.
Qed.

Lemma Forall_flat_map_all {A B : Type} (P : B -> Prop) (f : A -> list B)
    (l : list A) :
  Forall (fun x => Forall P (f x)) l -> Forall P (flat_map f l).
Proof.
  induction 1 as [|x l Hx _ IH]; simpl; [constructor|].
  apply Forall_app. now split.
Qed.

Lemma code_blocks_trimmed (n : node) :
  Forall (fun t => trimmed t = true) (code_blocks_of n).
Proof.
  induction n as [t|t|nm at_ ch IH] using node_forest_ind;
    [constructor..|].
  cbn [code_blocks_of]. destruct (String.eqb nm "code").
  - apply non_empty_text_trimmed.
  - now apply Forall_flat_map_all.
Qed.

Lemma text_blocks_trimmed (n : node) :
  Forall (fun t => trimmed t = true) (text_blocks_of n).
Proof.
  induction n as [t|t|nm at_ ch IH] using node_forest_ind;
    [constructor..|].
  cbn [text_blocks_of]. apply Forall_app. split.
  - destruct (_ || _); [apply non_empty_text_trimmed|constructor].
  - now apply Forall_flat_map_all.
Qed.

Section WithLibraries.
Context `{PyLibs} `{Soup}.

(** X24.  Every code span and every text span [extract_code_and_text]
    returns is non-empty and has no whitespace at either end. *)
Theorem extract_code_and_text_trimmed (html_content : string) :
  Forall (fun t => trimmed t = true) (fst (extract_code_and_text html_content))
  /\ Forall (fun t => trimmed t = true)
       (snd (extract_code_and_text html_content)).
Proof.
  unfold extract_code_and_text. cbn [fst snd]. split.
  - apply Forall_flat_map_all, Forall_forall. intros n _.
    apply code_blocks_trimmed.
  - apply Forall_flat_map_all, Forall_forall. intros n _.
    apply text_blocks_trimmed.
Qed.

End WithLibraries.

End PreprocessorProps.

(* ===================================================================== *)
(** * What [clean_html] removes and what it leaves *)
(* ===================================================================== *)

Module CleanHtmlFacts.

Import Text Form JSONCombiner Shape TextFacts.

Lemma decompose_delete (soup soup' : list node) :
  delete_notice soup soup' ->
  flat_map decompose_notices soup = flat_map decompose_notices soup'.
Proof.
  induction 1 as [nm at_ ch before after Hc|nm at_ ch ch' before after _ IH];
    rewrite !flat_map_app; f_equal; cbn [flat_map decompose_notices].
  - now rewrite Hc.
  - destruct (has_class "js-post-notice" at_); [reflexivity|]. now rewrite IH.
Qed.

Lemma no_notice_kept (n : node) :
  no_notice n = true -> decompose_notices n = [n].
Proof.
  induction n as [s|s|nm at_ ch IH] using node_forest_ind; try reflexivity.
  cbn [no_notice decompose_notices].
  intros [Hc Hch]%andb_true_iff. apply negb_true_iff in Hc. rewrite Hc.
  do 2 f_equal. apply CombinerProps.flat_map_singleton.
  rewrite forallb_forall in Hch. rewrite List.Forall_forall in IH |- *.
  intros x Hx. apply IH; [exact Hx|]. apply Hch. exact Hx.
Qed.

Lemma no_notice_fixed (soup : list node) :
  forallb no_notice soup = true -> flat_map decompose_notices soup = soup.
Proof.
  intros Hs. apply CombinerProps.flat_map_singleton.
  rewrite forallb_forall in Hs. apply List.Forall_forall.
  intros x Hx. apply no_notice_kept, Hs, Hx.
Qed.

Lemma clean_soup_delete (soup soup' : list node) :
  delete_notice soup soup' -> clean_soup soup = clean_soup soup'.
Proof. intros Hd. unfold clean_soup. now rewrite (decompose_delete _ _ Hd). Qed.

(** *** The tags of the serialised document *)

Section Serialised.
Import MiniSoup.

Lemma tags_allowed_plain (a b : string) :
  lacks "<" a = true -> tags_allowed (a +:+ b) = tags_allowed b.
Proof.
  induction a as [|c a IH]; [reflexivity|].
  rewrite PreprocessorProps.lacks_cons, append_cons. cbn [tags_allowed].
  intros [Hc Ha]%andb_true_iff. apply negb_true_iff in Hc. rewrite Hc.
  now apply IH.
Qed.

Lemma escape_plain (t : string) : lacks "<" (escape t) = true.
Proof.
  induction t as [|c t IH]; [reflexivity|]. cbn [escape].
  rewrite PreprocessorProps.lacks_app, IH, andb_true_r.
  destruct (ch_eqb c "&"); [reflexivity|].
  destruct (ch_eqb c "<") eqn:E; [reflexivity|].
  destruct (ch_eqb c ">"); [reflexivity|].
  rewrite PreprocessorProps.lacks_cons, E. reflexivity.
Qed.

Lemma replace_dquote_plain (v : string) :
  lacks "<" v = true -> lacks "<" (replace_dquote v) = true.
Proof.
  induction v as [|c v IH]; [reflexivity|].
  rewrite PreprocessorProps.lacks_cons. intros [Hc Hv]%andb_true_iff.
  cbn [replace_dquote]. rewrite PreprocessorProps.lacks_app, (IH Hv), andb_true_r.
  destruct (ch_eqb c dquote); [reflexivity|].
  rewrite PreprocessorProps.lacks_cons, Hc. reflexivity.
Qed.

Lemma quoted_attribute_value_plain (v : string) :
  lacks "<" v = true -> lacks "<" (quoted_attribute_value v) = true.
Proof.
  intros Hv. unfold quoted_attribute_value.
  destruct (contains dquote v); [destruct (contains "'" v)|];
    rewrite ?PreprocessorProps.lacks_app, ?PreprocessorProps.lacks_cons,
      ?replace_dquote_plain, ?Hv by exact Hv; reflexivity.
Qed.

Lemma render_attr_plain (kv : string * attr_value) :
  fst kv = "href" -> lacks "<" (render_attr kv) = true.
Proof.
  intros Hk. unfold render_attr. rewrite Hk.
  rewrite !PreprocessorProps.lacks_app.
  rewrite quoted_attribute_value_plain by apply escape_plain. reflexivity.
Qed.

Lemma render_attrs_plain (at_ : list (string * attr_value)) :
  Forall (fun kv => fst kv = "href") at_ ->
  lacks "<" (String.concat "" (map render_attr at_)) = true.
Proof.
  induction 1 as [|kv at_ Hk _ IH]; [reflexivity|].
  cbn [map]. rewrite concat_cons, PreprocessorProps.lacks_app, IH.
  now rewrite render_attr_plain.
Qed.

(** The start tag of an allowed element with its attributes cleaned. *)
Lemma start_tag_allowed (nm : string) (at_ : list (string * attr_value))
    (rest : string) :
  existsb (String.eqb nm) allowed_tags = true ->
  forallb (fun kv => String.eqb nm "a" && String.eqb (fst kv) "href") at_
  = true ->
  tags_allowed
    ("<" +:+ nm +:+ String.concat "" (map render_attr at_) +:+ ">" +:+ rest)
  = tags_allowed rest.
Proof.
  intros Hnm Hat.
  assert (Hhref : Forall (fun kv => fst kv = "href") at_).
  { apply List.Forall_forall. intros kv Hin. rewrite forallb_forall in Hat.
    specialize (Hat kv Hin). apply andb_true_iff in Hat as [_ Hk].
    now apply String.eqb_eq in Hk. }
  assert (Hplain := render_attrs_plain at_ Hhref).
  assert (Hopen : opens_allowed
            (nm +:+ String.concat "" (map render_attr at_) +:+ ">" +:+ rest)
          = true).
  { cbn [existsb allowed_tags] in Hnm. rewrite orb_false_r in Hnm.
    apply orb_true_iff in Hnm as [Hp|Hnm];
      [|apply orb_true_iff in Hnm as [Hp|Hp]]; apply String.eqb_eq in Hp;
      subst nm.
    - destruct at_ as [|kv at_]; [reflexivity|]. simpl in Hat. discriminate.
    - destruct at_ as [|kv at_]; [reflexivity|]. simpl in Hat. discriminate.
    - destruct at_ as [|kv at_]; [reflexivity|].
      cbn [map]. rewrite concat_cons. unfold render_attr.
      inversion Hhref as [|? ? Hk _]; subst. rewrite Hk. reflexivity. }
  rewrite append_cons, append_nil_l. cbn [tags_allowed].
  change (ch_eqb "<" "<") with true. cbv iota. rewrite Hopen, andb_true_l.
  rewrite <- !append_assoc. rewrite tags_allowed_plain; [reflexivity|].
  rewrite !PreprocessorProps.lacks_app, Hplain.
  cbn [existsb allowed_tags] in Hnm. rewrite orb_false_r in Hnm.
  apply orb_true_iff in Hnm as [Hp|Hnm];
    [|apply orb_true_iff in Hnm as [Hp|Hp]]; apply String.eqb_eq in Hp;
    subst nm; reflexivity.
Qed.

Lemma end_tag_allowed (nm rest : string) :
  existsb (String.eqb nm) allowed_tags = true ->
  tags_allowed ("</" +:+ nm +:+ ">" +:+ rest) = tags_allowed rest.
Proof.
  intros Hnm. cbn [existsb allowed_tags] in Hnm. rewrite orb_false_r in Hnm.
  apply orb_true_iff in Hnm as [Hp|Hnm];
    [|apply orb_true_iff in Hnm as [Hp|Hp]]; apply String.eqb_eq in Hp;
    subst nm; reflexivity.
Qed.

Lemma allowed_not_empty (nm : string) :
  existsb (String.eqb nm) allowed_tags = true -> is_empty_element nm = false.
Proof.
  intros Hnm. cbn [existsb allowed_tags] in Hnm. rewrite orb_false_r in Hnm.
  apply orb_true_iff in Hnm as [Hp|Hnm];
    [|apply orb_true_iff in Hnm as [Hp|Hp]]; apply String.eqb_eq in Hp;
    subst nm; reflexivity.
Qed.

Lemma render_allowed (n : node) :
  well_cleaned n = true -> elements_and_text n = true ->
  forall rest, tags_allowed (render n +:+ rest) = tags_allowed rest.
Proof.
  induction n as [s|s|nm at_ ch IH] using node_forest_ind.
  - intros _ _ rest. cbn [render]. apply tags_allowed_plain, escape_plain.
  - discriminate.
  - cbn [well_cleaned elements_and_text].
    intros [[Hnm Hat]%andb_true_iff Hch]%andb_true_iff Hcp rest.
    cbn [render]. rewrite (allowed_not_empty _ Hnm).
    rewrite !append_assoc.
    rewrite (start_tag_allowed nm at_ _ Hnm Hat).
    assert (Hkids : forall l,
              Forall (fun n => well_cleaned n = true ->
                        elements_and_text n = true ->
                        forall rest,
                          tags_allowed (render n +:+ rest) = tags_allowed rest) l ->
              forallb well_cleaned l = true ->
              forallb elements_and_text l = true ->
              forall rest,
                tags_allowed (String.concat "" (map render l) +:+ rest)
                = tags_allowed rest).
    { induction 1 as [|x l Hx _ IHl]; intros Hw Hc rest'; [reflexivity|].
      cbn [forallb] in Hw, Hc.
      apply andb_true_iff in Hw as [Hw1 Hw2].
      apply andb_true_iff in Hc as [Hc1 Hc2].
      cbn [map]. rewrite concat_cons, append_assoc.
      rewrite (Hx Hw1 Hc1). now apply IHl. }
    rewrite (Hkids ch IH Hch Hcp).
    apply (end_tag_allowed nm rest Hnm).
Qed.

Lemma to_str_allowed (soup : list node) :
  forallb well_cleaned soup = true -> forallb elements_and_text soup = true ->
  tags_allowed (to_str soup) = true.
Proof.
  unfold to_str. induction soup as [|n soup IH]; [reflexivity|].
  cbn [forallb map].
  intros [Hw1 Hw2]%andb_true_iff [Hc1 Hc2]%andb_true_iff.
  rewrite concat_cons, (render_allowed n Hw1 Hc1). now apply IH.
Qed.

(** *** Squeezing the whitespace leaves the tags as they are *)

Lemma sub_ws_prefix (p rest : string) :
  forall b, collapsed b p = true ->
    exists b', sub_ws b (p +:+ rest) = p +:+ sub_ws b' rest.
Proof.
  induction p as [|c p IH]; intros b; [now exists b|].
  rewrite append_cons. cbn [collapsed sub_ws].
  destruct (isspace c) eqn:Hc.
  - intros [[Hsp Hb]%andb_true_iff Hp]%andb_true_iff.
    apply negb_true_iff in Hb. subst b. apply Ascii.eqb_eq in Hsp. subst c.
    destruct (IH true Hp) as [b' ->]. now exists b'.
  - intros Hp. destruct (IH false Hp) as [b' ->]. now exists b'.
Qed.

(** The openers are in squeezed form. *)
Lemma tag_openers_tight (p : string) :
  In p tag_openers ->
  collapsed false p = true /\ p <> EmptyString /\ ends_with_space p = false.
Proof.
  intros Hin. repeat (destruct Hin as [<-|Hin]; [repeat split; congruence|]).
  destruct Hin.
Qed.

Lemma opens_allowed_inv (r : string) :
  opens_allowed r = true ->
  exists p rest, In p tag_openers /\ r = p +:+ rest.
Proof.
  unfold opens_allowed. rewrite existsb_exists. intros (p & Hin & Hp).
  destruct (starts_with p r) as [rest|] eqn:E; [|discriminate].
  exists p, rest. split; [exact Hin|]. now apply starts_with_eq.
Qed.

Lemma opens_allowed_intro (p rest : string) :
  In p tag_openers -> opens_allowed (p +:+ rest) = true.
Proof.
  intros Hin. unfold opens_allowed. apply existsb_exists. exists p.
  split; [exact Hin|]. now rewrite starts_with_app.
Qed.

Lemma opens_allowed_sub_ws (r : string) :
  opens_allowed r = true -> opens_allowed (sub_ws false r) = true.
Proof.
  intros (p & rest & Hin & ->)%opens_allowed_inv.
  destruct (tag_openers_tight p Hin) as (Hc & _ & _).
  destruct (sub_ws_prefix p rest false Hc) as [b' ->].
  now apply opens_allowed_intro.
Qed.

Lemma opens_allowed_rstrip (r : string) :
  opens_allowed r = true -> opens_allowed (rstrip r) = true.
Proof.
  intros (p & rest & Hin & ->)%opens_allowed_inv.
  destruct (tag_openers_tight p Hin) as (_ & Hn & He).
  rewrite (rstrip_prefix p rest Hn He). now apply opens_allowed_intro.
Qed.

Lemma tags_allowed_sub_ws (s : string) :
  forall b, tags_allowed s = true -> tags_allowed (sub_ws b s) = true.
Proof.
  induction s as [|c r IH]; intros b; [reflexivity|].
  cbn [tags_allowed sub_ws]. intros [Hc Hr]%andb_true_iff.
  destruct (isspace c) eqn:Hw.
  - destruct b; [now apply IH|]. cbn [tags_allowed].
    change (ch_eqb " " "<") with false. cbv iota. now apply IH.
  - cbn [tags_allowed]. rewrite (IH false Hr), andb_true_r.
    destruct (ch_eqb c "<"); [|reflexivity]. now apply opens_allowed_sub_ws.
Qed.

Lemma tags_allowed_lstrip (s : string) :
  tags_allowed s = true -> tags_allowed (lstrip s) = true.
Proof.
  induction s as [|c r IH]; [reflexivity|]. cbn [lstrip].
  destruct (isspace c); [|auto]. cbn [tags_allowed].
  intros [_ Hr]%andb_true_iff. now apply IH.
Qed.

Lemma tags_allowed_rstrip (s : string) :
  tags_allowed s = true -> tags_allowed (rstrip s) = true.
Proof.
  induction s as [|c r IH]; [reflexivity|]. rewrite rstrip_cons.
  cbn [tags_allowed]. intros [Hc Hr]%andb_true_iff. specialize (IH Hr).
  assert (Hkeep : tags_allowed (String c (rstrip r))
                  = (if ch_eqb c "<" then opens_allowed (rstrip r) else true))
    by (cbn [tags_allowed]; now rewrite IH, andb_true_r).
  destruct (ch_eqb c "<") eqn:E.
  - apply opens_allowed_rstrip in Hc. rewrite Hc in Hkeep.
    destruct (rstrip r) as [|d r'] eqn:Er; [discriminate Hc|exact Hkeep].
  - destruct (rstrip r) as [|d r'] eqn:Er; [|exact Hkeep].
    destruct (isspace c); [reflexivity|]. cbn [tags_allowed]. now rewrite E.
Qed.

Lemma tags_allowed_squeeze (s : string) :
  tags_allowed s = true -> tags_allowed (squeeze s) = true.
Proof.
  intros Hs. unfold squeeze, strip, collapse_ws.
  now apply tags_allowed_rstrip, tags_allowed_lstrip, tags_allowed_sub_ws.
Qed.

End Serialised.

Section WithLibraries.
Context `{Soup}.

(** C7.  For a string [s], [clean_html] returns the serialisation, with
    whitespace squeezed, of a document in which every element is a [p],
    [code] or [a], an anchor carries no attribute but [href] and the other
    elements carry none.  No element with the notice class is left after the
    first pass, at any depth; taking such an element out of a document, with
    all that stands inside it and wherever it stands, does not change the
    result, and the first pass removes nothing from a document without such
    elements: the result is that of the document with every notice element
    and its subtree deleted.  In the returned string, with the serialiser
    as [MiniSoup.to_str] has it and a document of elements and text, every
    [<] starts a start or end tag of [p], [code] or [a], and the start tag
    of an anchor has no attribute or [href] first. *)
Theorem clean_html_output (s : string) :
  clean_html (JStr s) = squeeze (soup_str (clean_soup (html_parser s)))
  /\ forallb well_cleaned (clean_soup (html_parser s)) = true
  /\ forallb no_notice (flat_map decompose_notices (html_parser s)) = true
  /\ (forall soup soup',
        delete_notice soup soup' -> clean_soup soup = clean_soup soup')
  /\ (forall soup,
        forallb no_notice soup = true ->
        flat_map decompose_notices soup = soup)
  /\ (forall parse : string -> list node,
        forallb elements_and_text (clean_soup (parse s)) = true ->
        tags_allowed
          (@clean_html {| html_parser := parse; soup_str := MiniSoup.to_str |}
             (JStr s))
        = true).
Proof.
  split; [reflexivity|].
  split; [apply JSONCombinerFacts.clean_soup_well_cleaned|].
  split.
  { apply JSONCombinerFacts.forallb_flat_map, List.Forall_forall. intros n _.
    apply JSONCombinerFacts.decompose_notices_no_notice. }
  split; [exact clean_soup_delete|]. split; [exact no_notice_fixed|].
  intros parse Hc. cbn [clean_html html_parser soup_str].
  apply tags_allowed_squeeze, to_str_allowed; [|exact Hc].
  apply JSONCombinerFacts.clean_soup_well_cleaned.
Qed.

End WithLibraries.

Lemma clean_html_output_witness :
  tags_allowed (@clean_html MiniSoup.mini_soup (JStr Examples.notice_markup))
  = true
  /\ clean_soup (MiniSoup.parse Examples.notice_markup)
     = clean_soup (MiniSoup.parse Examples.plain_markup).
Proof.
  destruct (@clean_html_output MiniSoup.mini_soup Examples.notice_markup)
    as (_ & _ & _ & Hdel & _ & Hstr).
  split.
  - apply (Hstr MiniSoup.parse). vm_compute. reflexivity.
  - apply Hdel. vm_compute.
    apply (delete_here "div" [("class", AttrList ["js-post-notice"])]
             [Tag "p" [] [NavigableString "closed"]] []).
    reflexivity.
Defined.

End CleanHtmlFacts.

(* ===================================================================== *)
(** * The repair of JSON text *)
(* ===================================================================== *)

Module JsonRepairFacts.

Import Text Form DataPreprocessor JsonText TextFacts.

(** *** Whitespace and single characters *)

Lemma json_ws_cases (c : ascii) :
  MiniJson.json_ws c = true ->
  c = " "%char \/ c = ascii_of_nat 9 \/ c = ascii_of_nat 10
  \/ c = ascii_of_nat 13.
Proof.
  unfold MiniJson.json_ws, ch_eqb. rewrite !orb_true_iff, !Ascii.eqb_eq.
  tauto.
Qed.

Lemma json_ws_isspace (c : ascii) :
  MiniJson.json_ws c = true -> isspace c = true.
Proof. intros [->|[->|[->| ->]]]%json_ws_cases; reflexivity. Qed.

Lemma json_ws_not (c x : ascii) :
  MiniJson.json_ws c = true -> isspace x = false -> ch_eqb c x = false.
Proof.
  intros Hc Hx. unfold ch_eqb. destruct (Ascii.eqb c x) eqn:E; [|reflexivity].
  apply Ascii.eqb_eq in E. subst x. apply json_ws_isspace in Hc. congruence.
Qed.

Lemma blank_cons (c : ascii) (w : string) :
  blank (String c w) = MiniJson.json_ws c && blank w.
Proof. reflexivity. Qed.

Lemma blank_app (w1 w2 : string) :
  blank w1 = true -> blank w2 = true -> blank (w1 +:+ w2) = true.
Proof.
  unfold blank. intros H1 H2. now rewrite PreprocessorProps.every_app, H1, H2.
Qed.

Lemma next_char_blank (w rest : string) :
  blank w = true -> next_char (w +:+ rest) = next_char rest.
Proof.
  induction w as [|c w IH]; [reflexivity|]. rewrite blank_cons.
  intros [Hc Hw]%andb_true_iff. rewrite append_cons.
  rewrite PreprocessorProps.next_char_cons, (json_ws_isspace _ Hc).
  now apply IH.
Qed.

Lemma next_char_first (c : ascii) (r : string) :
  isspace c = false -> next_char (String c r) = Some c.
Proof. intros Hc. now rewrite PreprocessorProps.next_char_cons, Hc. Qed.

(** *** The two substitutions, one character at a time *)

Lemma missing_cons (c : ascii) (r : string) :
  sub_missing_commas false (String c r)
  = if ch_eqb c "}" && is_char "{" (next_char r)
    then String "}" (String "," (sub_missing_commas true r))
    else String c (sub_missing_commas false r).
Proof. reflexivity. Qed.

Lemma missing_skip_cons (c : ascii) (r : string) :
  sub_missing_commas true (String c r)
  = if isspace c then sub_missing_commas true r
    else sub_missing_commas false (String c r).
Proof. cbn [sub_missing_commas andb]. now destruct (isspace c). Qed.

Lemma missing_other (c : ascii) (r : string) :
  ch_eqb c "}" = false ->
  sub_missing_commas false (String c r)
  = String c (sub_missing_commas false r).
Proof. intros Hc. now rewrite missing_cons, Hc. Qed.

Lemma missing_brace (r : string) :
  next_char r <> Some "{"%char ->
  sub_missing_commas false (String "}" r)
  = String "}" (sub_missing_commas false r).
Proof.
  intros Hn. rewrite missing_cons.
  destruct (next_char r) as [x|]; [|reflexivity]. cbn [is_char].
  destruct (ch_eqb "{" x) eqn:E; [|reflexivity].
  apply Ascii.eqb_eq in E. now subst x.
Qed.

Lemma missing_blank (w rest : string) :
  blank w = true ->
  sub_missing_commas false (w +:+ rest)
  = w +:+ sub_missing_commas false rest.
Proof.
  induction w as [|c w IH]; [reflexivity|]. rewrite blank_cons.
  intros [Hc Hw]%andb_true_iff. rewrite !append_cons.
  rewrite missing_other by (now apply json_ws_not). now rewrite IH.
Qed.

Lemma trailing_cons (c : ascii) (r : string) :
  sub_trailing_commas (String c r)
  = if ch_eqb c ","
       && (is_char "}" (next_char r) || is_char "]" (next_char r))
    then sub_trailing_commas r
    else String c (sub_trailing_commas r).
Proof. reflexivity. Qed.

Lemma trailing_other (c : ascii) (r : string) :
  ch_eqb c "," = false ->
  sub_trailing_commas (String c r) = String c (sub_trailing_commas r).
Proof. intros Hc. now rewrite trailing_cons, Hc. Qed.

Lemma trailing_blank (w rest : string) :
  blank w = true ->
  sub_trailing_commas (w +:+ rest) = w +:+ sub_trailing_commas rest.
Proof.
  induction w as [|c w IH]; [reflexivity|]. rewrite blank_cons.
  intros [Hc Hw]%andb_true_iff. rewrite !append_cons.
  rewrite trailing_other by (now apply json_ws_not). now rewrite IH.
Qed.

(** A comma before a closing bracket or brace goes, any other stays. *)
Lemma trailing_comma_dropped (r : string) :
  next_char r = Some "]"%char \/ next_char r = Some "}"%char ->
  sub_trailing_commas (String "," r) = sub_trailing_commas r.
Proof. rewrite trailing_cons. intros [->| ->]; reflexivity. Qed.

Lemma trailing_comma_kept (r : string) :
  next_char r <> Some "]"%char -> next_char r <> Some "}"%char ->
  sub_trailing_commas (String "," r)
  = String "," (sub_trailing_commas r).
Proof.
  intros H1 H2. rewrite trailing_cons.
  destruct (next_char r) as [x|]; [|reflexivity]. cbn [is_char].
  destruct (ch_eqb "}" x) eqn:E1.
  { apply Ascii.eqb_eq in E1. now subst x. }
  destruct (ch_eqb "]" x) eqn:E2; [|reflexivity].
  apply Ascii.eqb_eq in E2. now subst x.
Qed.

(** *** Numbers and literals *)

Lemma span_until_spec (stop : ascii -> bool) (s : string) :
  forall a b,
    span_until stop s = (a, b) ->
    s = a +:+ b /\ every (fun c => negb (stop c)) a = true.
Proof.
  induction s as [|c r IH]; intros a b; cbn [span_until].
  - intros [= <- <-]. now split.
  - destruct (stop c) eqn:Hc; [intros [= <- <-]; now split|].
    destruct (span_until stop r) as [a' b'] eqn:E. intros [= <- <-].
    destruct (IH a' b' eq_refl) as [-> Ha]. split; [reflexivity|].
    cbn [every]. now rewrite Hc, Ha.
Qed.

Lemma digit_atom (c : ascii) : MiniJson.is_digit c = true -> atom_char c = true.
Proof. unfold atom_char. now intros ->. Qed.

Lemma take_digits_spec (s d r : string) :
  MiniJson.take_digits s = (d, r) ->
  s = d +:+ r /\ every atom_char d = true.
Proof.
  intros [Hs Hd]%span_until_spec. split; [exact Hs|].
  revert Hd. apply PreprocessorProps.every_impl. intros c Hc.
  apply digit_atom. now rewrite negb_involutive in Hc.
Qed.

Lemma atom_char_kind (c : ascii) :
  atom_char c = true ->
  isspace c = false /\ ch_eqb c "}" = false /\ ch_eqb c "]" = false
  /\ ch_eqb c "," = false.
Proof. destruct c as [[] [] [] [] [] [] [] []]; vm_compute; auto. Qed.

Lemma scan_sign_spec (s p r : string) :
  MiniJson.scan_sign s = (p, r) -> s = p +:+ r /\ every atom_char p = true.
Proof.
  unfold MiniJson.scan_sign. destruct s as [|c s]; [now intros [= <- <-]|].
  destruct (ch_eqb c "-") eqn:E; intros [= <- <-]; [|now split].
  apply Ascii.eqb_eq in E. subst c. now split.
Qed.

Lemma scan_int_spec (s p r : string) :
  MiniJson.scan_int s = Some (p, r) ->
  s = p +:+ r /\ every atom_char p = true /\ p <> EmptyString.
Proof.
  unfold MiniJson.scan_int. destruct s as [|c s]; [discriminate|].
  destruct (ch_eqb c "0") eqn:E.
  - intros [= <- <-]. apply Ascii.eqb_eq in E. subst c. now repeat split.
  - destruct (MiniJson.take_digits (String c s)) as [d r'] eqn:Ed.
    destruct d as [|x d]; [discriminate|]. intros [= <- <-].
    destruct (take_digits_spec _ _ _ Ed) as [Hs Hd]. now repeat split.
Qed.

Lemma scan_frac_spec (s p r : string) :
  MiniJson.scan_frac s = (p, r) -> s = p +:+ r /\ every atom_char p = true.
Proof.
  unfold MiniJson.scan_frac. destruct s as [|c s]; [now intros [= <- <-]|].
  destruct (ch_eqb c ".") eqn:E; [|now intros [= <- <-]].
  destruct (MiniJson.take_digits s) as [d r'] eqn:Ed.
  destruct (take_digits_spec _ _ _ Ed) as [Hs Hd].
  destruct d as [|x d]; intros [= <- <-]; [now split|].
  apply Ascii.eqb_eq in E. subst c. split; [now rewrite Hs|].
  cbn [every] in *. now rewrite Hd.
Qed.

Lemma scan_exp_spec (s p r : string) :
  MiniJson.scan_exp s = (p, r) -> s = p +:+ r /\ every atom_char p = true.
Proof.
  unfold MiniJson.scan_exp. destruct s as [|e s]; [now intros [= <- <-]|].
  destruct (ch_eqb e "e" || ch_eqb e "E") eqn:E; [|now intros [= <- <-]].
  assert (He : atom_char e = true).
  { apply orb_true_iff in E as [E|E]; apply Ascii.eqb_eq in E; now subst e. }
  assert (Hsg : exists sg r1,
             match s with
             | String g r0 =>
                 if ch_eqb g "+" || ch_eqb g "-"
                 then (String g EmptyString, r0) else (EmptyString, s)
             | EmptyString => (EmptyString, s)
             end = (sg, r1)
             /\ s = sg +:+ r1 /\ every atom_char sg = true).
  { destruct s as [|g r0]; [now exists EmptyString, EmptyString|].
    destruct (ch_eqb g "+" || ch_eqb g "-") eqn:G.
    - exists (String g EmptyString), r0. repeat split.
      apply orb_true_iff in G as [G|G]; apply Ascii.eqb_eq in G; now subst g.
    - now exists EmptyString, (String g r0). }
  destruct Hsg as (sg & r1 & -> & Hs & Hsg).
  destruct (MiniJson.take_digits r1) as [d r2] eqn:Ed.
  destruct (take_digits_spec _ _ _ Ed) as [Hr1 Hd].
  destruct d as [|x d]; intros [= <- <-]; [now split|]. split.
  - rewrite Hs, Hr1.
    now rewrite (append_cons e (sg +:+ String x d) r2), append_assoc.
  - cbn [every]. rewrite He, PreprocessorProps.every_app, Hsg, Hd. reflexivity.
Qed.

Lemma scan_number_spec (s lex rest : string) :
  MiniJson.scan_number s = Some (lex, rest) ->
  s = lex +:+ rest /\ every atom_char lex = true /\ lex <> EmptyString.
Proof.
  unfold MiniJson.scan_number.
  destruct (MiniJson.scan_sign s) as [sign s1] eqn:E1.
  destruct (MiniJson.scan_int s1) as [[int s2]|] eqn:E2; [|discriminate].
  cbn. destruct (MiniJson.scan_frac s2) as [frac s3] eqn:E3.
  destruct (MiniJson.scan_exp s3) as [ex s4] eqn:E4. intros [= <- <-].
  destruct (scan_sign_spec _ _ _ E1) as [-> H1].
  destruct (scan_int_spec _ _ _ E2) as (-> & H2 & Hn).
  destruct (scan_frac_spec _ _ _ E3) as [-> H3].
  destruct (scan_exp_spec _ _ _ E4) as [-> H4].
  split; [now rewrite !append_assoc|]. split.
  - now rewrite !PreprocessorProps.every_app, H1, H2, H3, H4.
  - destruct sign; [|discriminate]. destruct int; [congruence|discriminate].
Qed.

Lemma scan_literal_spec (lits : list (string * json)) (s : string) :
  forall v rest,
    MiniJson.scan_literal lits s = Some (v, rest) ->
    exists nm, In nm (map fst lits) /\ s = nm +:+ rest.
Proof.
  induction lits as [|[nm v'] lits IH]; intros v rest; cbn; [discriminate|].
  destruct (starts_with nm s) as [r|] eqn:E.
  - intros [= <- <-]. exists nm. split; [now left|].
    now apply starts_with_eq.
  - intros Hs. destruct (IH _ _ Hs) as (nm' & Hin & ->). exists nm'.
    split; [now right|reflexivity].
Qed.

Lemma atom_chars (a : string) :
  is_atom a = true -> every atom_char a = true /\ a <> EmptyString.
Proof.
  unfold is_atom.
  assert (Hnum : match MiniJson.scan_number a with
                 | Some (_, EmptyString) => true
                 | _ => false
                 end = true ->
                 every atom_char a = true /\ a <> EmptyString).
  { destruct (MiniJson.scan_number a) as [[lex [|c rest]]|] eqn:E;
      try discriminate.
    intros _. destruct (scan_number_spec _ _ _ E) as (-> & Hl & Hn).
    rewrite append_nil_r. now split. }
  destruct (MiniJson.scan_literal MiniJson.literals a) as [[v [|c rest]]|] eqn:E;
    try exact Hnum.
  intros _. destruct (scan_literal_spec _ _ _ _ E) as (nm & Hin & ->).
  rewrite append_nil_r.
  repeat (destruct Hin as [<-|Hin]; [now split|]). destruct Hin.
Qed.


(** *** String literals *)

Lemma char_differs (p : ascii -> bool) (c x : ascii) :
  p c = true -> p x = false -> ch_eqb c x = false.
Proof.
  intros Hc Hx. unfold ch_eqb. destruct (Ascii.eqb c x) eqn:E; [|reflexivity].
  apply Ascii.eqb_eq in E. subst x. congruence.
Qed.

Lemma missing_any (skip : bool) (c : ascii) (r : string) :
  isspace c = false -> ch_eqb c "}" = false ->
  sub_missing_commas skip (String c r)
  = String c (sub_missing_commas false r).
Proof.
  intros Hs Hc. destruct skip; [rewrite missing_skip_cons, Hs|];
    now apply missing_other.
Qed.

Lemma missing_body (body : string) :
  str_body body ->
  forall skip rest,
    exists body',
      str_body body'
      /\ sub_missing_commas skip (body +:+ String dquote rest)
         = body' +:+ String dquote (sub_missing_commas false rest).
Proof.
  induction 1 as [|c r Hc _ IH|e r He _ IH|h1 h2 h3 h4 r H1 H2 H3 H4 _ IH];
    intros skip rest.
  - exists EmptyString. split; [constructor|].
    rewrite !append_nil_l. now apply missing_any.
  - rewrite append_cons.
    assert (Hfalse : exists body',
               str_body body'
               /\ sub_missing_commas false (String c (r +:+ String dquote rest))
                  = body' +:+ String dquote (sub_missing_commas false rest)).
    { rewrite missing_cons.
      destruct (ch_eqb c "}" && is_char "{" (next_char (r +:+ String dquote rest))).
      - destruct (IH true rest) as (b & Hb & ->).
        exists (String "}" (String "," b)).
        split; [|reflexivity]. now repeat (apply body_char; [reflexivity|]).
      - destruct (IH false rest) as (b & Hb & ->).
        exists (String c b). split; [|reflexivity]. now apply body_char. }
    destruct skip; [|exact Hfalse]. rewrite missing_skip_cons.
    destruct (isspace c); [|exact Hfalse]. apply IH.
  - destruct (IH false rest) as (b & Hb & Hr).
    exists (String backslash (String e b)). split; [now apply body_escape|].
    rewrite !append_cons. rewrite missing_any by reflexivity.
    rewrite missing_other by (now apply (char_differs escape_char)).
    now rewrite Hr.
  - destruct (IH false rest) as (b & Hb & Hr).
    exists (String backslash
              (String "u" (String h1 (String h2 (String h3 (String h4 b)))))).
    split; [now apply body_unicode|].
    rewrite !append_cons. rewrite missing_any by reflexivity.
    rewrite (missing_other "u") by reflexivity.
    rewrite !missing_other by (now apply (char_differs hex_char)).
    now rewrite Hr.
Qed.

Lemma trailing_body (body : string) :
  str_body body ->
  forall rest,
    exists body',
      str_body body'
      /\ sub_trailing_commas (body +:+ String dquote rest)
         = body' +:+ String dquote (sub_trailing_commas rest).
Proof.
  induction 1 as [|c r Hc _ IH|e r He _ IH|h1 h2 h3 h4 r H1 H2 H3 H4 _ IH];
    intros rest.
  - exists EmptyString. split; [constructor|].
    rewrite !append_nil_l. now apply trailing_other.
  - destruct (IH rest) as (b & Hb & Hr). rewrite append_cons, trailing_cons.
    destruct (ch_eqb c "," && _).
    + exists b. now split.
    + exists (String c b). split; [now apply body_char|]. now rewrite Hr.
  - destruct (IH rest) as (b & Hb & Hr).
    exists (String backslash (String e b)). split; [now apply body_escape|].
    rewrite !append_cons. rewrite trailing_other by reflexivity.
    rewrite trailing_other by (now apply (char_differs escape_char)).
    now rewrite Hr.
  - destruct (IH rest) as (b & Hb & Hr).
    exists (String backslash
              (String "u" (String h1 (String h2 (String h3 (String h4 b)))))).
    split; [now apply body_unicode|].
    rewrite !append_cons. rewrite trailing_other by reflexivity.
    rewrite (trailing_other "u") by reflexivity.
    rewrite !trailing_other by (now apply (char_differs hex_char)).
    now rewrite Hr.
Qed.

Lemma quoted_app (body rest : string) :
  quoted body +:+ rest = String dquote (body +:+ String dquote rest).
Proof.
  unfold quoted. now rewrite append_cons, append_assoc, append_cons.
Qed.

Ltac flatten :=
  rewrite ?append_assoc; rewrite ?quoted_app;
  rewrite ?append_cons, ?append_nil_l.

Lemma missing_atom (a rest : string) :
  every atom_char a = true ->
  sub_missing_commas false (a +:+ rest)
  = a +:+ sub_missing_commas false rest.
Proof.
  induction a as [|c a IH]; [reflexivity|]. cbn [every].
  intros [Hc Ha]%andb_true_iff. rewrite !append_cons.
  rewrite missing_other by (now apply atom_char_kind). now rewrite IH.
Qed.

Lemma trailing_atom (a rest : string) :
  every atom_char a = true ->
  sub_trailing_commas (a +:+ rest) = a +:+ sub_trailing_commas rest.
Proof.
  induction a as [|c a IH]; [reflexivity|]. cbn [every].
  intros [Hc Ha]%andb_true_iff. rewrite !append_cons.
  rewrite trailing_other by (now apply atom_char_kind). now rewrite IH.
Qed.

Lemma next_not_brace (c x : ascii) (r : string) :
  isspace c = false -> ch_eqb c x = false ->
  next_char (String c r) <> Some x.
Proof.
  intros Hs Hc. rewrite next_char_first by exact Hs. intros [= ->].
  unfold ch_eqb in Hc. now rewrite Ascii.eqb_refl in Hc.
Qed.

(** *** Missing commas: a text of the grammar stays one *)

Lemma missing_json (trailing : bool) :
  (forall s, value trailing s ->
     forall rest, next_char rest <> Some "{"%char ->
       exists s', value trailing s'
         /\ sub_missing_commas false (s +:+ rest)
            = s' +:+ sub_missing_commas false rest)
  /\ (forall s, element trailing s ->
        forall rest, next_char rest <> Some "{"%char ->
          exists s', element trailing s'
            /\ sub_missing_commas false (s +:+ rest)
               = s' +:+ sub_missing_commas false rest)
  /\ (forall s, member trailing s ->
        forall rest, next_char rest <> Some "{"%char ->
          exists s', member trailing s'
            /\ sub_missing_commas false (s +:+ rest)
               = s' +:+ sub_missing_commas false rest)
  /\ (forall n s, items trailing n s ->
        forall rest, next_char rest <> Some "{"%char ->
          exists s', items trailing n s'
            /\ sub_missing_commas false (s +:+ rest)
               = s' +:+ sub_missing_commas false rest)
  /\ (forall s, fields trailing s ->
        forall rest, next_char rest <> Some "{"%char ->
          exists s', fields trailing s'
            /\ sub_missing_commas false (s +:+ rest)
               = s' +:+ sub_missing_commas false rest).
Proof.
  apply json_text_ind.
  - intros a Ha rest _. exists a. split; [now apply value_atom|].
    now apply missing_atom, atom_chars.
  - intros body Hb rest _.
    destruct (missing_body body Hb false rest) as (b & Hb' & Hr).
    exists (quoted b). split; [now apply value_string|]. flatten.
    rewrite missing_other by reflexivity. now rewrite Hr.
  - intros w Hw rest _. exists ("[" +:+ w +:+ "]").
    split; [now apply value_empty_array|]. flatten.
    rewrite missing_other by reflexivity. rewrite (missing_blank _ _ Hw).
    now rewrite missing_other by reflexivity.
  - intros n s _ IH rest _.
    destruct (IH (String "]" rest)) as (s' & Hs' & Hr);
      [now apply next_not_brace|].
    exists ("[" +:+ s' +:+ "]"). split; [now apply (value_array trailing n)|]. flatten.
    rewrite missing_other by reflexivity. rewrite Hr.
    now rewrite missing_other by reflexivity.
  - intros w Hw rest Hn. exists ("{" +:+ w +:+ "}").
    split; [now apply value_empty_object|]. flatten.
    rewrite missing_other by reflexivity. rewrite (missing_blank _ _ Hw).
    now rewrite (missing_brace _ Hn).
  - intros s _ IH rest Hn.
    destruct (IH (String "}" rest)) as (s' & Hs' & Hr);
      [now apply next_not_brace|].
    exists ("{" +:+ s' +:+ "}"). split; [now apply value_object|]. flatten.
    rewrite missing_other by reflexivity. rewrite Hr.
    now rewrite (missing_brace _ Hn).
  - intros w1 v w2 Hw1 _ IH Hw2 rest Hn.
    destruct (IH (w2 +:+ rest)) as (v' & Hv' & Hr);
      [now rewrite next_char_blank|].
    exists (w1 +:+ v' +:+ w2). split; [now apply element_intro|]. flatten.
    rewrite (missing_blank _ _ Hw1), Hr. now rewrite (missing_blank _ _ Hw2).
  - intros w1 k w2 e Hw1 Hk Hw2 _ IH rest Hn.
    destruct (IH rest Hn) as (e' & He' & Hr).
    destruct (missing_body k Hk false (w2 +:+ String ":" (e +:+ rest)))
      as (k' & Hk' & Hrk).
    exists (w1 +:+ quoted k' +:+ w2 +:+ ":" +:+ e').
    split; [now apply member_intro|]. flatten.
    rewrite (missing_blank _ _ Hw1).
    rewrite missing_other by reflexivity. rewrite Hrk.
    rewrite (missing_blank _ _ Hw2).
    rewrite missing_other by reflexivity. now rewrite Hr.
  - intros e _ IH rest Hn. destruct (IH rest Hn) as (e' & He' & Hr).
    exists e'. split; [now apply items_last|exact Hr].
  - intros e w Ht _ IH Hw rest Hn.
    destruct (IH (String "," (w +:+ rest))) as (e' & He' & Hr);
      [now apply next_not_brace|].
    exists (e' +:+ "," +:+ w). split; [now apply items_trailing|]. flatten.
    rewrite Hr. rewrite missing_other by reflexivity.
    now rewrite (missing_blank _ _ Hw).
  - intros e n r _ IHe _ IHr rest Hn.
    destruct (IHr rest Hn) as (r' & Hr' & Hrr).
    destruct (IHe (String "," (r +:+ rest))) as (e' & He' & Hre);
      [now apply next_not_brace|].
    exists (e' +:+ "," +:+ r'). split; [now apply items_more|]. flatten.
    rewrite Hre. rewrite missing_other by reflexivity. now rewrite Hrr.
  - intros m _ IH rest Hn. destruct (IH rest Hn) as (m' & Hm' & Hr).
    exists m'. split; [now apply fields_last|exact Hr].
  - intros m w Ht _ IH Hw rest Hn.
    destruct (IH (String "," (w +:+ rest))) as (m' & Hm' & Hr);
      [now apply next_not_brace|].
    exists (m' +:+ "," +:+ w). split; [now apply fields_trailing|]. flatten.
    rewrite Hr. rewrite missing_other by reflexivity.
    now rewrite (missing_blank _ _ Hw).
  - intros m r _ IHm _ IHr rest Hn.
    destruct (IHr rest Hn) as (r' & Hr' & Hrr).
    destruct (IHm (String "," (r +:+ rest))) as (m' & Hm' & Hrm);
      [now apply next_not_brace|].
    exists (m' +:+ "," +:+ r'). split; [now apply fields_more|]. flatten.
    rewrite Hrm. rewrite missing_other by reflexivity. now rewrite Hrr.
Qed.

(** *** Trailing commas: what is left has none *)

(** A value does not start with a closing bracket. *)
Lemma value_next (trailing : bool) (v rest : string) :
  value trailing v ->
  next_char (v +:+ rest) <> Some "]"%char
  /\ next_char (v +:+ rest) <> Some "}"%char.
Proof.
  intros Hv. destruct Hv as [a Ha|body _|w _|n s _|w _|s _];
    try (flatten; split; now apply next_not_brace).
  destruct (atom_chars a Ha) as [Hc Hn]. destruct a as [|c a]; [congruence|].
  cbn [every] in Hc. apply andb_true_iff in Hc as [Hc _].
  destruct (atom_char_kind c Hc) as (Hs & H1 & H2 & _).
  rewrite append_cons. split; now apply next_not_brace.
Qed.

Lemma element_next (trailing : bool) (e rest : string) :
  element trailing e ->
  next_char (e +:+ rest) <> Some "]"%char
  /\ next_char (e +:+ rest) <> Some "}"%char.
Proof.
  intros [w1 v w2 Hw1 Hv Hw2]. rewrite !append_assoc.
  rewrite (next_char_blank _ _ Hw1). now apply (value_next trailing).
Qed.

Lemma member_next (trailing : bool) (m rest : string) :
  member trailing m ->
  next_char (m +:+ rest) <> Some "]"%char
  /\ next_char (m +:+ rest) <> Some "}"%char.
Proof.
  intros [w1 k w2 e Hw1 Hk Hw2 He]. rewrite !append_assoc.
  rewrite (next_char_blank _ _ Hw1). flatten.
  split; now apply next_not_brace.
Qed.

Lemma items_next (trailing : bool) (n : nat) (s rest : string) :
  items trailing n s ->
  next_char (s +:+ rest) <> Some "]"%char
  /\ next_char (s +:+ rest) <> Some "}"%char.
Proof.
  intros [e He|e w _ He _|e n' r He _]; rewrite ?append_assoc;
    now apply (element_next trailing).
Qed.

Lemma fields_next (trailing : bool) (s rest : string) :
  fields trailing s ->
  next_char (s +:+ rest) <> Some "]"%char
  /\ next_char (s +:+ rest) <> Some "}"%char.
Proof.
  intros [m Hm|m w _ Hm _|m r Hm _]; rewrite ?append_assoc;
    now apply (member_next trailing).
Qed.

Lemma element_blank (trailing : bool) (e w : string) :
  element trailing e -> blank w = true -> element trailing (e +:+ w).
Proof.
  intros [w1 v w2 Hw1 Hv Hw2] Hw. rewrite !append_assoc.
  apply element_intro; [exact Hw1|exact Hv|now apply blank_app].
Qed.

Lemma member_blank (trailing : bool) (m w : string) :
  member trailing m -> blank w = true -> member trailing (m +:+ w).
Proof.
  intros [w1 k w2 e Hw1 Hk Hw2 He] Hw. rewrite !append_assoc.
  apply member_intro; [exact Hw1|exact Hk|exact Hw2|].
  now apply element_blank.
Qed.

Lemma closes_blank (w rest : string) :
  blank w = true -> closes rest -> closes (w +:+ rest).
Proof. intros Hw. unfold closes. now rewrite (next_char_blank _ _ Hw). Qed.

Lemma trailing_json (trailing : bool) :
  (forall s, value trailing s ->
     forall rest,
       exists s', value false s'
         /\ sub_trailing_commas (s +:+ rest) = s' +:+ sub_trailing_commas rest)
  /\ (forall s, element trailing s ->
        forall rest,
          exists s', element false s'
            /\ sub_trailing_commas (s +:+ rest)
               = s' +:+ sub_trailing_commas rest)
  /\ (forall s, member trailing s ->
        forall rest,
          exists s', member false s'
            /\ sub_trailing_commas (s +:+ rest)
               = s' +:+ sub_trailing_commas rest)
  /\ (forall n s, items trailing n s ->
        forall rest, closes rest ->
          exists s', items false n s'
            /\ sub_trailing_commas (s +:+ rest)
               = s' +:+ sub_trailing_commas rest)
  /\ (forall s, fields trailing s ->
        forall rest, closes rest ->
          exists s', fields false s'
            /\ sub_trailing_commas (s +:+ rest)
               = s' +:+ sub_trailing_commas rest).
Proof.
  apply json_text_ind.
  - intros a Ha rest. exists a. split; [now apply value_atom|].
    now apply trailing_atom, atom_chars.
  - intros body Hb rest.
    destruct (trailing_body body Hb rest) as (b & Hb' & Hr).
    exists (quoted b). split; [now apply value_string|]. flatten.
    rewrite trailing_other by reflexivity. now rewrite Hr.
  - intros w Hw rest. exists ("[" +:+ w +:+ "]").
    split; [now apply value_empty_array|]. flatten.
    rewrite trailing_other by reflexivity. rewrite (trailing_blank _ _ Hw).
    now rewrite trailing_other by reflexivity.
  - intros n s _ IH rest.
    destruct (IH (String "]" rest)) as (s' & Hs' & Hr); [now left|].
    exists ("[" +:+ s' +:+ "]"). split; [now apply (value_array false n)|].
    flatten. rewrite trailing_other by reflexivity. rewrite Hr.
    now rewrite trailing_other by reflexivity.
  - intros w Hw rest. exists ("{" +:+ w +:+ "}").
    split; [now apply value_empty_object|]. flatten.
    rewrite trailing_other by reflexivity. rewrite (trailing_blank _ _ Hw).
    now rewrite trailing_other by reflexivity.
  - intros s _ IH rest.
    destruct (IH (String "}" rest)) as (s' & Hs' & Hr); [now right|].
    exists ("{" +:+ s' +:+ "}"). split; [now apply value_object|]. flatten.
    rewrite trailing_other by reflexivity. rewrite Hr.
    now rewrite trailing_other by reflexivity.
  - intros w1 v w2 Hw1 _ IH Hw2 rest.
    destruct (IH (w2 +:+ rest)) as (v' & Hv' & Hr).
    exists (w1 +:+ v' +:+ w2). split; [now apply element_intro|]. flatten.
    rewrite (trailing_blank _ _ Hw1), Hr.
    now rewrite (trailing_blank _ _ Hw2).
  - intros w1 k w2 e Hw1 Hk Hw2 _ IH rest.
    destruct (IH rest) as (e' & He' & Hr).
    destruct (trailing_body k Hk (w2 +:+ String ":" (e +:+ rest)))
      as (k' & Hk' & Hrk).
    exists (w1 +:+ quoted k' +:+ w2 +:+ ":" +:+ e').
    split; [now apply member_intro|]. flatten.
    rewrite (trailing_blank _ _ Hw1).
    rewrite trailing_other by reflexivity. rewrite Hrk.
    rewrite (trailing_blank _ _ Hw2).
    rewrite trailing_other by reflexivity. now rewrite Hr.
  - intros e _ IH rest _. destruct (IH rest) as (e' & He' & Hr).
    exists e'. split; [now apply items_last|exact Hr].
  - intros e w _ _ IH Hw rest Hc.
    destruct (IH (String "," (w +:+ rest))) as (e' & He' & Hr).
    exists (e' +:+ w).
    split; [now apply items_last, element_blank|]. flatten.
    rewrite Hr. rewrite trailing_comma_dropped by (now apply closes_blank).
    now rewrite (trailing_blank _ _ Hw).
  - intros e n r _ IHe Hi IHr rest Hc.
    destruct (IHr rest Hc) as (r' & Hr' & Hrr).
    destruct (IHe (String "," (r +:+ rest))) as (e' & He' & Hre).
    exists (e' +:+ "," +:+ r'). split; [now apply items_more|]. flatten.
    rewrite Hre.
    destruct (items_next trailing n r rest Hi) as [H1 H2].
    rewrite (trailing_comma_kept _ H1 H2). now rewrite Hrr.
  - intros m _ IH rest _. destruct (IH rest) as (m' & Hm' & Hr).
    exists m'. split; [now apply fields_last|exact Hr].
  - intros m w _ _ IH Hw rest Hc.
    destruct (IH (String "," (w +:+ rest))) as (m' & Hm' & Hr).
    exists (m' +:+ w).
    split; [now apply fields_last, member_blank|]. flatten.
    rewrite Hr. rewrite trailing_comma_dropped by (now apply closes_blank).
    now rewrite (trailing_blank _ _ Hw).
  - intros m r _ IHm Hf IHr rest Hc.
    destruct (IHr rest Hc) as (r' & Hr' & Hrr).
    destruct (IHm (String "," (r +:+ rest))) as (m' & Hm' & Hrm).
    exists (m' +:+ "," +:+ r'). split; [now apply fields_more|]. flatten.
    rewrite Hrm.
    destruct (fields_next trailing r rest Hf) as [H1 H2].
    rewrite (trailing_comma_kept _ H1 H2). now rewrite Hrr.
Qed.

(** *** The whole repair *)

Lemma array_missing (trailing : bool) (n : nat) (t : string) :
  array trailing n t -> array trailing n (sub_missing_commas false t).
Proof.
  intros [w Hw|n' s Hs].
  - flatten. rewrite missing_other by reflexivity.
    rewrite (missing_blank _ _ Hw).
    now apply (array_empty trailing w).
  - destruct (missing_json trailing) as (_ & _ & _ & Hi & _).
    destruct (Hi n' s Hs "]") as (s' & Hs' & Hr); [now apply next_not_brace|].
    flatten. rewrite missing_other by reflexivity. rewrite Hr.
    now apply (array_items trailing n' s').
Qed.

Lemma array_trailing (trailing : bool) (n : nat) (t : string) :
  array trailing n t -> array false n (sub_trailing_commas t).
Proof.
  intros [w Hw|n' s Hs].
  - flatten. rewrite trailing_other by reflexivity.
    rewrite (trailing_blank _ _ Hw).
    now apply (array_empty false w).
  - destruct (trailing_json trailing) as (_ & _ & _ & Hi & _).
    destruct (Hi n' s Hs "]") as (s' & Hs' & Hr); [now left|].
    flatten. rewrite trailing_other by reflexivity. rewrite Hr.
    now apply (array_items false n' s').
Qed.

Lemma lstrip_blank (w t : string) :
  blank w = true -> lstrip (w +:+ t) = lstrip t.
Proof.
  induction w as [|c w IH]; [reflexivity|]. rewrite blank_cons.
  intros [Hc Hw]%andb_true_iff. rewrite append_cons. cbn [lstrip].
  rewrite (json_ws_isspace _ Hc). now apply IH.
Qed.

Lemma rstrip_blank (w : string) : blank w = true -> rstrip w = EmptyString.
Proof.
  induction w as [|c w IH]; [reflexivity|]. rewrite blank_cons.
  intros [Hc Hw]%andb_true_iff. rewrite rstrip_cons, (IH Hw).
  now rewrite (json_ws_isspace _ Hc).
Qed.

(** Whitespace around a text that starts and ends with a bracket or brace
    is stripped, and nothing else. *)
Lemma strip_padding (w0 w1 t : string) (c d : ascii) :
  blank w0 = true -> blank w1 = true ->
  first_char t = Some c -> isspace c = false ->
  last_char t = Some d -> isspace d = false ->
  strip (w0 +:+ t +:+ w1) = t.
Proof.
  intros Hw0 Hw1 Hf Hc Hl Hd. unfold strip. rewrite (lstrip_blank _ _ Hw0).
  destruct t as [|x t]; [discriminate|]. injection Hf as ->.
  rewrite append_cons. cbn [lstrip]. rewrite Hc. rewrite <- append_cons.
  rewrite rstrip_prefix.
  - now rewrite (rstrip_blank _ Hw1), append_nil_r.
  - discriminate.
  - clear Hc. revert c Hl. induction t as [|y t IH]; intros c Hl.
    + injection Hl as ->. exact Hd.
    + change (ends_with_space (String y t) = false). apply (IH y).
      exact Hl.
Qed.

Lemma last_char_app (s t : string) :
  t <> EmptyString -> last_char (s +:+ t) = last_char t.
Proof.
  intros Ht. induction s as [|c s IH]; [reflexivity|].
  rewrite append_cons, PreprocessorProps.last_char_tail; [exact IH|].
  destruct s; [exact Ht|discriminate].
Qed.

Lemma array_ends (trailing : bool) (n : nat) (t : string) :
  array trailing n t ->
  first_char t = Some "["%char /\ last_char t = Some "]"%char.
Proof.
  intros [w Hw|n' s Hs]; (split; [reflexivity|]);
    rewrite <- append_assoc; apply (PreprocessorProps.last_char_snoc _ "]").
Qed.

Lemma object_ends (trailing : bool) (o : string) :
  object trailing o ->
  first_char o = Some "{"%char /\ last_char o = Some "}"%char.
Proof.
  intros [w Hw|s Hs]; (split; [reflexivity|]);
    rewrite <- append_assoc; apply (PreprocessorProps.last_char_snoc _ "}").
Qed.

Lemma object_value (trailing : bool) (o : string) :
  object trailing o -> value trailing o.
Proof.
  intros [w Hw|s Hs]; [now apply value_empty_object|now apply value_object].
Qed.

Lemma element_padded (trailing : bool) (w e : string) :
  blank w = true -> element trailing e -> element trailing (w +:+ e).
Proof.
  intros Hw [w1 v w2 Hw1 Hv Hw2]. rewrite <- append_assoc.
  apply element_intro; [now apply blank_app|exact Hv|exact Hw2].
Qed.

Lemma items_padded (trailing : bool) (n : nat) (w s : string) :
  blank w = true -> items trailing n s -> items trailing n (w +:+ s).
Proof.
  intros Hw [e He|e w' Ht He Hw'|e n' r He Hr].
  - now apply items_last, element_padded.
  - rewrite <- (append_assoc w e).
    apply items_trailing; [exact Ht|now apply element_padded|exact Hw'].
  - rewrite <- (append_assoc w e).
    apply items_more; [now apply element_padded|exact Hr].
Qed.

Lemma object_seq_items (trailing : bool) (n : nat) (t : string) :
  object_seq trailing n t ->
  items trailing n t
  /\ first_char t = Some "{"%char /\ last_char t = Some "}"%char.
Proof.
  induction 1 as [o Ho|o w1 w2 n rest Ho Hw1 Hw2 _ (Hi & Hf & Hl)].
  - destruct (object_ends _ _ Ho) as [Hf Hl]. split; [|now split].
    apply items_last. rewrite <- (append_nil_r o).
    apply (element_intro trailing EmptyString o EmptyString);
      [reflexivity|now apply object_value|reflexivity].
  - destruct (object_ends _ _ Ho) as [Hfo Hlo]. split; [|split].
    + rewrite <- (append_assoc o w1).
      apply items_more; [|now apply items_padded].
      apply (element_intro trailing EmptyString o w1);
        [reflexivity|now apply object_value|exact Hw1].
    + destruct o; [discriminate|]. exact Hfo.
    + assert (Hn : rest <> EmptyString) by (destruct rest; discriminate).
      rewrite <- !append_assoc. now rewrite last_char_app.
Qed.

(** C5.  The repair of a text that is an array, or a sequence of objects
    separated by commas without the brackets around it, possibly with a
    comma before closing brackets or braces at any depth and with
    whitespace before and after, is an array of the grammar of JSON
    without any such comma, and it has as many elements: one for every
    object of the sequence. *)
Theorem fix_json_structure_repairs (trailing : bool) (n : nat)
    (w0 t w1 : string) :
  blank w0 = true -> blank w1 = true ->
  array trailing n t \/ object_seq trailing n t ->
  array false n (fix_json_structure (w0 +:+ t +:+ w1)).
Proof.
  intros Hw0 Hw1 Ht. unfold fix_json_structure, lstrip_bom. cbv zeta.
  destruct Ht as [Ha|Hs].
  - destruct (array_ends _ _ _ Ha) as [Hf Hl].
    rewrite !(strip_padding w0 w1 t "[" "]") by (assumption || reflexivity).
    rewrite Hf. cbn [is_char]. change (ch_eqb "[" "[") with true. cbv iota.
    rewrite Hl. cbn [is_char]. change (ch_eqb "]" "]") with true. cbv iota.
    now apply (array_trailing trailing), array_missing.
  - destruct (object_seq_items _ _ _ Hs) as (Hi & Hf & Hl).
    rewrite !(strip_padding w0 w1 t "{" "}") by (assumption || reflexivity).
    rewrite Hf. cbn [is_char]. change (ch_eqb "[" "{") with false. cbv iota.
    assert (Hl' : last_char ("[" +:+ t) = Some "}"%char).
    { rewrite last_char_app; [exact Hl|]. destruct t; discriminate. }
    rewrite Hl'. cbn [is_char]. change (ch_eqb "]" "}") with false. cbv iota.
    apply (array_trailing trailing), array_missing.
    rewrite append_assoc. now apply (array_items trailing n t).
Qed.

Import Examples.

Lemma plain_body (s : string) :
  every plain_char s = true -> str_body s.
Proof.
  induction s as [|c s IH]; [constructor|]. cbn [every].
  intros [Hc Hs]%andb_true_iff. apply body_char; auto.
Qed.

Lemma bare_element (trailing : bool) (v : string) :
  value trailing v -> element trailing v.
Proof.
  intros Hv. rewrite <- (append_nil_r v).
  now apply (element_intro trailing EmptyString v EmptyString).
Qed.

Lemma bare_member (trailing : bool) (k v : string) :
  every plain_char k = true -> value trailing v ->
  member trailing (quoted k +:+ ":" +:+ v).
Proof.
  intros Hk Hv.
  apply (member_intro trailing EmptyString k EmptyString v);
    [reflexivity|now apply plain_body|reflexivity|now apply bare_element].
Qed.

(** The texts of the scenario belong to the grammar. *)
Lemma stray_comma_array : array true 1 stray_comma.
Proof.
  apply (array_items true 1 ("{" +:+ quoted "a" +:+ ":1}" +:+ ",")).
  apply (items_trailing true ("{" +:+ quoted "a" +:+ ":1}") EmptyString);
    [reflexivity| |reflexivity].
  apply bare_element, (value_object true (quoted "a" +:+ ":" +:+ "1")).
  apply fields_last, bare_member; [reflexivity|].
  now apply value_atom.
Qed.

Lemma object_text_object (trailing : bool) (question : string) :
  every plain_char question = true ->
  object trailing (object_text question).
Proof.
  intros Hq.
  assert (Heq : object_text question
                = "{" +:+ ((quoted "question" +:+ ":" +:+ quoted question)
                           +:+ "," +:+ (quoted "answers" +:+ ":" +:+ "[]"))
                  +:+ "}").
  { unfold object_text. rewrite !append_assoc, !quoted_app.
    reflexivity. }
  rewrite Heq. apply object_fields, fields_more.
  - apply bare_member; [reflexivity|]. apply value_string.
    now apply plain_body.
  - apply fields_last, bare_member; [reflexivity|].
    now apply (value_empty_array trailing EmptyString).
Qed.

Lemma two_objects_seq : object_seq false 2 two_objects.
Proof.
  apply (seq_more false (object_text "a") EmptyString EmptyString 1
           (object_text "b")); try reflexivity.
  - now apply object_text_object.
  - now apply seq_last, object_text_object.
Qed.

Lemma fix_json_structure_repairs_witness :
  array false 1 (fix_json_structure (EmptyString +:+ stray_comma +:+ EmptyString))
  /\ array false 2
       (fix_json_structure (" " +:+ two_objects +:+ String newline EmptyString)).
Proof.
  split.
  - apply (fix_json_structure_repairs true 1 EmptyString stray_comma
             EmptyString); [reflexivity|reflexivity|].
    left. exact stray_comma_array.
  - apply (fix_json_structure_repairs false 2 " " two_objects
             (String newline EmptyString)); [reflexivity|reflexivity|].
    right. exact two_objects_seq.
Defined.

(** The reader of [MiniJson] on the two repaired texts. *)
Lemma repaired_examples_load :
  MiniJson.loads (fix_json_structure stray_comma)
  = inr (JArr [JObj [("a", JNum "1")]])
  /\ MiniJson.loads
       (fix_json_structure (" " +:+ two_objects +:+ String newline EmptyString))
     = inr (JArr [JObj [("question", JStr "a"); ("answers", JArr [])];
                  JObj [("question", JStr "b"); ("answers", JArr [])]]).
Proof. split; vm_compute; reflexivity. Qed.

(** X25.  The repair does not leave string literals alone: of a file that
    is valid JSON and whose question holds two adjacent fields of a format
    string, [load_json_safely] returns the question with a comma put
    between the braces. *)
Theorem repair_rewrites_strings :
  array false 1 braces_file
  /\ MiniJson.loads braces_file
     = inr (JArr [JObj [("question", JStr "f'{a}{b}'");
                        ("answers", JArr [])]])
  /\ snd (@load_json_safely MiniJson.mini_libs braces_file)
     = inr [JObj [("question", JStr "f'{a},{b}'"); ("answers", JArr [])]].
Proof.
  split; [|split; vm_compute; reflexivity].
  apply (array_items false 1 (object_text "f'{a}{b}'")).
  apply items_last, bare_element, object_value.
  now apply object_text_object.
Qed.

End JsonRepairFacts.

(* ===================================================================== *)
(** * The classes together *)
(* ===================================================================== *)

Module PipelineProps.

Import Text JSONCombiner Scraper JSONCombinerFacts.

Section WithLibraries.
Context `{PyLibs} `{Soup}.

Lemma filter_strings (l : list string) :
  List.filter is_str (map JStr l) = map JStr l.
Proof. induction l as [|x l IH]; simpl; [reflexivity|]. now rewrite IH. Qed.

(** X22.  A record whose question is a wrapper object keeps the wrapper
    when [JSONCombiner] processes it, and [DataPreprocessor] then reads the
    processed record exactly as if its question were null: nothing the
    wrapper holds reaches the question code or text of the dataset. *)
Theorem wrapped_question_lost (d rest : pydict) :
  match JSONCombiner.process_entry (("question", JObj d) :: rest) with
  | Some p =>
      (exists content a,
          p = ("question", JObj [("content", JStr content)]) :: a)
      /\ DataPreprocessor.process_entry (JObj p)
         = DataPreprocessor.process_entry (JObj (("question", JNull) :: p))
  | None => True
  end.
Proof.
  unfold JSONCombiner.process_entry.
  destruct (clean_answers _) as [a|]; simpl; [|exact I].
  split; [eauto|reflexivity].
Qed.

(** X23.  A record as [CVScraper/scraper.py] writes it, with the answer
    body as one string in place of a list: [JSONCombiner] iterates the
    string and stores one cleaned answer for every character of it, and
    the validation of [DataPreprocessor] rejects the record. *)
Theorem string_answers_split (q a_body : string) :
  JSONCombiner.process_entry (json_items (JStr q) (JStr a_body))
  = Some [("question", JStr (clean_html (JStr q)));
          ("answers",
           JArr (map (fun ch => JStr (clean_html (JStr ch))) (chars a_body)))]
  /\ DataPreprocessor.validate_json_entry
       (JObj (json_items (JStr q) (JStr a_body))) = false.
Proof.
  split; [|reflexivity].
  unfold JSONCombiner.process_entry, clean_answers, clean_question, json_items.
  cbn [dict_get String.eqb Ascii.eqb Bool.eqb py_iter mbind option_bind].
  simpl. rewrite filter_strings, map_map. reflexivity.
Qed.

End WithLibraries.

End PipelineProps.
